(** * throttledDebounce: a shallow embedding and its verified properties

    The JavaScript function [throttledDebounce(options)] closes over ten
    mutable variables and returns a [listener] carrying [cancel], [resume]
    and [bounce].  The embedding keeps one record for the closure variables
    ([State]), one for everything around them ([World]: the context objects
    by identity, the clock read by [(new Date()).getTime()], the pending
    timers of the injected [setTimeout]/[clearTimeout], the record of the
    [options.callback] invocations and the private state of
    [options.controlFunc]), and one function per source function.

    Numbers are integers ([Z]): time stamps in milliseconds and call counts.
    Each invocation of the user callback is recorded with the clock, the
    identity of the context object and its content at that moment.  In
    [triggerBounce] the callback is an observer, user code that does not call
    the returned functions while it runs, and the control function is a
    program that may call [split] on any context object it holds a reference
    to and sees what the call returns.  The functions named [..._calling] are
    the same source functions for a callback and a control function that act
    on the instance while they run, the callback between its invocation
    (line 39) and [reset] (line 40); with user code that leaves the instance
    alone they are the functions without the suffix. *)

From stdpp Require Import base option list gmap.
From Stdlib Require Import ZArith Lia.

Local Open Scope Z_scope.

(** ** Data *)

(** The four strings passed to [triggerBounce]. *)
Inductive Trigger : Type := throttle | debounce | control | global.

(** What [cancel], [resume], [bounce] and [split] return: [true], or nothing
    ([undefined], which is falsy). *)
Inductive jsret : Type := JTrue | JUndefined.

Definition falsy (r : jsret) : Prop := r = JUndefined.

(** The two functions handed to [setTimeoutFunc]. *)
Inductive TimerFunc : Type := feedThrottleTimeout | maxDelayTimeout.

Global Instance Trigger_eq_dec : EqDecision Trigger.
Proof. solve_decision. Defined.

Global Instance TimerFunc_eq_dec : EqDecision TimerFunc.
Proof. solve_decision. Defined.

Section ThrottledDebounce.

(** [Val]: the opaque values of an event's arguments.  [HS]: the private
    state of the control function. *)
Context {Val HS : Type}.

(** The object built by [reset] (lines 63-77).  [splitProp] tells whether the
    object still has its [split] property ([delete context.split]). *)
Record ChainContext : Type := mkContext {
  callCount : Z;
  arguments : option (list Val);
  trigger : option Trigger;
  splitProp : bool
}.

Definition freshContext : ChainContext :=
  {| callCount := 0; arguments := None; trigger := None; splitProp := true |}.

Global Instance ChainContext_inhabited : Inhabited ChainContext :=
  populate freshContext.

(** The closure variables of lines 16-25.  [context] and [bounce] hold
    references: the identity of the current context object, and the
    identity of the context whose [contextBounce] closure is stored. *)
Record State : Type := mkState {
  maxDelayHandle : option nat;
  throttleHandle : option nat;
  didBounce : bool;
  throttleTime : option Z;
  cancelled : bool;
  context : nat;
  gotAnyEvent : bool;
  bounce : nat;
  splitEventChain : bool;
  includeLastEventOnSplitting : bool
}.

(** One recorded invocation of [options.callback]. *)
Record Call : Type := mkCall {
  callTime : Z;
  callCtx : nat;
  callArg : ChainContext
}.

(** One pending timer: its handle, its function and the time it is due. *)
Record Timer : Type := mkTimer {
  timerHandle : nat;
  timerFunc : TimerFunc;
  timerDue : Z
}.

(** One recorded call of [setTimeoutFunc]. *)
Record Arming : Type := mkArming {
  armHandle : nat;
  armFunc : TimerFunc;
  armAt : Z;
  armDelay : Z
}.

Record World : Type := mkWorld {
  st : State;
  heap : gmap nat ChainContext;
  nextCtx : nat;
  now : Z;
  timers : list Timer;
  nextHandle : nat;
  armings : list Arming;
  calls : list Call;
  hookState : HS
}.

(** A run of the control function: it returns with a new private state, or
    calls [split(includeCurrent)] on the context object [target] and goes on
    with what the call returned. *)
Inductive hook_prog : Type :=
| HReturn (h : HS)
| HSplit (target : nat) (includeCurrent : bool) (k : jsret -> hook_prog).

(** The options read by the code.  [controlFunc] receives its private state,
    the identity of the context object and the object's content. *)
Record Options : Type := mkOptions {
  controlFunc : option (HS -> nat -> ChainContext -> hook_prog);
  maxDelay : option Z;
  throttleWait : Z
}.

(** ** Assignments *)

Definition upd_st (f : State -> State) (w : World) : World :=
  {| st := f (st w); heap := heap w; nextCtx := nextCtx w; now := now w;
     timers := timers w; nextHandle := nextHandle w; armings := armings w;
     calls := calls w; hookState := hookState w |}.

Definition set_maxDelayHandle (v : option nat) : World -> World :=
  upd_st (fun s =>
    {| maxDelayHandle := v; throttleHandle := throttleHandle s;
       didBounce := didBounce s; throttleTime := throttleTime s;
       cancelled := cancelled s; context := context s;
       gotAnyEvent := gotAnyEvent s; bounce := bounce s;
       splitEventChain := splitEventChain s;
       includeLastEventOnSplitting := includeLastEventOnSplitting s |}).

Definition set_throttleHandle (v : option nat) : World -> World :=
  upd_st (fun s =>
    {| maxDelayHandle := maxDelayHandle s; throttleHandle := v;
       didBounce := didBounce s; throttleTime := throttleTime s;
       cancelled := cancelled s; context := context s;
       gotAnyEvent := gotAnyEvent s; bounce := bounce s;
       splitEventChain := splitEventChain s;
       includeLastEventOnSplitting := includeLastEventOnSplitting s |}).

Definition set_didBounce (v : bool) : World -> World :=
  upd_st (fun s =>
    {| maxDelayHandle := maxDelayHandle s; throttleHandle := throttleHandle s;
       didBounce := v; throttleTime := throttleTime s;
       cancelled := cancelled s; context := context s;
       gotAnyEvent := gotAnyEvent s; bounce := bounce s;
       splitEventChain := splitEventChain s;
       includeLastEventOnSplitting := includeLastEventOnSplitting s |}).

Definition set_throttleTime (v : option Z) : World -> World :=
  upd_st (fun s =>
    {| maxDelayHandle := maxDelayHandle s; throttleHandle := throttleHandle s;
       didBounce := didBounce s; throttleTime := v;
       cancelled := cancelled s; context := context s;
       gotAnyEvent := gotAnyEvent s; bounce := bounce s;
       splitEventChain := splitEventChain s;
       includeLastEventOnSplitting := includeLastEventOnSplitting s |}).

Definition set_cancelled (v : bool) : World -> World :=
  upd_st (fun s =>
    {| maxDelayHandle := maxDelayHandle s; throttleHandle := throttleHandle s;
       didBounce := didBounce s; throttleTime := throttleTime s;
       cancelled := v; context := context s;
       gotAnyEvent := gotAnyEvent s; bounce := bounce s;
       splitEventChain := splitEventChain s;
       includeLastEventOnSplitting := includeLastEventOnSplitting s |}).

Definition set_context (v : nat) : World -> World :=
  upd_st (fun s =>
    {| maxDelayHandle := maxDelayHandle s; throttleHandle := throttleHandle s;
       didBounce := didBounce s; throttleTime := throttleTime s;
       cancelled := cancelled s; context := v;
       gotAnyEvent := gotAnyEvent s; bounce := bounce s;
       splitEventChain := splitEventChain s;
       includeLastEventOnSplitting := includeLastEventOnSplitting s |}).

Definition set_gotAnyEvent (v : bool) : World -> World :=
  upd_st (fun s =>
    {| maxDelayHandle := maxDelayHandle s; throttleHandle := throttleHandle s;
       didBounce := didBounce s; throttleTime := throttleTime s;
       cancelled := cancelled s; context := context s;
       gotAnyEvent := v; bounce := bounce s;
       splitEventChain := splitEventChain s;
       includeLastEventOnSplitting := includeLastEventOnSplitting s |}).

Definition set_bounce (v : nat) : World -> World :=
  upd_st (fun s =>
    {| maxDelayHandle := maxDelayHandle s; throttleHandle := throttleHandle s;
       didBounce := didBounce s; throttleTime := throttleTime s;
       cancelled := cancelled s; context := context s;
       gotAnyEvent := gotAnyEvent s; bounce := v;
       splitEventChain := splitEventChain s;
       includeLastEventOnSplitting := includeLastEventOnSplitting s |}).

Definition set_splitEventChain (v : bool) : World -> World :=
  upd_st (fun s =>
    {| maxDelayHandle := maxDelayHandle s; throttleHandle := throttleHandle s;
       didBounce := didBounce s; throttleTime := throttleTime s;
       cancelled := cancelled s; context := context s;
       gotAnyEvent := gotAnyEvent s; bounce := bounce s;
       splitEventChain := v;
       includeLastEventOnSplitting := includeLastEventOnSplitting s |}).

Definition set_includeLastEventOnSplitting (v : bool) : World -> World :=
  upd_st (fun s =>
    {| maxDelayHandle := maxDelayHandle s; throttleHandle := throttleHandle s;
       didBounce := didBounce s; throttleTime := throttleTime s;
       cancelled := cancelled s; context := context s;
       gotAnyEvent := gotAnyEvent s; bounce := bounce s;
       splitEventChain := splitEventChain s;
       includeLastEventOnSplitting := v |}).

Definition set_heap (h : gmap nat ChainContext) (w : World) : World :=
  {| st := st w; heap := h; nextCtx := nextCtx w; now := now w;
     timers := timers w; nextHandle := nextHandle w; armings := armings w;
     calls := calls w; hookState := hookState w |}.

Definition set_nextCtx (n : nat) (w : World) : World :=
  {| st := st w; heap := heap w; nextCtx := n; now := now w;
     timers := timers w; nextHandle := nextHandle w; armings := armings w;
     calls := calls w; hookState := hookState w |}.

Definition set_now (t : Z) (w : World) : World :=
  {| st := st w; heap := heap w; nextCtx := nextCtx w; now := t;
     timers := timers w; nextHandle := nextHandle w; armings := armings w;
     calls := calls w; hookState := hookState w |}.

Definition set_timers (l : list Timer) (w : World) : World :=
  {| st := st w; heap := heap w; nextCtx := nextCtx w; now := now w;
     timers := l; nextHandle := nextHandle w; armings := armings w;
     calls := calls w; hookState := hookState w |}.

Definition set_calls (l : list Call) (w : World) : World :=
  {| st := st w; heap := heap w; nextCtx := nextCtx w; now := now w;
     timers := timers w; nextHandle := nextHandle w; armings := armings w;
     calls := l; hookState := hookState w |}.

Definition set_hookState (h : HS) (w : World) : World :=
  {| st := st w; heap := heap w; nextCtx := nextCtx w; now := now w;
     timers := timers w; nextHandle := nextHandle w; armings := armings w;
     calls := calls w; hookState := h |}.

(** ** Context objects *)

(** The content of the object [context] refers to. *)
Definition cur (w : World) : ChainContext := heap w !!! context (st w).

(** A write to a property of the object [context] refers to. *)
Definition upd_cur (f : ChainContext -> ChainContext) (w : World) : World :=
  set_heap (alter f (context (st w)) (heap w)) w.

Definition with_callCount (n : Z) (c : ChainContext) : ChainContext :=
  {| callCount := n; arguments := arguments c; trigger := trigger c;
     splitProp := splitProp c |}.

Definition with_arguments (a : option (list Val)) (c : ChainContext)
  : ChainContext :=
  {| callCount := callCount c; arguments := a; trigger := trigger c;
     splitProp := splitProp c |}.

Definition with_trigger (t : Trigger) (c : ChainContext) : ChainContext :=
  {| callCount := callCount c; arguments := arguments c; trigger := Some t;
     splitProp := splitProp c |}.

Definition without_split (c : ChainContext) : ChainContext :=
  {| callCount := callCount c; arguments := arguments c; trigger := trigger c;
     splitProp := false |}.

(** ** The injected timer functions *)

(** [setTimeoutFunc(f, delay)]: a new handle, due [delay] after the clock. *)
Definition setTimeoutFunc (f : TimerFunc) (delay : Z) (w : World)
  : nat * World :=
  let h := nextHandle w in
  (h,
   {| st := st w; heap := heap w; nextCtx := nextCtx w; now := now w;
      timers := timers w ++ [mkTimer h f (now w + delay)];
      nextHandle := S h;
      armings := armings w ++ [mkArming h f (now w) delay];
      calls := calls w; hookState := hookState w |}).

(** [clearTimeoutFunc(handle)]: the timer is no longer pending. *)
Definition clearTimeoutFunc (h : nat) (w : World) : World :=
  set_timers (filter (fun t => timerHandle t ≠ h) (timers w)) w.

(** ** The functions of the source *)

Section Code.

Variable options : Options.

(** [reset], lines 47-87. *)
Definition reset (w : World) : World :=
  let w := set_gotAnyEvent false w in
  let w := set_throttleTime None w in
  let w := set_didBounce false w in
  let w := match throttleHandle (st w) with
           | Some h => set_throttleHandle None (clearTimeoutFunc h w)
           | None => w
           end in
  let w := match maxDelayHandle (st w) with
           | Some h => set_maxDelayHandle None (clearTimeoutFunc h w)
           | None => w
           end in
  let thisContext := nextCtx w in
  let w := set_nextCtx (S thisContext)
             (set_heap (<[thisContext := freshContext]> (heap w)) w) in
  let w := set_bounce thisContext w in
  set_context thisContext w.

(** [triggerBounce], lines 27-44.  [Array.prototype.slice.call] copies the
    arguments into an array holding the same values in the same order. *)
Definition triggerBounce (trig : Trigger) (w : World) : jsret * World :=
  if negb (didBounce (st w)) && negb (cancelled (st w)) then
    let w := set_didBounce true w in
    let w := upd_cur (with_trigger trig) w in
    let w := match arguments (cur w) with
             | Some a => upd_cur (with_arguments (Some a)) w
             | None => w
             end in
    let w := upd_cur without_split w in
    let w := set_calls
               (calls w ++ [mkCall (now w) (context (st w)) (cur w)]) w in
    let w := reset w in
    (JTrue, w)
  else (JUndefined, w).

(** The [split] closure of the context object [thisContext], lines 66-76. *)
Definition split (thisContext : nat) (includeCurrent : bool) (w : World)
  : jsret * World :=
  if bool_decide (context (st w) = thisContext)
     && negb (splitEventChain (st w)) then
    let w := set_splitEventChain true w in
    let w := if includeCurrent
             then set_includeLastEventOnSplitting true w else w in
    (JTrue, w)
  else (JUndefined, w).

(** The [contextBounce] closure created together with the context object
    [thisContext], lines 79-84. *)
Definition contextBounce (thisContext : nat) (trig : Trigger) (w : World)
  : jsret * World :=
  if bool_decide (context (st w) = thisContext)
  then triggerBounce trig w
  else (JUndefined, w).

(** A call [bounce(trigger)] through the variable [bounce]. *)
Definition call_bounce (trig : Trigger) (w : World) : jsret * World :=
  contextBounce (bounce (st w)) trig w.

(** [setMaxDelay], lines 89-91.  An absent delay is a delay of zero. *)
Definition setMaxDelay (w : World) : World :=
  let '(h, w) := setTimeoutFunc maxDelayTimeout (default 0 (maxDelay options)) w in
  set_maxDelayHandle (Some h) w.

(** [maxDelayTimeoutFunc], lines 93-96. *)
Definition maxDelayTimeoutFunc (w : World) : World :=
  let w := set_maxDelayHandle None w in
  snd (call_bounce debounce w).

(** [createThrottleTimeout], lines 114-120.  [overrideTime || throttleWait]
    takes [throttleWait] when [overrideTime] is absent or zero. *)
Definition createThrottleTimeout (overrideTime : option Z) (w : World)
  : World :=
  let overrideTime := Z.min (throttleWait options) <$> overrideTime in
  let delay := match overrideTime with
               | Some t => if t =? 0 then throttleWait options else t
               | None => throttleWait options
               end in
  let '(h, w) := setTimeoutFunc feedThrottleTimeout delay w in
  set_throttleHandle (Some h) w.

(** [feedThrottle], lines 98-112.  [throttleTime ? ... : 0] takes the second
    branch when [throttleTime] is absent or zero. *)
Definition passedTime (w : World) : Z :=
  match throttleTime (st w) with
  | Some t => if t =? 0 then 0 else throttleWait options - (t - now w)
  | None => 0
  end.

Definition feedThrottle (w : World) : World :=
  match throttleHandle (st w) with
  | None =>
      let w := set_throttleTime (Some (now w + throttleWait options)) w in
      createThrottleTimeout None w
  | Some _ =>
      let p := passedTime w in
      if 0 <? p
      then set_throttleTime ((fun t => t + p) <$> throttleTime (st w)) w
      else snd (call_bounce throttle w)
  end.

(** [feedThrottleTimeoutFunc], lines 122-130.  With [throttleTime] absent the
    difference is not a number and the comparison is false. *)
Definition feedThrottleTimeoutFunc (w : World) : World :=
  let w := set_throttleHandle None w in
  match throttleTime (st w) with
  | Some t =>
      let timeLeft := t - now w in
      if 0 <? timeLeft
      then createThrottleTimeout (Some timeLeft) w
      else snd (call_bounce throttle w)
  | None => snd (call_bounce throttle w)
  end.

(** The control function runs; each [split] it calls acts on the world. *)
Fixpoint run_hook (p : hook_prog) (w : World) : World :=
  match p with
  | HReturn h => set_hookState h w
  | HSplit g inc k =>
      let '(r, w) := split g inc w in
      run_hook (k r) w
  end.

(** Lines 160-164 of [listener]. *)
Definition listener_timing (w : World) : World :=
  let w := feedThrottle w in
  if bool_decide (maxDelayHandle (st w) = None)
     && bool_decide (maxDelay options ≠ None)
  then setMaxDelay w
  else w.

(** Lines 135-138 of [listener]: the event is counted and its arguments are
    stored; the arguments stored before are kept aside. *)
Definition listener_count (args : list Val) (w : World)
  : option (list Val) * World :=
  let w := set_gotAnyEvent true w in
  let w := upd_cur (fun c => with_callCount (callCount c + 1) c) w in
  let previousArguments := arguments (cur w) in
  (previousArguments, upd_cur (with_arguments (Some args)) w).

(** Lines 141-145 of [listener]: the split flag is kept aside, both flags are
    cleared and the control function runs on the current context. *)
Definition listener_control
    (f : HS -> nat -> ChainContext -> hook_prog) (w : World) : bool * World :=
  let previousSplitEventChain := splitEventChain (st w) in
  let w := set_splitEventChain false w in
  let w := set_includeLastEventOnSplitting false w in
  (previousSplitEventChain,
   run_hook (f (hookState w) (context (st w)) (cur w)) w).

(** Lines 148-152 of [listener]: the event is taken back out of the chain
    unless it was to be included, and the chain bounces. *)
Definition listener_split (previousArguments : option (list Val)) (w : World)
  : World :=
  let w := if negb (includeLastEventOnSplitting (st w))
           then upd_cur (fun c => with_callCount (callCount c - 1) c)
                  (upd_cur (with_arguments previousArguments) w)
           else w in
  snd (call_bounce control w).

(** [listener], lines 133-166.  The function calls itself at line 154; the
    fuel bounds the depth of these calls, [None] meaning that it was used up. *)
Fixpoint listener_fuel (fuel : nat) (args : list Val) (w : World)
  : option World :=
  match fuel with
  | O => None
  | S fuel =>
      if cancelled (st w) then Some w else
      let '(previousArguments, w) := listener_count args w in
      match controlFunc options with
      | Some f =>
          let '(previousSplitEventChain, w) := listener_control f w in
          if splitEventChain (st w) && negb previousSplitEventChain then
            let w := listener_split previousArguments w in
            if negb (includeLastEventOnSplitting (st w))
            then listener_fuel fuel args w
            else Some w
          else Some (listener_timing w)
      | None => Some (listener_timing w)
      end
  end.

(** Two levels of calls are always enough (see [listener_fuel_enough]). *)
Definition listener (args : list Val) (w : World) : World :=
  default w (listener_fuel 2 args w).

(** [listener.cancel], lines 168-174. *)
Definition cancel (w : World) : jsret * World :=
  if negb (cancelled (st w))
  then (JTrue, reset (set_cancelled true w))
  else (JUndefined, w).

(** [listener.resume], lines 176-181. *)
Definition resume (w : World) : jsret * World :=
  if cancelled (st w)
  then (JTrue, set_cancelled false w)
  else (JUndefined, w).

(** [listener.bounce], lines 183-187.  [force] is [true] exactly when the
    argument is the value [true]. *)
Definition globalBounce (force : bool) (w : World) : jsret * World :=
  if force || gotAnyEvent (st w)
  then triggerBounce global w
  else (JUndefined, w).

(** [throttledDebounce(options)], lines 12-26 and 189-190: the variables are
    initialised and [reset] runs once.  Before it, [context] and [bounce]
    hold no object; nothing reads them until [reset] has assigned them. *)
Definition throttledDebounce (h0 : HS) (t0 : Z) : World :=
  reset
    {| st := {| maxDelayHandle := None; throttleHandle := None;
                didBounce := false; throttleTime := None; cancelled := false;
                context := 0; gotAnyEvent := false; bounce := 0;
                splitEventChain := false;
                includeLastEventOnSplitting := false |};
       heap := ∅; nextCtx := 0; now := t0; timers := []; nextHandle := 0;
       armings := []; calls := []; hookState := h0 |}.

(** ** Calls from outside and the passing of time *)

(** The pending timer with handle [h] fires: it is no longer pending and its
    function runs.  A handle that is not pending fires nothing. *)
Definition fire (h : nat) (w : World) : World :=
  match list_find (fun t => timerHandle t = h) (timers w) with
  | Some (_, t) =>
      let w := clearTimeoutFunc h w in
      match timerFunc t with
      | feedThrottleTimeout => feedThrottleTimeoutFunc w
      | maxDelayTimeout => maxDelayTimeoutFunc w
      end
  | None => w
  end.

(** What can happen to an instance: a call of the listener, a pending timer
    firing, the clock showing another time, a call of [bounce], [cancel] or
    [resume] on the handle, and a call through a reference to the [split]
    or [contextBounce] closure of any context object, kept from earlier. *)
Inductive op : Type :=
| OListener (args : list Val)
| OTimer (h : nat)
| OClock (t : Z)
| OBounce (force : bool)
| OCancel
| OResume
| OSplitRef (g : nat) (includeCurrent : bool)
| OBounceRef (g : nat) (trig : Trigger).

Definition step (w : World) (o : op) : World :=
  match o with
  | OListener args => listener args w
  | OTimer h => fire h w
  | OClock t => set_now t w
  | OBounce force => snd (globalBounce force w)
  | OCancel => snd (cancel w)
  | OResume => snd (resume w)
  | OSplitRef g inc => snd (split g inc w)
  | OBounceRef g trig => snd (contextBounce g trig w)
  end.

Definition run (os : list op) (w : World) : World := foldl step w os.

(** Deterministic timers: a timer fires exactly when it is due, the earliest
    first, and among timers due together the one armed first. *)
Fixpoint earliest (l : list Timer) : option Timer :=
  match l with
  | [] => None
  | t :: l =>
      match earliest l with
      | Some u => Some (if timerDue u <? timerDue t then u else t)
      | None => Some t
      end
  end.

Definition next_due (t : Z) (w : World) : option Timer :=
  match earliest (timers w) with
  | Some u => if timerDue u <=? t then Some u else None
  | None => None
  end.

(** The clock moves to [t], and every timer due on the way fires at its
    time.  A timer can arm another one, hence the fuel. *)
Fixpoint advance (fuel : nat) (t : Z) (w : World) : option World :=
  match next_due t w with
  | None => Some (set_now t w)
  | Some u =>
      match fuel with
      | O => None
      | S fuel =>
          advance fuel t (fire (timerHandle u) (set_now (timerDue u) w))
      end
  end.

(** A timed script: each operation happens at its time. *)
Fixpoint play (fuel : nat) (script : list (Z * op)) (w : World)
  : option World :=
  match script with
  | [] => Some w
  | (t, o) :: script =>
      match advance fuel t w with
      | Some w => play fuel script (step w o)
      | None => None
      end
  end.

(** ** User functions that call the returned functions

    In the functions above the callback only observes and the control
    function only calls [split].  The functions of this section are the same
    source functions for user code that acts on the instance while it runs:
    [callback g c w] is the world the callback leaves when it is invoked at
    line 39 with the context object [g], holding [c], and returns; [hook],
    present when [options.controlFunc] is defined, is the same for the
    invocation of the control function at line 145, and these functions read
    it in place of the field [controlFunc].  The functions that call neither
    are shared. *)
Section Calling.

Variable callback : nat -> ChainContext -> World -> World.
Variable hook : option (nat -> ChainContext -> World -> World).

(** [triggerBounce], lines 27-44: the callback runs after [didBounce] is set
    and before [reset]. *)
Definition triggerBounce_calling (trig : Trigger) (w : World)
  : jsret * World :=
  if negb (didBounce (st w)) && negb (cancelled (st w)) then
    let w := set_didBounce true w in
    let w := upd_cur (with_trigger trig) w in
    let w := match arguments (cur w) with
             | Some a => upd_cur (with_arguments (Some a)) w
             | None => w
             end in
    let w := upd_cur without_split w in
    let w := set_calls
               (calls w ++ [mkCall (now w) (context (st w)) (cur w)]) w in
    let w := callback (context (st w)) (cur w) w in
    let w := reset w in
    (JTrue, w)
  else (JUndefined, w).

(** [contextBounce], lines 79-84. *)
Definition contextBounce_calling (thisContext : nat) (trig : Trigger)
    (w : World) : jsret * World :=
  if bool_decide (context (st w) = thisContext)
  then triggerBounce_calling trig w
  else (JUndefined, w).

Definition call_bounce_calling (trig : Trigger) (w : World) : jsret * World :=
  contextBounce_calling (bounce (st w)) trig w.

(** [maxDelayTimeoutFunc], lines 93-96. *)
Definition maxDelayTimeoutFunc_calling (w : World) : World :=
  let w := set_maxDelayHandle None w in
  snd (call_bounce_calling debounce w).

(** [feedThrottle], lines 98-112. *)
Definition feedThrottle_calling (w : World) : World :=
  match throttleHandle (st w) with
  | None =>
      let w := set_throttleTime (Some (now w + throttleWait options)) w in
      createThrottleTimeout None w
  | Some _ =>
      let p := passedTime w in
      if 0 <? p
      then set_throttleTime ((fun t => t + p) <$> throttleTime (st w)) w
      else snd (call_bounce_calling throttle w)
  end.

(** [feedThrottleTimeoutFunc], lines 122-130. *)
Definition feedThrottleTimeoutFunc_calling (w : World) : World :=
  let w := set_throttleHandle None w in
  match throttleTime (st w) with
  | Some t =>
      let timeLeft := t - now w in
      if 0 <? timeLeft
      then createThrottleTimeout (Some timeLeft) w
      else snd (call_bounce_calling throttle w)
  | None => snd (call_bounce_calling throttle w)
  end.

(** Lines 160-164 of [listener]. *)
Definition listener_timing_calling (w : World) : World :=
  let w := feedThrottle_calling w in
  if bool_decide (maxDelayHandle (st w) = None)
     && bool_decide (maxDelay options ≠ None)
  then setMaxDelay w
  else w.

(** Lines 141-145 of [listener]. *)
Definition listener_control_calling
    (h : nat -> ChainContext -> World -> World) (w : World) : bool * World :=
  let previousSplitEventChain := splitEventChain (st w) in
  let w := set_splitEventChain false w in
  let w := set_includeLastEventOnSplitting false w in
  (previousSplitEventChain, h (context (st w)) (cur w) w).

(** Lines 148-152 of [listener]: [context] is read again after the control
    function has run. *)
Definition listener_split_calling (previousArguments : option (list Val))
    (w : World) : World :=
  let w := if negb (includeLastEventOnSplitting (st w))
           then upd_cur (fun c => with_callCount (callCount c - 1) c)
                  (upd_cur (with_arguments previousArguments) w)
           else w in
  snd (call_bounce_calling control w).

(** [listener], lines 133-166.  With user code that calls the listener the
    depth of the calls to itself has no bound known beforehand; [None] means
    that the fuel was used up. *)
Fixpoint listener_fuel_calling (fuel : nat) (args : list Val) (w : World)
  : option World :=
  match fuel with
  | O => None
  | S fuel =>
      if cancelled (st w) then Some w else
      let '(previousArguments, w) := listener_count args w in
      match hook with
      | Some h =>
          let '(previousSplitEventChain, w) := listener_control_calling h w in
          if splitEventChain (st w) && negb previousSplitEventChain then
            let w := listener_split_calling previousArguments w in
            if negb (includeLastEventOnSplitting (st w))
            then listener_fuel_calling fuel args w
            else Some w
          else Some (listener_timing_calling w)
      | None => Some (listener_timing_calling w)
      end
  end.

(** [listener.bounce], lines 183-187. *)
Definition globalBounce_calling (force : bool) (w : World) : jsret * World :=
  if force || gotAnyEvent (st w)
  then triggerBounce_calling global w
  else (JUndefined, w).

Definition fire_calling (h : nat) (w : World) : World :=
  match list_find (fun t => timerHandle t = h) (timers w) with
  | Some (_, t) =>
      let w := clearTimeoutFunc h w in
      match timerFunc t with
      | feedThrottleTimeout => feedThrottleTimeoutFunc_calling w
      | maxDelayTimeout => maxDelayTimeoutFunc_calling w
      end
  | None => w
  end.

Definition step_calling (fuel : nat) (w : World) (o : op) : option World :=
  match o with
  | OListener args => listener_fuel_calling fuel args w
  | OTimer h => Some (fire_calling h w)
  | OClock t => Some (set_now t w)
  | OBounce force => Some (snd (globalBounce_calling force w))
  | OCancel => Some (snd (cancel w))
  | OResume => Some (snd (resume w))
  | OSplitRef g inc => Some (snd (split g inc w))
  | OBounceRef g trig => Some (snd (contextBounce_calling g trig w))
  end.

Fixpoint run_calling (fuel : nat) (os : list op) (w : World)
  : option World :=
  match os with
  | [] => Some w
  | o :: os =>
      match step_calling fuel w o with
      | Some w => run_calling fuel os w
      | None => None
      end
  end.

End Calling.

(** ** Invariants *)

(** The variable [context] refers to an allocated object. *)
Definition wf (w : World) : Prop :=
  (context (st w) < nextCtx w)%nat /\ is_Some (heap w !! context (st w)).

(** What holds whenever no function of the instance is running: no commit is
    under way, the stored [bounce] closure is the one of the current context,
    and a chain no event has landed in still has its fresh context. *)
Definition ready (w : World) : Prop :=
  didBounce (st w) = false /\
  bounce (st w) = context (st w) /\
  wf w /\
  (gotAnyEvent (st w) = false -> heap w !! context (st w) = Some freshContext).

(** The part of the world the callback record speaks about. *)
Definition core (w : World)
  : nat * gmap nat ChainContext * nat * list Call :=
  (context (st w), heap w, nextCtx w, calls w).

(** The part of the world [ready] speaks about. *)
Definition ready_core (w : World)
  : bool * nat * nat * nat * gmap nat ChainContext * bool :=
  (didBounce (st w), bounce (st w), context (st w), nextCtx w, heap w,
   gotAnyEvent (st w)).

(** Every pending timer is the one the handle variable for its function
    refers to. *)
Definition tracked (w : World) : Prop :=
  forall t, t ∈ timers w ->
    (timerFunc t = feedThrottleTimeout /\
     throttleHandle (st w) = Some (timerHandle t)) \/
    (timerFunc t = maxDelayTimeout /\
     maxDelayHandle (st w) = Some (timerHandle t)).

(** The part of the world [tracked] speaks about. *)
Definition timer_core (w : World)
  : list Timer * option nat * option nat :=
  (timers w, throttleHandle (st w), maxDelayHandle (st w)).

(** The part of the world that tells whether and when the max-delay timer
    was armed. *)
Definition maxDelay_core (w : World) : option nat * list Arming :=
  (maxDelayHandle (st w),
   filter (fun a => armFunc a = maxDelayTimeout) (armings w)).

(** [steady w w']: if the current context of [w] is still current in [w'],
    the max-delay handle is the same and the max-delay timer was not armed
    in between. *)
Definition steady (w w' : World) : Prop :=
  wf w -> context (st w') = context (st w) ->
  maxDelay_core w' = maxDelay_core w.

(** [extends w w']: from [w] to [w'] the objects older than the current
    context of [w] were left alone, and each callback invocation added was
    for a context that was current in between, is now superseded, and still
    has the content the callback saw. *)
Definition extends (w w' : World) : Prop :=
  wf w ->
  wf w' /\
  (context (st w) <= context (st w'))%nat /\
  (forall g, (g < context (st w))%nat -> heap w' !! g = heap w !! g) /\
  exists new,
    calls w' = calls w ++ new /\
    Forall (fun c => (context (st w) <= callCtx c < context (st w'))%nat /\
                     heap w' !! callCtx c = Some (callArg c)) new /\
    NoDup (callCtx <$> new).

(** Every recorded invocation was for a superseded context whose content is
    still what the callback saw, and no context was passed twice. *)
Definition committed_frozen (w : World) : Prop :=
  wf w /\
  Forall (fun c => (callCtx c < context (st w))%nat /\
                   heap w !! callCtx c = Some (callArg c)) (calls w) /\
  NoDup (callCtx <$> calls w).

End Code.

(** ** Scenarios *)

(** Options without a control function. *)
Definition plain_options (maxDelay : option Z) (throttleWait : Z) : Options :=
  {| controlFunc := None; maxDelay := maxDelay; throttleWait := throttleWait |}.

(** The clock reaches [t]; every timer due until then has fired. *)
Definition quiet_until (t : Z) : Z * op := (t, OClock t).

(** Four events at 0, 30, 60 and 90 ms. *)
Definition four_events (a0 a30 a60 a90 : list Val) : list (Z * op) :=
  [(0, OListener a0); (30, OListener a30); (60, OListener a60);
   (90, OListener a90)].

(** [n] events, one every [period] ms from 0 on; [a k] are the arguments of
    the event number [k]. *)
Definition periodic_events (period : Z) (n : nat) (a : nat -> list Val)
  : list (Z * op) :=
  (fun k => (period * Z.of_nat k, OListener (a k))) <$> seq 0 n.

(** The recorded calls of [setTimeoutFunc] that armed the function [f]. *)
Definition armings_of (f : TimerFunc) (w : World) : list Arming :=
  filter (fun a => armFunc a = f) (armings w).

(** The content the callback sees when a chain with content [c] bounces. *)
Definition committed (trig : Trigger) (c : ChainContext) : ChainContext :=
  {| callCount := callCount c; arguments := arguments c;
     trigger := Some trig; splitProp := false |}.

(** The timers left pending by the two [clearTimeoutFunc] calls of [reset]. *)
Definition clear_handle (h : option nat) (l : list Timer) : list Timer :=
  match h with
  | Some h => filter (fun t => timerHandle t <> h) l
  | None => l
  end.

(** The world after the chain with content [c] has bounced from [w]: the
    callback has seen [committed trig c] and [reset] has run. *)
Definition bounced (trig : Trigger) (c : ChainContext) (w : World) : World :=
  {| st := {| maxDelayHandle := None; throttleHandle := None;
              didBounce := false; throttleTime := None;
              cancelled := cancelled (st w); context := nextCtx w;
              gotAnyEvent := false; bounce := nextCtx w;
              splitEventChain := splitEventChain (st w);
              includeLastEventOnSplitting :=
                includeLastEventOnSplitting (st w) |};
     heap := <[nextCtx w := freshContext]>
               (<[context (st w) := committed trig c]> (heap w));
     nextCtx := S (nextCtx w);
     now := now w;
     timers := clear_handle (maxDelayHandle (st w))
                 (clear_handle (throttleHandle (st w)) (timers w));
     nextHandle := nextHandle w;
     armings := armings w;
     calls := calls w ++ [mkCall (now w) (context (st w)) (committed trig c)];
     hookState := hookState w |}.

(** The content of a context with content [c] once one more event, with
    arguments [args], has been counted in it (lines 136 and 138). *)
Definition counted (args : list Val) (c : ChainContext) : ChainContext :=
  {| callCount := callCount c + 1; arguments := Some args;
     trigger := trigger c; splitProp := splitProp c |}.

(** The private state the control function ends with when every [split] call
    it makes is refused. *)
Fixpoint hook_rejected (p : hook_prog) : HS :=
  match p with
  | HReturn h => h
  | HSplit _ _ k => hook_rejected (k JUndefined)
  end.

(** A callback that leaves the instance as it is: it calls none of the
    returned functions and does not write to the object it is handed. *)
Definition observer (callback : nat -> ChainContext -> World -> World)
  : Prop :=
  forall g c w, callback g c w = w.

(** A control function that acts on the instance through [split] only, as a
    program of [split] calls does. *)
Definition hook_of (f : HS -> nat -> ChainContext -> hook_prog)
    (g : nat) (c : ChainContext) (w : World) : World :=
  run_hook (f (hookState w) g c) w.

Definition split_only (options : Options)
    (hook : option (nat -> ChainContext -> World -> World)) : Prop :=
  match hook, controlFunc options with
  | Some h, Some f => forall g c w, h g c w = hook_of f g c w
  | None, None => True
  | _, _ => False
  end.

(** The first [split] call that a run of the control function makes through
    the context object [g], every call through another object before it being
    refused: its argument, or [None] when the run makes no such call. *)
Fixpoint first_split (g : nat) (p : hook_prog) : option bool :=
  match p with
  | HReturn _ => None
  | HSplit g' inc k =>
      if bool_decide (g' = g) then Some inc else first_split g (k JUndefined)
  end.

(** A call that returned a falsy value and left the world as it was. *)
Definition rejected (r : jsret * World) (w : World) : Prop :=
  falsy (fst r) /\ snd r = w.

(** ** Further invariants *)

(** The handle variable that refers to the pending timer of a function. *)
Definition handle_var (f : TimerFunc) (w : World) : option nat :=
  match f with
  | feedThrottleTimeout => throttleHandle (st w)
  | maxDelayTimeout => maxDelayHandle (st w)
  end.

(** The pending timers armed for the function [f]. *)
Definition pending (f : TimerFunc) (w : World) : list Timer :=
  filter (fun t => timerFunc t = f) (timers w).

(** No two pending timers share a handle, and every handle in use was
    handed out by [setTimeoutFunc]. *)
Definition handles_fresh (w : World) : Prop :=
  NoDup (timerHandle <$> timers w) /\
  forall t, t ∈ timers w -> (timerHandle t < nextHandle w)%nat.

(** A pending throttle timer is due no later than the throttle deadline. *)
Definition deadline_ok (w : World) : Prop :=
  forall t, t ∈ timers w -> timerFunc t = feedThrottleTimeout ->
    exists d, throttleTime (st w) = Some d /\ timerDue t <= d.

(** What every recorded call of [setTimeoutFunc] satisfies. *)
Definition arming_ok (options : Options) (a : Arming) : Prop :=
  match armFunc a with
  | feedThrottleTimeout =>
      armDelay a <= throttleWait options /\
      (0 < throttleWait options -> 0 < armDelay a)
  | maxDelayTimeout => maxDelay options = Some (armDelay a)
  end.





(** The events the callback has been told of: the sum of the call counts it
    was given. *)
Definition delivered (w : World) : Z :=
  foldr (fun e acc => callCount (callArg e) + acc) 0 (calls w).

(** The events accounted for: those delivered and those counted in the
    current context. *)
Definition events_seen (w : World) : Z := delivered w + callCount (cur w).

(** The number of listener calls among operations. *)
Fixpoint listener_calls (os : list op) : Z :=
  match os with
  | [] => 0
  | OListener _ :: os => 1 + listener_calls os
  | _ :: os => listener_calls os
  end.

End ThrottledDebounce.

(** ** Concrete instances

    Event arguments are lists of numbers and the control function, where
    there is one, keeps the list of what it saw: the call count of the
    context it was given and what its [split] call returned. *)

Definition demo_options : @Options nat unit := plain_options None 100.

(** A new instance at time 0. *)
Definition demo_fresh : @World nat unit := throttledDebounce tt 0.

(** One event at time 0, and the clock at 30 ms. *)
Definition demo_at_30 : @World nat unit :=
  run demo_options [OListener [1%nat]; OClock 30] demo_fresh.

(** One event at time 0, and the clock still at 0. *)
Definition demo_at_0 : @World nat unit :=
  run demo_options [OListener [1%nat]] demo_fresh.

(** A second event arrives at 30 ms: the world in which the listener calls
    [feedThrottle] (line 160), the event counted and its arguments stored. *)
Definition demo_counted_at_30 : @World nat unit :=
  snd (listener_count [2%nat] demo_at_30).

(** A callback that returns at once. *)
Definition callback_returns {Val HS : Type}
    (_ : nat) (_ : @ChainContext Val) (w : @World Val HS) : @World Val HS :=
  w.

(** A callback that calls the listener with the arguments [args]. *)
Definition callback_calls_listener {Val HS : Type} (options : @Options Val HS)
    (args : list Val) (_ : nat) (_ : @ChainContext Val) (w : @World Val HS)
  : @World Val HS :=
  listener options args w.

(** A callback that calls [listener.bounce(true)]. *)
Definition callback_calls_bounce {Val HS : Type}
    (_ : nat) (_ : @ChainContext Val) (w : @World Val HS) : @World Val HS :=
  snd (globalBounce true w).

(** A control function that calls [split(true)] on the context it is given
    and then [listener.bounce(true)]. *)
Definition hook_splits_then_bounces {Val HS : Type}
    (g : nat) (_ : @ChainContext Val) (w : @World Val HS) : @World Val HS :=
  snd (globalBounce_calling callback_returns true (snd (split g true w))).

(** A control function that calls [listener.cancel()]. *)
Definition hook_cancels {Val HS : Type}
    (_ : nat) (_ : @ChainContext Val) (w : @World Val HS) : @World Val HS :=
  snd (cancel w).

(** A cancelled instance. *)
Definition demo_cancelled : @World nat unit :=
  run demo_options [OListener [1%nat]; OCancel] demo_fresh.

(** A control function that calls [split(includeCurrent)] on the context it
    is given whenever [when] holds of the call count it sees, and keeps what
    it saw. *)
Definition split_when (when : Z -> bool) (includeCurrent : bool)
    (seen : list (Z * jsret)) (g : nat) (c : @ChainContext nat)
  : @hook_prog (list (Z * jsret)) :=
  if when (callCount c)
  then HSplit g includeCurrent
         (fun r => HReturn (seen ++ [(callCount c, r)]))
  else HReturn seen.

Definition hooked_options (when : Z -> bool) (includeCurrent : bool)
  : @Options nat (list (Z * jsret)) :=
  {| controlFunc := Some (split_when when includeCurrent);
     maxDelay := None; throttleWait := 100 |}.

(** Three events, 10 ms apart, from a new instance. *)
Definition three_events : list (@op nat) :=
  [OListener [1%nat]; OClock 10; OListener [2%nat]; OClock 20;
   OListener [3%nat]].

(** Two events, 10 ms apart, and the clock at 20 ms. *)
Definition two_events : list (@op nat) :=
  [OListener [1%nat]; OClock 10; OListener [2%nat]; OClock 20].

(** * Proofs *)

Section Proofs.

Context {Val HS : Type}.

#[local] Abbreviation World := (@World Val HS).
#[local] Abbreviation Options := (@Options Val HS).
#[local] Abbreviation ChainContext := (@ChainContext Val).

Implicit Types (w : World) (options : Options) (c : ChainContext).

Ltac open_world w :=
  let s := fresh "s" in
  destruct w as [s ? ? ? ? ? ? ? ?]; destruct s; cbn in *.

(** ** The extension order *)

Lemma extends_refl w : extends w w.
Proof.
  intros Hwf. split; [done|]. split; [lia|]. split; [done|].
  exists []. rewrite app_nil_r. split; [done|]. split; constructor.
Qed.

Lemma extends_trans w1 w2 w3 :
  extends w1 w2 -> extends w2 w3 -> extends w1 w3.
Proof.
  intros H12 H23 Hwf.
  destruct (H12 Hwf) as (Hwf2 & Hle12 & Hold12 & new1 & Hc1 & Hall1 & Hnd1).
  destruct (H23 Hwf2) as (Hwf3 & Hle23 & Hold23 & new2 & Hc2 & Hall2 & Hnd2).
  split; [done|]. split; [lia|]. split.
  { intros g Hg. rewrite Hold23 by lia. by apply Hold12. }
  exists (new1 ++ new2). split.
  { by rewrite Hc2, Hc1, app_assoc. }
  split.
  - apply Forall_app. split.
    + eapply Forall_impl; [exact Hall1|]. cbn. intros c [Hr Hh]. split; [lia|].
      rewrite Hold23 by lia. done.
    + eapply Forall_impl; [exact Hall2|]. cbn. intros c [Hr Hh]. split; [lia|done].
  - rewrite fmap_app. apply NoDup_app. split; [done|]. split; [|done].
    intros g Hg1 Hg2.
    apply list_elem_of_fmap in Hg1 as (c1 & -> & Hin1).
    apply list_elem_of_fmap in Hg2 as (c2 & Heq & Hin2).
    rewrite Forall_forall in Hall1, Hall2.
    destruct (Hall1 _ Hin1) as [? _]. destruct (Hall2 _ Hin2) as [? _]. lia.
Qed.

Lemma extends_core w w' : core w' = core w -> extends w w'.
Proof.
  unfold core. intros Heq Hwf. injection Heq as Hc Hh Hn Hk.
  unfold wf in *. rewrite Hc, Hh, Hn. split; [done|]. split; [lia|].
  split; [done|]. exists []. rewrite app_nil_r. split; [done|].
  split; constructor.
Qed.

Lemma wf_upd_cur (f : ChainContext -> ChainContext) w :
  wf w -> wf (upd_cur f w).
Proof.
  intros [Hlt [c Hc]]. split; [done|]. cbn.
  rewrite lookup_alter_eq, Hc. by eexists.
Qed.

Lemma extends_upd_cur (f : ChainContext -> ChainContext) w :
  extends w (upd_cur f w).
Proof.
  intros Hwf. split; [by apply wf_upd_cur|]. split; [cbn; lia|]. split.
  { intros g Hg. cbn. apply lookup_alter_ne. lia. }
  exists []. rewrite app_nil_r. split; [done|]. split; constructor.
Qed.

Lemma extends_reset w : extends w (reset w).
Proof.
  intros [Hlt Hsome]. open_world w.
  unfold reset, wf; cbn.
  destruct throttleHandle0, maxDelayHandle0; cbn;
    (split; [split; [lia | rewrite lookup_insert_eq; by eexists] |]);
    (split; [lia|]);
    (split; [intros g Hg; apply lookup_insert_ne; lia |]);
    exists []; rewrite app_nil_r; (split; [done|]); split; constructor.
Qed.

Lemma cur_lookup w c : heap w !! context (st w) = Some c -> cur w = c.
Proof. intros H. unfold cur. by rewrite lookup_total_alt, H. Qed.

(** The callback is invoked, then [reset] runs. *)
Lemma extends_commit w t :
  extends w
    (reset (set_calls (calls w ++ [mkCall t (context (st w)) (cur w)]) w)).
Proof.
  intros [Hlt [c Hc]]. rewrite (cur_lookup _ _ Hc). open_world w.
  unfold reset, wf; cbn.
  destruct throttleHandle0, maxDelayHandle0; cbn;
    (split; [split; [lia | rewrite lookup_insert_eq; by eexists] |]);
    (split; [lia|]);
    (split; [intros g Hg; apply lookup_insert_ne; lia |]);
    eexists; (split; [reflexivity|]);
    (split; [| cbn; apply NoDup_singleton]);
    (apply Forall_singleton; cbn; split; [lia|]);
    rewrite lookup_insert_ne by lia; done.
Qed.

Lemma extends_triggerBounce trig w : extends w (snd (triggerBounce trig w)).
Proof.
  unfold triggerBounce.
  destruct (negb (didBounce (st w)) && negb (cancelled (st w)));
    [| apply extends_refl].
  cbn [snd].
  eapply extends_trans; [| apply extends_commit].
  eapply extends_trans; [| apply extends_upd_cur].
  match goal with |- context [match ?x with Some _ => _ | None => _ end] =>
    destruct x end.
  - eapply extends_trans; [| apply extends_upd_cur].
    eapply extends_trans; [| apply extends_upd_cur].
    by apply extends_core.
  - eapply extends_trans; [| apply extends_upd_cur].
    by apply extends_core.
Qed.

Lemma extends_contextBounce g trig w :
  extends w (snd (contextBounce g trig w)).
Proof.
  unfold contextBounce. case_bool_decide; [| apply extends_refl].
  apply extends_triggerBounce.
Qed.

Lemma extends_call_bounce trig w : extends w (snd (call_bounce trig w)).
Proof. apply extends_contextBounce. Qed.

Lemma core_split g inc w : core (snd (split g inc w)) = core w.
Proof.
  unfold split.
  destruct (bool_decide _ && _); [| done]. by destruct inc.
Qed.

Lemma extends_globalBounce force w : extends w (snd (globalBounce force w)).
Proof.
  unfold globalBounce. destruct (force || _); [| apply extends_refl].
  apply extends_triggerBounce.
Qed.

Lemma extends_cancel w : extends w (snd (cancel w)).
Proof.
  unfold cancel. destruct (negb _); [| apply extends_refl]. cbn [snd].
  eapply extends_trans; [| apply extends_reset]. by apply extends_core.
Qed.

Lemma extends_resume w : extends w (snd (resume w)).
Proof.
  unfold resume. destruct (cancelled _); [| apply extends_refl].
  by apply extends_core.
Qed.

Lemma core_setTimeoutFunc f d w : core (snd (setTimeoutFunc f d w)) = core w.
Proof. done. Qed.

Lemma extends_setMaxDelay options w : extends w (setMaxDelay options w).
Proof. by apply extends_core. Qed.

Lemma extends_createThrottleTimeout options ot w :
  extends w (createThrottleTimeout options ot w).
Proof. by apply extends_core. Qed.

Lemma extends_maxDelayTimeoutFunc w : extends w (maxDelayTimeoutFunc w).
Proof.
  unfold maxDelayTimeoutFunc.
  eapply extends_trans; [| apply extends_call_bounce]. by apply extends_core.
Qed.

Lemma extends_feedThrottle options w : extends w (feedThrottle options w).
Proof.
  unfold feedThrottle. destruct (throttleHandle (st w)).
  - destruct (0 <? _); [by apply extends_core | apply extends_call_bounce].
  - by apply extends_core.
Qed.

Lemma extends_feedThrottleTimeoutFunc options w :
  extends w (feedThrottleTimeoutFunc options w).
Proof.
  unfold feedThrottleTimeoutFunc.
  assert (extends w (set_throttleHandle None w)) as H0 by by apply extends_core.
  destruct (throttleTime _).
  - destruct (0 <? _).
    + by apply extends_core.
    + eapply extends_trans; [exact H0 | apply extends_call_bounce].
  - eapply extends_trans; [exact H0 | apply extends_call_bounce].
Qed.

Lemma extends_listener_timing options w :
  extends w (listener_timing options w).
Proof.
  unfold listener_timing.
  destruct (bool_decide _ && _).
  - eapply extends_trans; [apply extends_feedThrottle | apply extends_setMaxDelay].
  - apply extends_feedThrottle.
Qed.

Lemma core_run_hook p w : core (run_hook p w) = core w.
Proof.
  revert w. induction p as [h | g inc k IH]; intros w; cbn; [done|].
  pose proof (core_split g inc w) as Hs.
  destruct (split g inc w) as [r w']. cbn in Hs. by rewrite IH.
Qed.

(** ** The listener *)

Lemma splitEventChain_reset w :
  splitEventChain (st (reset w)) = splitEventChain (st w).
Proof.
  unfold reset. cbn.
  repeat match goal with |- context [match ?x with Some _ => _ | None => _ end] =>
    destruct x; cbn end; done.
Qed.

Lemma splitEventChain_triggerBounce trig w :
  splitEventChain (st (snd (triggerBounce trig w))) = splitEventChain (st w).
Proof.
  unfold triggerBounce. destruct (negb _ && negb _); [| done]. cbn [snd].
  rewrite splitEventChain_reset. cbn.
  by destruct (arguments _).
Qed.

Lemma splitEventChain_call_bounce trig w :
  splitEventChain (st (snd (call_bounce trig w))) = splitEventChain (st w).
Proof.
  unfold call_bounce, contextBounce. case_bool_decide; [| done].
  apply splitEventChain_triggerBounce.
Qed.

Lemma splitEventChain_listener_split pa w :
  splitEventChain (st (listener_split pa w)) = splitEventChain (st w).
Proof.
  unfold listener_split. rewrite splitEventChain_call_bounce.
  by destruct (negb _).
Qed.

Lemma listener_control_previous f w :
  fst (listener_control f w) = splitEventChain (st w).
Proof. done. Qed.

Lemma splitEventChain_listener_count args w :
  splitEventChain (st (snd (listener_count args w))) = splitEventChain (st w).
Proof. done. Qed.

Lemma listener_fuel_S options n args w :
  listener_fuel options (S n) args w =
  if cancelled (st w) then Some w else
  let '(previousArguments, w) := listener_count args w in
  match controlFunc options with
  | Some f =>
      let '(previousSplitEventChain, w) := listener_control f w in
      if splitEventChain (st w) && negb previousSplitEventChain then
        let w := listener_split previousArguments w in
        if negb (includeLastEventOnSplitting (st w))
        then listener_fuel options n args w
        else Some w
      else Some (listener_timing options w)
  | None => Some (listener_timing options w)
  end.
Proof. done. Qed.

(** With the split flag left set, the listener does not call itself. *)
Lemma listener_fuel_flagged options n args w :
  splitEventChain (st w) = true ->
  listener_fuel options (S n) args w = listener_fuel options 1 args w /\
  is_Some (listener_fuel options 1 args w).
Proof.
  intros Hs. rewrite !listener_fuel_S.
  destruct (cancelled (st w)); [by eauto|].
  pose proof (splitEventChain_listener_count args w) as Hc.
  destruct (listener_count args w) as [pa w1]. cbn [snd] in Hc.
  destruct (controlFunc options) as [f|]; [| by eauto].
  pose proof (listener_control_previous f w1) as Hp.
  destruct (listener_control f w1) as [prev w2]. cbn [fst] in Hp.
  rewrite Hp, Hc, Hs, andb_false_r. by eauto.
Qed.

(** The listener returns, and two levels of calls are all it ever uses. *)
Lemma listener_fuel_enough options n args w :
  listener_fuel options (S (S n)) args w = Some (listener options args w).
Proof.
  unfold listener.
  assert (listener_fuel options (S (S n)) args w = listener_fuel options 2 args w
          /\ is_Some (listener_fuel options 2 args w)) as [-> [w' ->]]; [| done].
  rewrite !(listener_fuel_S options (S _)).
  destruct (cancelled (st w)); [by eauto|].
  destruct (listener_count args w) as [pa w1].
  destruct (controlFunc options) as [f|]; [| by eauto].
  destruct (listener_control f w1) as [prev w2].
  destruct (splitEventChain (st w2) && negb prev) eqn:Hb; [| by eauto].
  apply andb_prop in Hb as [Hs _]. cbv zeta.
  destruct (negb (includeLastEventOnSplitting (st (listener_split pa w2))));
    [| by eauto].
  assert (splitEventChain (st (listener_split pa w2)) = true) as Hs1
    by by rewrite splitEventChain_listener_split.
  destruct (listener_fuel_flagged options n args _ Hs1) as [E1 E2].
  by rewrite E1.
Qed.

Lemma extends_listener_count args w :
  extends w (snd (listener_count args w)).
Proof.
  unfold listener_count. cbn [snd].
  eapply extends_trans; [| apply extends_upd_cur].
  eapply extends_trans; [| apply extends_upd_cur].
  by apply extends_core.
Qed.

Lemma extends_listener_control f w :
  extends w (snd (listener_control f w)).
Proof.
  apply extends_core. unfold listener_control. cbn [snd].
  by rewrite core_run_hook.
Qed.

Lemma extends_listener_split pa w : extends w (listener_split pa w).
Proof.
  unfold listener_split.
  eapply extends_trans; [| apply extends_call_bounce].
  destruct (negb _); [| apply extends_refl].
  eapply extends_trans; [| apply extends_upd_cur]. apply extends_upd_cur.
Qed.

Lemma extends_listener_fuel options n args w w' :
  listener_fuel options n args w = Some w' -> extends w w'.
Proof.
  revert w w'. induction n as [| n IH]; intros w w'; [done|].
  rewrite listener_fuel_S.
  destruct (cancelled (st w)).
  { intros [= <-]. apply extends_refl. }
  pose proof (extends_listener_count args w) as H1.
  destruct (listener_count args w) as [pa w1]. cbn [snd] in H1.
  destruct (controlFunc options) as [f|].
  2:{ intros [= <-]. eapply extends_trans; [exact H1|].
      apply extends_listener_timing. }
  pose proof (extends_listener_control f w1) as H2.
  destruct (listener_control f w1) as [prev w2]. cbn [snd] in H2.
  destruct (splitEventChain (st w2) && negb prev).
  2:{ intros [= <-]. eapply extends_trans; [exact H1|].
      eapply extends_trans; [exact H2|]. apply extends_listener_timing. }
  pose proof (extends_listener_split pa w2) as H3. cbv zeta.
  destruct (negb _).
  - intros H4%IH. eauto using extends_trans.
  - intros [= <-]. eauto using extends_trans.
Qed.

Lemma extends_listener options args w : extends w (listener options args w).
Proof.
  eapply extends_listener_fuel. apply (listener_fuel_enough options 0).
Qed.

Lemma extends_fire options h w : extends w (fire options h w).
Proof.
  unfold fire. destruct (list_find _ _) as [[i t]|]; [| apply extends_refl].
  destruct (timerFunc t).
  - eapply extends_trans; [| apply extends_feedThrottleTimeoutFunc].
    by apply extends_core.
  - eapply extends_trans; [| apply extends_maxDelayTimeoutFunc].
    by apply extends_core.
Qed.

Lemma extends_step options w o : extends w (step options w o).
Proof.
  destruct o; cbn [step].
  - apply extends_listener.
  - apply extends_fire.
  - by apply extends_core.
  - apply extends_globalBounce.
  - apply extends_cancel.
  - apply extends_resume.
  - apply extends_core, core_split.
  - apply extends_contextBounce.
Qed.

Lemma extends_run options os w : extends w (run options os w).
Proof.
  revert w. induction os as [| o os IH]; intros w; [apply extends_refl|].
  cbn. eapply extends_trans; [apply extends_step | apply IH].
Qed.

(** ** Between two calls the instance is [ready] *)

Lemma ready_same w w' : ready_core w' = ready_core w -> ready w -> ready w'.
Proof.
  unfold ready_core, ready, wf. intros [= Hd Hb Hc Hn Hh Hg].
  by rewrite Hd, Hb, Hc, Hn, Hh, Hg.
Qed.

Lemma ready_reset w : ready (reset w).
Proof.
  open_world w. unfold reset, ready, wf; cbn.
  destruct throttleHandle0, maxDelayHandle0; cbn;
    rewrite lookup_insert_eq; (repeat split; eauto); lia.
Qed.

Lemma ready_upd_cur (f : ChainContext -> ChainContext) w :
  gotAnyEvent (st w) = true -> ready w -> ready (upd_cur f w).
Proof.
  intros Hg (Hd & Hb & Hwf & _). split; [done|]. split; [done|].
  split; [by apply wf_upd_cur|]. cbn. by rewrite Hg.
Qed.

Lemma ready_triggerBounce trig w :
  ready w -> ready (snd (triggerBounce trig w)).
Proof.
  unfold triggerBounce. destruct (negb _ && negb _); [| done].
  intros _. apply ready_reset.
Qed.

Lemma ready_contextBounce g trig w :
  ready w -> ready (snd (contextBounce g trig w)).
Proof.
  unfold contextBounce. case_bool_decide; [| done]. apply ready_triggerBounce.
Qed.

Lemma ready_core_split g inc w :
  ready_core (snd (split g inc w)) = ready_core w.
Proof.
  unfold split. destruct (bool_decide _ && _); [| done]. by destruct inc.
Qed.

Lemma ready_core_run_hook p w : ready_core (run_hook p w) = ready_core w.
Proof.
  revert w. induction p as [h | g inc k IH]; intros w; cbn; [done|].
  pose proof (ready_core_split g inc w) as Hs.
  destruct (split g inc w) as [r w']. cbn in Hs. by rewrite IH.
Qed.

Lemma ready_feedThrottle options w :
  ready w -> ready (feedThrottle options w).
Proof.
  unfold feedThrottle. destruct (throttleHandle (st w)).
  - destruct (0 <? _); [by apply ready_same | apply ready_contextBounce].
  - by apply ready_same.
Qed.

Lemma ready_listener_timing options w :
  ready w -> ready (listener_timing options w).
Proof.
  intros H%(ready_feedThrottle options). unfold listener_timing.
  destruct (bool_decide _ && _); [| done]. revert H. by apply ready_same.
Qed.

Lemma ready_feedThrottleTimeoutFunc options w :
  ready w -> ready (feedThrottleTimeoutFunc options w).
Proof.
  intros H. unfold feedThrottleTimeoutFunc.
  assert (ready (set_throttleHandle None w)) as H0
    by (revert H; by apply ready_same).
  destruct (throttleTime _).
  - destruct (0 <? _).
    + revert H. by apply ready_same.
    + by apply ready_contextBounce.
  - by apply ready_contextBounce.
Qed.

Lemma ready_maxDelayTimeoutFunc w : ready w -> ready (maxDelayTimeoutFunc w).
Proof.
  intros H. apply ready_contextBounce. revert H. by apply ready_same.
Qed.

Lemma ready_listener_count args w :
  ready w ->
  ready (snd (listener_count args w)) /\
  gotAnyEvent (st (snd (listener_count args w))) = true.
Proof.
  intros H. split; [| done]. unfold listener_count. cbn [snd].
  apply ready_upd_cur; [done|]. apply ready_upd_cur; [done|].
  destruct H as (Hd & Hb & Hwf & _).
  split; [done|]. split; [done|]. split; [done|]. cbn. intros [=].
Qed.

Lemma ready_listener_split pa w :
  gotAnyEvent (st w) = true -> ready w -> ready (listener_split pa w).
Proof.
  intros Hg H. unfold listener_split. apply ready_contextBounce.
  destruct (negb _); [| done].
  apply ready_upd_cur; [done|]. by apply ready_upd_cur.
Qed.

Lemma ready_listener_fuel options n args w w' :
  listener_fuel options n args w = Some w' -> ready w -> ready w'.
Proof.
  revert w w'. induction n as [| n IH]; intros w w'; [done|].
  rewrite listener_fuel_S.
  destruct (cancelled (st w)); [by intros [= <-]|].
  intros Hrun Hr.
  destruct (ready_listener_count args w Hr) as [H1 G1].
  destruct (listener_count args w) as [pa w1]. cbn [snd] in H1, G1.
  destruct (controlFunc options) as [f|].
  2:{ injection Hrun as <-. by apply ready_listener_timing. }
  assert (ready_core (snd (listener_control f w1)) = ready_core w1) as Hc.
  { unfold listener_control. cbn [snd]. by rewrite ready_core_run_hook. }
  destruct (listener_control f w1) as [prev w2]. cbn [snd] in Hc.
  assert (ready w2) as H2 by by eapply ready_same.
  assert (gotAnyEvent (st w2) = true) as G2.
  { unfold ready_core in Hc. injection Hc as _ _ _ _ _ ->. done. }
  destruct (splitEventChain (st w2) && negb prev).
  2:{ injection Hrun as <-. by apply ready_listener_timing. }
  cbv zeta in Hrun.
  pose proof (ready_listener_split pa w2 G2 H2) as H3.
  destruct (negb _).
  - eapply IH; eauto.
  - by injection Hrun as <-.
Qed.

Lemma ready_listener options args w :
  ready w -> ready (listener options args w).
Proof.
  eapply ready_listener_fuel. apply (listener_fuel_enough options 0).
Qed.

Lemma ready_fire options h w : ready w -> ready (fire options h w).
Proof.
  intros H. unfold fire. destruct (list_find _ _) as [[i t]|]; [| done].
  assert (ready (clearTimeoutFunc h w)) as H0
    by (revert H; by apply ready_same).
  destruct (timerFunc t).
  - by apply ready_feedThrottleTimeoutFunc.
  - by apply ready_maxDelayTimeoutFunc.
Qed.

Lemma ready_step options w o : ready w -> ready (step options w o).
Proof.
  intros H. destruct o; cbn [step].
  - by apply ready_listener.
  - by apply ready_fire.
  - revert H. by apply ready_same.
  - unfold globalBounce. destruct (_ || _); [| done].
    by apply ready_triggerBounce.
  - unfold cancel. destruct (negb _); [| done]. apply ready_reset.
  - unfold resume. destruct (cancelled _); [| done].
    revert H. by apply ready_same.
  - revert H. apply ready_same, ready_core_split.
  - by apply ready_contextBounce.
Qed.

Lemma ready_run options os w : ready w -> ready (run options os w).
Proof.
  revert w. induction os as [| o os IH]; intros w H; [done|].
  cbn. by apply IH, ready_step.
Qed.

Lemma ready_throttledDebounce (h0 : HS) t0 :
  ready (throttledDebounce (Val:=Val) h0 t0).
Proof. apply ready_reset. Qed.

Lemma frozen_throttledDebounce (h0 : HS) t0 :
  committed_frozen (throttledDebounce (Val:=Val) h0 t0).
Proof.
  split; [apply ready_throttledDebounce|]. split; constructor.
Qed.

Lemma extends_frozen w w' :
  extends w w' -> committed_frozen w -> committed_frozen w'.
Proof.
  intros He (Hwf & Hall & Hnd).
  destruct (He Hwf) as (Hwf' & Hle & Hold & new & Hc & Hnew & Hndn).
  split; [done|]. rewrite Hc. split.
  - apply Forall_app. split.
    + eapply Forall_impl; [exact Hall|]. cbn. intros c [Hlt Hh]. split; [lia|].
      by rewrite Hold.
    + eapply Forall_impl; [exact Hnew|]. cbn. intros c [Hlt Hh]. split; [lia|done].
  - rewrite fmap_app. apply NoDup_app. split; [done|]. split; [|done].
    intros g Hg1 Hg2.
    apply list_elem_of_fmap in Hg1 as (c1 & -> & Hin1).
    apply list_elem_of_fmap in Hg2 as (c2 & Heq & Hin2).
    rewrite Forall_forall in Hall, Hnew.
    destruct (Hall _ Hin1) as [? _]. destruct (Hnew _ Hin2) as [? _]. lia.
Qed.

Lemma frozen_run options (h0 : HS) t0 os :
  committed_frozen (run options os (throttledDebounce h0 t0)).
Proof.
  eapply extends_frozen; [apply extends_run | apply frozen_throttledDebounce].
Qed.

(** A call through a reference to the [split] or [contextBounce] closure of
    a context that is not the current one does nothing. *)
Lemma split_stale g inc w :
  g <> context (st w) -> split g inc w = (JUndefined, w).
Proof.
  intros Hne. unfold split. by rewrite bool_decide_eq_false_2.
Qed.

Lemma contextBounce_stale g trig w :
  g <> context (st w) -> contextBounce g trig w = (JUndefined, w).
Proof.
  intros Hne. unfold contextBounce. by rewrite bool_decide_eq_false_2.
Qed.

(** With a callback that observes and a control function that calls [split]
    only: the callback is never invoked twice for the same context, and a
    context it has been invoked for keeps what the callback saw, is
    superseded, and its closures do nothing. *)
Lemma frozen_after_commit options (h0 : HS) (t0 : Z) (os more : list op) :
  let w := run options os (throttledDebounce h0 t0) in
  let w' := run options more w in
  NoDup (callCtx <$> calls w') /\
  forall e : Call, e ∈ calls w ->
    e ∈ calls w' /\
    heap w' !! callCtx e = Some (callArg e) /\
    callCtx e <> context (st w') /\
    (forall inc, split (callCtx e) inc w' = (JUndefined, w')) /\
    (forall trig, contextBounce (callCtx e) trig w' = (JUndefined, w')).
Proof.
  intros w w'.
  pose proof (frozen_run options h0 t0 os) as Hw. fold w in Hw.
  pose proof (extends_run options more w) as He. fold w' in He.
  pose proof (extends_frozen _ _ He Hw) as (Hwf' & Hall' & Hnd').
  split; [done|]. intros e Hc.
  destruct Hw as (Hwf & _).
  destruct (He Hwf) as (_ & _ & _ & new & Hcalls & _).
  assert (e ∈ calls w') as Hc' by (rewrite Hcalls; set_solver).
  rewrite Forall_forall in Hall'. destruct (Hall' _ Hc') as [Hlt Hh].
  assert (callCtx e <> context (st w')) as Hne by lia.
  repeat split; auto using split_stale, contextBounce_stale.
Qed.

(** ** A callback that calls the returned functions *)

(** While the callback runs [didBounce] is set, so a bounce it asks for is
    refused, whatever it did before. *)
Lemma triggerBounce_while_committing trig w :
  didBounce (st w) = true -> triggerBounce trig w = (JUndefined, w).
Proof. intros Hd. unfold triggerBounce. by rewrite Hd. Qed.

(** The listener has no such guard: it does not read [didBounce]. *)
Lemma listener_fuel_ignores_didBounce options n args w :
  cancelled (st w) = false ->
  controlFunc options = None ->
  listener_fuel options (S n) args w
  = Some (listener_timing options (snd (listener_count args w))).
Proof.
  intros Hcan Hf. rewrite listener_fuel_S, Hcan, Hf.
  by destruct (listener_count args w).
Qed.

(** C1.  With [throttleWait = 100] and a callback that calls the listener:
    one event at 0 ms and, at 50 ms, [listener.bounce()].  The callback is
    invoked for the context object 0 holding [callCount = 1] and the
    arguments of the event; the listener call it makes finds that object
    still current (the callback runs before [reset]), counts into it and
    stores its own arguments in it, so the object the callback was handed
    holds [callCount = 2] and other arguments when [bounce] returns, and the
    event of that call is in no chain: the current context is a fresh one.
    A callback that calls [listener.bounce(true)] instead is refused by the
    [didBounce] test of [triggerBounce]: one invocation, and the object
    keeps what the callback saw. *)
Theorem callback_calling_listener_mutates_committed
    (h0 : HS) (a1 a99 : list Val) :
  let options := plain_options None 100 in
  let os := [OListener a1; OClock 50; OBounce false] in
  let seen := {| callCount := 1; arguments := Some a1;
                 trigger := Some global; splitProp := false |} in
  (exists w',
     run_calling options (callback_calls_listener options a99) None 2 os
       (throttledDebounce h0 0) = Some w' /\
     calls w' = [mkCall 50 0%nat seen] /\
     heap w' !! 0%nat = Some {| callCount := 2; arguments := Some a99;
                                trigger := Some global; splitProp := false |} /\
     context (st w') = 1%nat /\
     heap w' !! 1%nat = Some freshContext /\
     gotAnyEvent (st w') = false) /\
  (exists w'',
     run_calling options callback_calls_bounce None 2 os
       (throttledDebounce h0 0) = Some w'' /\
     calls w'' = [mkCall 50 0%nat seen] /\
     heap w'' !! 0%nat = Some seen).
Proof.
  cbv zeta. split.
  - eexists. split; [vm_compute; reflexivity|].
    split; [reflexivity|]. split; [vm_compute; reflexivity|].
    split; [reflexivity|]. split; [vm_compute; reflexivity|]. reflexivity.
  - eexists. split; [vm_compute; reflexivity|].
    split; [reflexivity|]. vm_compute; reflexivity.
Qed.

(** ** The timed scenarios *)

(** C2, as the code has it.  With [throttleWait = 100] and events at 0, 30,
    60 and 90 ms followed by quiet, the timer armed at 0 fires at 100, finds
    the deadline moved to 190 by the later events and re-arms for the 90 ms
    left; the only commit of the run occurs at 190 ms, with trigger
    [throttle], [callCount = 4] and the arguments of the event of 90 ms. *)
Theorem four_events_commit_at_190 (h0 : HS) (a0 a30 a60 a90 : list Val) :
  exists w,
    play (plain_options None 100) 50
      (four_events a0 a30 a60 a90 ++ [quiet_until 1000])
      (throttledDebounce h0 0) = Some w /\
    calls w =
      [mkCall 190 0%nat
         {| callCount := 4; arguments := Some a90;
            trigger := Some throttle; splitProp := false |}] /\
    armings w =
      [mkArming 0 feedThrottleTimeout 0 100;
       mkArming 1 feedThrottleTimeout 100 90].
Proof. eexists. split; [vm_compute; reflexivity|]. split; reflexivity. Qed.

(** C9.  With [maxDelay = 3000] and [throttleWait = 100], two events at the
    same time 0: the second one finds no time passed, so [feedThrottle]
    bounces the chain; the listener then goes on and arms the max-delay
    timer while the current chain is the fresh one, in which no event has
    landed.  At 3000 ms that timer fires and the callback is invoked with
    [callCount = 0], no arguments and trigger [debounce].  The script
    calls the listener twice and nothing else. *)
Theorem empty_chain_bounced_by_maxDelay (h0 : HS) (a b : list Val) :
  exists w w',
    play (plain_options (Some 3000) 100) 50
      [(0, OListener a); (0, OListener b)] (throttledDebounce h0 0)
      = Some w /\
    calls w = [mkCall 0 0%nat (committed throttle (mkContext 2 (Some b) None true))] /\
    context (st w) = 1%nat /\
    gotAnyEvent (st w) = false /\
    heap w !! 1%nat = Some freshContext /\
    maxDelayHandle (st w) = Some 2%nat /\
    timers w = [mkTimer 2 maxDelayTimeout 3000] /\
    play (plain_options (Some 3000) 100) 50 [quiet_until 3000] w = Some w' /\
    calls w' =
      calls w ++
      [mkCall 3000 1%nat
         {| callCount := 0; arguments := None;
            trigger := Some debounce; splitProp := false |}].
Proof.
  do 2 eexists. split; [vm_compute; reflexivity|].
  do 6 (split; [reflexivity|]).
  split; [vm_compute; reflexivity|]. reflexivity.
Qed.

(** ** What a bounce does *)

Lemma alter_present (f : ChainContext -> ChainContext)
    (m : gmap nat ChainContext) i c :
  m !! i = Some c -> alter f i m = <[i := f c]> m.
Proof.
  intros Hc. apply map_eq. intros j. destruct (decide (i = j)) as [<-|Hne].
  - by rewrite lookup_alter_eq, lookup_insert_eq, Hc.
  - by rewrite lookup_alter_ne, lookup_insert_ne.
Qed.

Lemma upd_cur_present (f : ChainContext -> ChainContext) w c :
  heap w !! context (st w) = Some c ->
  upd_cur f w = set_heap (<[context (st w) := f c]> (heap w)) w.
Proof. intros Hc. unfold upd_cur. by rewrite (alter_present _ _ _ _ Hc). Qed.

Lemma reset_eq w :
  reset w =
  {| st := {| maxDelayHandle := None; throttleHandle := None;
              didBounce := false; throttleTime := None;
              cancelled := cancelled (st w); context := nextCtx w;
              gotAnyEvent := false; bounce := nextCtx w;
              splitEventChain := splitEventChain (st w);
              includeLastEventOnSplitting :=
                includeLastEventOnSplitting (st w) |};
     heap := <[nextCtx w := freshContext]> (heap w);
     nextCtx := S (nextCtx w);
     now := now w;
     timers := clear_handle (maxDelayHandle (st w))
                 (clear_handle (throttleHandle (st w)) (timers w));
     nextHandle := nextHandle w;
     armings := armings w;
     calls := calls w;
     hookState := hookState w |}.
Proof.
  open_world w. unfold reset. cbn.
  by destruct throttleHandle0, maxDelayHandle0.
Qed.

Lemma triggerBounce_commits trig w c :
  didBounce (st w) = false ->
  cancelled (st w) = false ->
  heap w !! context (st w) = Some c ->
  triggerBounce trig w = (JTrue, bounced trig c w).
Proof.
  intros Hd Hcan Hc. unfold triggerBounce. rewrite Hd, Hcan. cbn [negb andb].
  f_equal. rewrite reset_eq. unfold bounced.
  rewrite (upd_cur_present (with_trigger trig) _ c) by done.
  set (w1 := set_heap _ _).
  assert (heap w1 !! context (st w1) = Some (with_trigger trig c)) as H1
    by apply lookup_insert_eq.
  rewrite (cur_lookup _ _ H1). cbn [arguments with_trigger].
  destruct c as [n a tr sp]. cbn [arguments] in *.
  destruct a as [a|].
  - rewrite (upd_cur_present (with_arguments _) w1 _ H1).
    set (w2 := set_heap _ w1).
    assert (heap w2 !! context (st w2) =
            Some (with_arguments (Some a) (with_trigger trig (mkContext n (Some a) tr sp))))
      as H2 by apply lookup_insert_eq.
    rewrite (upd_cur_present without_split w2 _ H2).
    set (w3 := set_heap _ w2).
    assert (heap w3 !! context (st w3) = Some (committed trig (mkContext n (Some a) tr sp)))
      as H3 by apply lookup_insert_eq.
    rewrite (cur_lookup _ _ H3).
    subst w3 w2 w1. open_world w. subst. cbn.
    by rewrite !insert_insert_eq.
  - rewrite (upd_cur_present without_split w1 _ H1).
    set (w3 := set_heap _ w1).
    assert (heap w3 !! context (st w3) = Some (committed trig (mkContext n None tr sp)))
      as H3 by apply lookup_insert_eq.
    rewrite (cur_lookup _ _ H3).
    subst w3 w1. open_world w. subst. cbn.
    by rewrite !insert_insert_eq.
Qed.

Lemma triggerBounce_ready trig w :
  ready w -> cancelled (st w) = false ->
  triggerBounce trig w = (JTrue, bounced trig (cur w) w).
Proof.
  intros (Hd & _ & [_ [c Hc]] & _) Hcan.
  rewrite (cur_lookup _ _ Hc). by apply triggerBounce_commits.
Qed.

Lemma call_bounce_ready trig w :
  ready w -> cancelled (st w) = false ->
  call_bounce trig w = (JTrue, bounced trig (cur w) w).
Proof.
  intros Hr Hcan. unfold call_bounce, contextBounce.
  destruct Hr as (Hd & Hb & Hrest).
  rewrite bool_decide_eq_true_2 by done.
  apply triggerBounce_ready; [|done]. split; [done|]. by split.
Qed.

(** ** The throttle scheduler on a later event *)

(** C3, as the code has it.  While a throttle timer is outstanding, with
    [elapsed = throttleWait - (throttleTime - now)] for a deadline other
    than zero: if [elapsed > 0] the deadline moves forward by [elapsed] and
    nothing else changes, so nothing is committed. *)
Theorem feedThrottle_extends_deadline options w h t :
  throttleHandle (st w) = Some h ->
  throttleTime (st w) = Some t ->
  t <> 0 ->
  let elapsed := throttleWait options - (t - now w) in
  0 < elapsed ->
  feedThrottle options w = set_throttleTime (Some (t + elapsed)) w /\
  calls (feedThrottle options w) = calls w.
Proof.
  intros Hh Ht Hne elapsed Hpos.
  assert (passedTime options w = elapsed) as Hp.
  { unfold passedTime. rewrite Ht.
    destruct (Z.eqb_spec t 0) as [?|_]; [done|]. done. }
  assert (feedThrottle options w = set_throttleTime (Some (t + elapsed)) w)
    as Hf.
  { unfold feedThrottle. rewrite Hh, Hp, Ht.
    cbn [fmap option_fmap option_map].
    by rewrite (proj2 (Z.ltb_lt 0 elapsed) Hpos). }
  split; [done|]. by rewrite Hf.
Qed.

(** ** Calls that are refused *)

Lemma rejected_intro (r : jsret * World) w :
  r = (JUndefined, w) -> rejected r w.
Proof. by intros ->. Qed.

(** C5.  Each of these calls returns nothing (a falsy value) and leaves the
    whole world as it was: [cancel] on a cancelled instance; [resume] on an
    instance that is not cancelled; [bounce] without force when no event has
    landed in the current chain; [split] through a context that is not the
    current one; and any [split] call that follows an accepted one.  In a
    run of the control function, which starts with the split flag cleared,
    the first [split] call on the current context is accepted and any call
    after it is of that last kind. *)
Theorem invalid_calls_rejected w :
  (cancelled (st w) = true -> rejected (cancel w) w) /\
  (cancelled (st w) = false -> rejected (resume w) w) /\
  (gotAnyEvent (st w) = false -> rejected (globalBounce false w) w) /\
  (forall g inc, g <> context (st w) -> rejected (split g inc w) w) /\
  (forall g inc w1, split g inc w = (JTrue, w1) ->
     forall g' inc', rejected (split g' inc' w1) w1) /\
  (forall inc g' inc',
     let w0 := set_includeLastEventOnSplitting false
                 (set_splitEventChain false w) in
     exists w1, split (context (st w)) inc w0 = (JTrue, w1) /\
                rejected (split g' inc' w1) w1).
Proof.
  assert (forall g inc w0 w1, split g inc w0 = (JTrue, w1) ->
            forall g' inc', rejected (split g' inc' w1) w1) as Hsecond.
  { intros g inc w0 w1. unfold split.
    destruct (bool_decide _ && _) eqn:Hb; [| done]. intros [= <-] g' inc'.
    apply rejected_intro.
    assert (splitEventChain (st (if inc
              then set_includeLastEventOnSplitting true (set_splitEventChain true w0)
              else set_splitEventChain true w0)) = true) as -> by by destruct inc.
    by rewrite andb_false_r. }
  split; [| split; [| split; [| split; [| split]]]].
  - intros H. apply rejected_intro. unfold cancel. by rewrite H.
  - intros H. apply rejected_intro. unfold resume. by rewrite H.
  - intros H. apply rejected_intro. unfold globalBounce. by rewrite H.
  - intros g inc H. apply rejected_intro. by apply split_stale.
  - intros g inc w1. apply Hsecond.
  - intros inc g' inc' w0.
    assert (exists w1, split (context (st w)) inc w0 = (JTrue, w1)) as [w1 H1].
    { unfold split. subst w0. cbn. rewrite bool_decide_eq_true_2 by done.
      by eexists. }
    exists w1. split; [done|]. by eapply Hsecond.
Qed.

(** ** Manual bounce *)

(** C6.  On an instance reached by any sequence of operations, if it is not
    cancelled and no event has landed in the current chain, [bounce(true)]
    returns [true] and commits the chain: the callback is invoked for the
    current context with trigger [global], [callCount = 0] and no
    arguments; [bounce()] without force returns nothing and changes
    nothing. *)
Theorem forced_bounce_of_empty_chain options (h0 : HS) t0 os :
  let w := run options os (throttledDebounce h0 t0) in
  cancelled (st w) = false ->
  gotAnyEvent (st w) = false ->
  (exists w',
     globalBounce true w = (JTrue, w') /\
     calls w' =
       calls w ++
       [mkCall (now w) (context (st w))
          {| callCount := 0; arguments := None;
             trigger := Some global; splitProp := false |}]) /\
  rejected (globalBounce false w) w.
Proof.
  intros w Hcan Hg.
  assert (ready w) as Hr by apply ready_run, ready_throttledDebounce.
  clearbody w.
  split.
  - exists (bounced global (cur w) w). unfold globalBounce. cbn [orb].
    split; [by apply triggerBounce_ready|].
    destruct Hr as (_ & _ & _ & Hfresh).
    by rewrite (cur_lookup _ _ (Hfresh Hg)).
  - unfold globalBounce. by rewrite Hg.
Qed.

(** ** The listener, step by step *)

Lemma run_hook_flagged p w :
  splitEventChain (st w) = true ->
  run_hook p w = set_hookState (hook_rejected p) w.
Proof.
  intros Hs. induction p as [h | g inc k IH]; cbn; [done|].
  unfold split. rewrite Hs, andb_false_r. apply IH.
Qed.

(** The first [split] call on the current context, with the flag cleared. *)
Lemma run_hook_accepted inc k w :
  splitEventChain (st w) = false ->
  run_hook (HSplit (context (st w)) inc k) w =
  set_hookState (hook_rejected (k JTrue))
    (if inc
     then set_includeLastEventOnSplitting true (set_splitEventChain true w)
     else set_splitEventChain true w).
Proof.
  intros Hs. cbn [run_hook]. unfold split.
  rewrite Hs, bool_decide_eq_true_2 by done. cbn [negb andb].
  apply run_hook_flagged. by destruct inc.
Qed.

(** The control function changes the two flags and its own state only. *)
Lemma run_hook_shape p w :
  exists b1 b2 hs,
    run_hook p w =
    set_hookState hs
      (set_includeLastEventOnSplitting b2 (set_splitEventChain b1 w)).
Proof.
  revert w. induction p as [h | g inc k IH]; intros w; cbn.
  - exists (splitEventChain (st w)), (includeLastEventOnSplitting (st w)), h.
    by open_world w.
  - unfold split. destruct (bool_decide _ && _).
    + destruct (IH JTrue (if inc
        then set_includeLastEventOnSplitting true (set_splitEventChain true w)
        else set_splitEventChain true w)) as (b1 & b2 & hs & ->).
      exists b1, b2, hs. open_world w. by destruct inc.
    + apply IH.
Qed.

Lemma listener_count_eq args w c :
  heap w !! context (st w) = Some c ->
  listener_count args w =
  (arguments c,
   set_heap (<[context (st w) := counted args c]> (heap w))
     (set_gotAnyEvent true w)).
Proof.
  intros Hc. unfold listener_count.
  rewrite (upd_cur_present _ (set_gotAnyEvent true w) c) by done.
  set (w1 := set_heap _ _).
  assert (heap w1 !! context (st w1)
          = Some (with_callCount (callCount c + 1) c)) as H1
    by apply lookup_insert_eq.
  rewrite (cur_lookup _ _ H1), (upd_cur_present _ w1 _ H1).
  subst w1. cbn. by rewrite insert_insert_eq.
Qed.

Lemma core_listener_control f w : core (snd (listener_control f w)) = core w.
Proof. unfold listener_control. cbn [snd]. by rewrite core_run_hook. Qed.

(** The first event of a chain arms the timers and commits nothing. *)
Lemma core_listener_timing_first options w :
  throttleHandle (st w) = None ->
  core (listener_timing options w) = core w.
Proof.
  intros Hh. unfold listener_timing, feedThrottle. rewrite Hh.
  by destruct (bool_decide _ && _).
Qed.

Lemma gotAnyEvent_listener_timing_first options w :
  throttleHandle (st w) = None ->
  gotAnyEvent (st (listener_timing options w)) = gotAnyEvent (st w).
Proof.
  intros Hh. unfold listener_timing, feedThrottle. rewrite Hh.
  by destruct (bool_decide _ && _).
Qed.

Lemma flags_listener_timing_first options w :
  throttleHandle (st w) = None ->
  splitEventChain (st (listener_timing options w)) = splitEventChain (st w) /\
  hookState (listener_timing options w) = hookState w.
Proof.
  intros Hh. unfold listener_timing, feedThrottle. rewrite Hh.
  by destruct (bool_decide _ && _).
Qed.

(** The event is taken back and the chain with content [c] bounces. *)
Lemma listener_split_excluded args w c :
  didBounce (st w) = false ->
  cancelled (st w) = false ->
  bounce (st w) = context (st w) ->
  includeLastEventOnSplitting (st w) = false ->
  heap w !! context (st w) = Some (counted args c) ->
  listener_split (arguments c) w = bounced control c w.
Proof.
  intros Hd Hcan Hb Hincl Hc. unfold listener_split. rewrite Hincl.
  cbn [negb].
  rewrite (upd_cur_present _ w _ Hc).
  set (w1 := set_heap _ w).
  assert (heap w1 !! context (st w1)
          = Some (with_arguments (arguments c) (counted args c))) as H1
    by apply lookup_insert_eq.
  rewrite (upd_cur_present _ w1 _ H1).
  set (w2 := set_heap _ w1).
  assert (heap w2 !! context (st w2) = Some c) as H2.
  { subst w2 w1. cbn. rewrite lookup_insert_eq. f_equal.
    destruct c as [n a tr sp].
    unfold with_callCount, with_arguments, counted.
    cbn [callCount arguments trigger splitProp]. f_equal. lia. }
  unfold call_bounce, contextBounce.
  rewrite bool_decide_eq_true_2 by done.
  rewrite (triggerBounce_commits control w2 c) by done.
  cbn [snd]. subst w2 w1. unfold bounced. cbn. by rewrite !insert_insert_eq.
Qed.

(** The event stays in the chain, which bounces. *)
Lemma listener_split_included pa w c :
  didBounce (st w) = false ->
  cancelled (st w) = false ->
  bounce (st w) = context (st w) ->
  includeLastEventOnSplitting (st w) = true ->
  heap w !! context (st w) = Some c ->
  listener_split pa w = bounced control c w.
Proof.
  intros Hd Hcan Hb Hincl Hc. unfold listener_split. rewrite Hincl.
  cbn [negb]. unfold call_bounce, contextBounce.
  rewrite bool_decide_eq_true_2 by done.
  by rewrite (triggerBounce_commits control w c).
Qed.

(** An event reaching an instance whose split flag is set, or which has no
    control function, in a chain without a throttle timer: it is counted in
    the current context and nothing is committed. *)
Lemma listener_fuel_first_no_split options n args w c :
  cancelled (st w) = false ->
  throttleHandle (st w) = None ->
  heap w !! context (st w) = Some c ->
  splitEventChain (st w) = true \/ controlFunc options = None ->
  exists w',
    listener_fuel options (S n) args w = Some w' /\
    core w' = (context (st w), <[context (st w) := counted args c]> (heap w),
               nextCtx w, calls w).
Proof.
  intros Hcan Hh Hc Hor. rewrite listener_fuel_S, Hcan.
  rewrite (listener_count_eq args w c Hc).
  set (w1 := set_heap _ _).
  destruct (controlFunc options) as [f|] eqn:Hf.
  - destruct Hor as [Hs|]; [|done].
    unfold listener_control.
    destruct (run_hook_shape
      (f (hookState (set_includeLastEventOnSplitting false (set_splitEventChain false w1)))
         (context (st (set_includeLastEventOnSplitting false (set_splitEventChain false w1))))
         (cur (set_includeLastEventOnSplitting false (set_splitEventChain false w1))))
      (set_includeLastEventOnSplitting false (set_splitEventChain false w1)))
      as (b1 & b2 & hs & ->).
    replace (splitEventChain (st w1)) with true by (by rewrite <- Hs).
    rewrite andb_false_r. eexists. split; [done|].
    by rewrite core_listener_timing_first.
  - eexists. split; [done|]. by rewrite core_listener_timing_first.
Qed.

(** ** Pending timers are tracked by the handle variables *)

Lemma tracked_same w w' : timer_core w' = timer_core w -> tracked w -> tracked w'.
Proof.
  unfold timer_core, tracked. intros [= Ht Hth Hmd]. by rewrite Ht, Hth, Hmd.
Qed.

Lemma tracked_no_timers w : timers w = [] -> tracked w.
Proof. intros H t Ht. rewrite H in Ht. by apply not_elem_of_nil in Ht. Qed.

(** [reset] leaves no timer pending. *)
Lemma timers_reset w : tracked w -> timers (reset w) = [].
Proof.
  intros Htr. rewrite reset_eq. cbn [timers]. apply elem_of_nil_inv.
  intros t Ht.
  assert (t ∈ timers w /\
          throttleHandle (st w) <> Some (timerHandle t) /\
          maxDelayHandle (st w) <> Some (timerHandle t)) as (Hin & H1 & H2).
  { destruct (throttleHandle (st w)) as [h1|], (maxDelayHandle (st w)) as [h2|];
      cbn in Ht; repeat (apply list_elem_of_filter in Ht as [? Ht]);
      (split; [done|]); split; congruence. }
  destruct (Htr t Hin) as [[_ ?]|[_ ?]]; done.
Qed.

Lemma tracked_reset w : tracked w -> tracked (reset w).
Proof. intros H. by apply tracked_no_timers, timers_reset. Qed.

Lemma tracked_triggerBounce trig w :
  tracked w -> tracked (snd (triggerBounce trig w)).
Proof.
  intros H. unfold triggerBounce. destruct (negb _ && negb _); [| done].
  cbn [snd]. apply tracked_reset. revert H. apply tracked_same.
  cbn. by destruct (arguments _).
Qed.

Lemma tracked_contextBounce g trig w :
  tracked w -> tracked (snd (contextBounce g trig w)).
Proof.
  unfold contextBounce. case_bool_decide; [| done]. apply tracked_triggerBounce.
Qed.

Lemma timer_core_split g inc w :
  timer_core (snd (split g inc w)) = timer_core w.
Proof.
  unfold split. destruct (bool_decide _ && _); [| done]. by destruct inc.
Qed.

Lemma timer_core_run_hook p w : timer_core (run_hook p w) = timer_core w.
Proof.
  destruct (run_hook_shape p w) as (b1 & b2 & hs & ->). done.
Qed.

Lemma tracked_createThrottleTimeout options ot w :
  throttleHandle (st w) = None ->
  tracked w -> tracked (createThrottleTimeout options ot w).
Proof.
  intros Hh Htr t Ht. unfold createThrottleTimeout in *. cbn in *.
  apply elem_of_app in Ht as [Ht | Ht%list_elem_of_singleton].
  - destruct (Htr t Ht) as [[_ ?]|[? ?]]; [congruence|]. by right.
  - subst t. by left.
Qed.

Lemma tracked_setMaxDelay options w :
  maxDelayHandle (st w) = None ->
  tracked w -> tracked (setMaxDelay options w).
Proof.
  intros Hh Htr t Ht. unfold setMaxDelay in *. cbn in *.
  apply elem_of_app in Ht as [Ht | Ht%list_elem_of_singleton].
  - destruct (Htr t Ht) as [[? ?]|[_ ?]]; [|congruence]. by left.
  - subst t. by right.
Qed.

Lemma tracked_feedThrottle options w :
  tracked w -> tracked (feedThrottle options w).
Proof.
  intros H. unfold feedThrottle. destruct (throttleHandle (st w)) eqn:Hh.
  - destruct (0 <? _); [| by apply tracked_contextBounce].
    revert H. by apply tracked_same.
  - apply tracked_createThrottleTimeout; [done|].
    revert H. by apply tracked_same.
Qed.

Lemma tracked_listener_timing options w :
  tracked w -> tracked (listener_timing options w).
Proof.
  intros H%(tracked_feedThrottle options). unfold listener_timing.
  destruct (bool_decide (maxDelayHandle _ = None)) eqn:Hb; cbn [andb]; [| done].
  apply bool_decide_eq_true_1 in Hb.
  destruct (bool_decide _); [| done]. by apply tracked_setMaxDelay.
Qed.

Lemma tracked_listener_split pa w :
  tracked w -> tracked (listener_split pa w).
Proof.
  intros H. unfold listener_split. apply tracked_contextBounce.
  destruct (negb _); [| done]. revert H. by apply tracked_same.
Qed.

Lemma tracked_listener_fuel options n args w w' :
  listener_fuel options n args w = Some w' -> tracked w -> tracked w'.
Proof.
  revert w w'. induction n as [| n IH]; intros w w'; [done|].
  rewrite listener_fuel_S.
  destruct (cancelled (st w)); [by intros [= <-]|].
  intros Hrun Htr.
  assert (tracked (snd (listener_count args w))) as H1
    by (revert Htr; by apply tracked_same).
  destruct (listener_count args w) as [pa w1]. cbn [snd] in H1.
  destruct (controlFunc options) as [f|].
  2:{ injection Hrun as <-. by apply tracked_listener_timing. }
  assert (tracked (snd (listener_control f w1))) as H2.
  { revert H1. apply tracked_same. unfold listener_control. cbn [snd].
    by rewrite timer_core_run_hook. }
  destruct (listener_control f w1) as [prev w2]. cbn [snd] in H2.
  destruct (splitEventChain (st w2) && negb prev).
  2:{ injection Hrun as <-. by apply tracked_listener_timing. }
  cbv zeta in Hrun.
  pose proof (tracked_listener_split pa w2 H2) as H3.
  destruct (negb _).
  - eapply IH; eauto.
  - by injection Hrun as <-.
Qed.

Lemma tracked_listener options args w :
  tracked w -> tracked (listener options args w).
Proof.
  eapply tracked_listener_fuel. apply (listener_fuel_enough options 0).
Qed.

Lemma tracked_fire options h w : tracked w -> tracked (fire options h w).
Proof.
  intros Htr. unfold fire.
  destruct (list_find _ _) as [[i t]|] eqn:Hfind; [| done].
  apply list_find_Some in Hfind as (Hi & Hh & _).
  apply list_elem_of_lookup_2 in Hi.
  assert (forall t', t' ∈ timers (clearTimeoutFunc h w) ->
            t' ∈ timers w /\ timerHandle t' <> h) as Hrest.
  { intros t' Ht'. cbn in Ht'. by apply list_elem_of_filter in Ht' as [? ?]. }
  destruct (timerFunc t) eqn:Hf.
  - assert (throttleHandle (st w) = Some h) as Hth.
    { destruct (Htr t Hi) as [[_ ?]|[? _]]; congruence. }
    unfold feedThrottleTimeoutFunc.
    assert (tracked (set_throttleHandle None (clearTimeoutFunc h w))) as H0.
    { intros t' Ht'. destruct (Hrest t' Ht') as [Hin Hne].
      destruct (Htr t' Hin) as [[_ ?]|[? ?]]; [congruence|]. by right. }
    destruct (throttleTime _).
    + destruct (0 <? _); [| by apply tracked_contextBounce].
      by apply tracked_createThrottleTimeout.
    + by apply tracked_contextBounce.
  - assert (maxDelayHandle (st w) = Some h) as Hmd.
    { destruct (Htr t Hi) as [[? _]|[_ ?]]; congruence. }
    unfold maxDelayTimeoutFunc. apply tracked_contextBounce.
    intros t' Ht'. destruct (Hrest t' Ht') as [Hin Hne].
    destruct (Htr t' Hin) as [[? ?]|[_ ?]]; [|congruence]. by left.
Qed.

Lemma tracked_step options w o : tracked w -> tracked (step options w o).
Proof.
  intros H. destruct o; cbn [step].
  - by apply tracked_listener.
  - by apply tracked_fire.
  - revert H. by apply tracked_same.
  - unfold globalBounce. destruct (_ || _); [| done].
    by apply tracked_triggerBounce.
  - unfold cancel. destruct (negb _); [| done]. cbn [snd].
    apply tracked_reset. revert H. by apply tracked_same.
  - unfold resume. destruct (cancelled _); [| done].
    revert H. by apply tracked_same.
  - revert H. apply tracked_same, timer_core_split.
  - by apply tracked_contextBounce.
Qed.

Lemma tracked_run options os w : tracked w -> tracked (run options os w).
Proof.
  revert w. induction os as [| o os IH]; intros w H; [done|].
  cbn. by apply IH, tracked_step.
Qed.

Lemma tracked_throttledDebounce (h0 : HS) t0 :
  tracked (throttledDebounce (Val:=Val) h0 t0).
Proof. by apply tracked_no_timers. Qed.

(** ** Cancel and resume *)

Lemma cancel_eq w :
  cancelled (st w) = false ->
  cancel w =
  (JTrue,
   {| st := {| maxDelayHandle := None; throttleHandle := None;
               didBounce := false; throttleTime := None;
               cancelled := true; context := nextCtx w;
               gotAnyEvent := false; bounce := nextCtx w;
               splitEventChain := splitEventChain (st w);
               includeLastEventOnSplitting :=
                 includeLastEventOnSplitting (st w) |};
      heap := <[nextCtx w := freshContext]> (heap w);
      nextCtx := S (nextCtx w);
      now := now w;
      timers := clear_handle (maxDelayHandle (st w))
                  (clear_handle (throttleHandle (st w)) (timers w));
      nextHandle := nextHandle w;
      armings := armings w;
      calls := calls w;
      hookState := hookState w |}).
Proof. intros H. unfold cancel. by rewrite H, reset_eq. Qed.

(** The first event of a fresh chain is counted once, in the current
    context or, when the control function splits the chain, in the context
    that bounces or in the one that follows it. *)
Lemma listener_first_event options args w :
  ready w ->
  cancelled (st w) = false ->
  throttleHandle (st w) = None ->
  heap w !! context (st w) = Some freshContext ->
  (exists g c,
     (context (st w) <= g)%nat /\
     heap (listener options args w) !! g = Some c /\
     callCount c = 1 /\ arguments c = Some args) /\
  (controlFunc options = None ->
     calls (listener options args w) = calls w /\
     context (st (listener options args w)) = context (st w) /\
     heap (listener options args w) !! context (st w)
       = Some (counted args freshContext)).
Proof.
  intros Hr Hcan Hth Hfresh. split.
  2:{ intros Hnone.
      destruct (listener_fuel_first_no_split options 1 args w freshContext)
        as (w3 & Hrun & Hcore); [done..| by right |].
      unfold listener. rewrite Hrun. cbn [from_option id].
      unfold core in Hcore. injection Hcore as Hc3 Hh3 Hn3 Hk3.
      rewrite Hk3, Hc3, Hh3. split; [done|]. split; [done|].
      apply lookup_insert_eq. }
  destruct Hr as (Hd & Hb & [Hlt _] & _).
  unfold listener. rewrite listener_fuel_S, Hcan.
  rewrite (listener_count_eq args w freshContext Hfresh).
  set (w3 := set_heap _ _).
  assert (heap w3 !! context (st w) = Some (counted args freshContext)) as Hh3
    by apply lookup_insert_eq.
  assert (throttleHandle (st w3) = None) as Hth3 by done.
  destruct (controlFunc options) as [f|].
  2:{ cbn [from_option id]. exists (context (st w)), (counted args freshContext).
      split; [lia|]. split; [| done].
      pose proof (core_listener_timing_first options w3 Hth3) as Hcore.
      injection Hcore as _ -> _ _. done. }
  unfold listener_control.
  destruct (run_hook_shape
    (f (hookState (set_includeLastEventOnSplitting false (set_splitEventChain false w3)))
       (context (st (set_includeLastEventOnSplitting false (set_splitEventChain false w3))))
       (cur (set_includeLastEventOnSplitting false (set_splitEventChain false w3))))
    (set_includeLastEventOnSplitting false (set_splitEventChain false w3)))
    as (b1 & b2 & hs & ->).
  set (w4 := set_hookState hs _).
  assert (heap w4 !! context (st w4) = Some (counted args freshContext)) as Hh4
    by exact Hh3.
  assert (didBounce (st w4) = false /\ cancelled (st w4) = false /\
          bounce (st w4) = context (st w4)) as (Hd4 & Hcan4 & Hb4) by done.
  assert (context (st w4) = context (st w)) as Hc4 by done.
  assert (nextCtx w4 = nextCtx w) as Hn4 by done.
  assert (throttleHandle (st w4) = None) as Hth4 by done.
  destruct (splitEventChain (st w4) && negb (splitEventChain (st w3))) eqn:Hcond.
  2:{ cbn [from_option id]. exists (context (st w)), (counted args freshContext).
      split; [lia|]. split; [| done].
      pose proof (core_listener_timing_first options w4 Hth4) as Hcore.
      injection Hcore as _ -> _ _. exact Hh3. }
  apply andb_prop in Hcond as [Hs4 _].
  cbv zeta.
  destruct (includeLastEventOnSplitting (st w4)) eqn:Hincl.
  - (* the event stays in the chain that bounces *)
    rewrite (listener_split_included _ w4 _ Hd4 Hcan4 Hb4 Hincl Hh4).
    change (includeLastEventOnSplitting (st (bounced control (counted args freshContext) w4)))
      with (includeLastEventOnSplitting (st w4)).
    rewrite Hincl. cbn [negb from_option id].
    exists (context (st w)), (committed control (counted args freshContext)).
    split; [lia|]. split; [| done].
    unfold bounced. cbn [heap]. rewrite Hc4, Hn4.
    rewrite lookup_insert_ne by lia. apply lookup_insert_eq.
  - (* the event is taken back and lands in the next chain *)
    change (@None (list Val)) with (arguments (@freshContext Val)).
    rewrite (listener_split_excluded args w4 freshContext Hd4 Hcan4 Hb4 Hincl Hh4).
    change (includeLastEventOnSplitting (st (bounced control freshContext w4)))
      with (includeLastEventOnSplitting (st w4)).
    rewrite Hincl. cbn [negb].
    set (w5 := bounced control freshContext w4).
    assert (context (st w5) = nextCtx w) as Hc5 by done.
    destruct (listener_fuel_first_no_split options 0 args w5 freshContext)
      as (w6 & Hrun & Hcore); [done | done | apply lookup_insert_eq | by left |].
    rewrite Hrun. cbn [from_option id].
    injection Hcore as Hc6 Hh6 Hn6 Hk6.
    exists (nextCtx w), (counted args freshContext).
    split; [lia|]. split; [| done]. rewrite Hh6.
    apply lookup_insert_eq.
Qed.

(** C7.  On an instance reached by any sequence of operations and not
    cancelled, [cancel] returns [true]; after it both handle variables are
    empty, no timer is pending, and the callback record is unchanged; the
    callback is never invoked for the discarded context, whatever happens
    next.  [resume] then returns [true], and the next event is counted as
    the first one ([callCount = 1], with its arguments) of a context newer
    than the discarded one; without a control function that context is the
    current one and nothing has been committed. *)
Theorem cancel_discards_chain options (h0 : HS) t0 os args :
  let w := run options os (throttledDebounce h0 t0) in
  cancelled (st w) = false ->
  exists w1 w2,
    cancel w = (JTrue, w1) /\
    throttleHandle (st w1) = None /\
    maxDelayHandle (st w1) = None /\
    timers w1 = [] /\
    calls w1 = calls w /\
    (forall more, context (st w) ∉ callCtx <$> calls (run options more w1)) /\
    resume w1 = (JTrue, w2) /\
    (exists g c,
       (context (st w) < g)%nat /\
       heap (listener options args w2) !! g = Some c /\
       callCount c = 1 /\ arguments c = Some args) /\
    (controlFunc options = None ->
       calls (listener options args w2) = calls w /\
       context (st (listener options args w2)) = nextCtx w /\
       heap (listener options args w2) !! nextCtx w
         = Some (counted args freshContext)).
Proof.
  intros w Hcan.
  assert (ready w) as Hr by apply ready_run, ready_throttledDebounce.
  assert (tracked w) as Htr by apply tracked_run, tracked_throttledDebounce.
  assert (committed_frozen w) as Hfr by apply frozen_run.
  clearbody w.
  pose proof (cancel_eq w Hcan) as Hcancel.
  pose proof (extends_cancel w) as Hext.
  assert (timers (snd (cancel w)) = []) as Htimers.
  { unfold cancel. rewrite Hcan. cbn [negb snd]. apply timers_reset.
    revert Htr. by apply tracked_same. }
  rewrite Hcancel in Hext, Htimers. cbn [snd] in Hext, Htimers.
  match type of Hcancel with _ = (_, ?x) => set (w1 := x) in * end.
  set (w2 := set_cancelled false w1).
  destruct Hr as (_ & _ & [Hlt _] & _).
  exists w1, w2. split; [done|]. split; [done|]. split; [done|].
  split; [done|]. split; [done|].
  split.
  { intros more Hin.
    assert (extends w (run options more w1)) as He
      by (eapply extends_trans; [exact Hext | apply extends_run]).
    destruct (extends_frozen _ _ He Hfr) as (_ & Hall & _).
    apply list_elem_of_fmap in Hin as (e & He1 & He2).
    assert (wf w1) as Hwf1 by (apply Hext, Hfr).
    destruct (extends_run options more w1 Hwf1)
      as (_ & Hle1 & _ & new & Hnew & Hallnew & _).
    change (context (st w1)) with (nextCtx w) in Hle1.
    rewrite Hnew in He2. apply elem_of_app in He2 as [He2|He2].
    - change (calls w1) with (calls w) in He2. destruct Hfr as (_ & Hallw & _).
      rewrite Forall_forall in Hallw. destruct (Hallw _ He2). lia.
    - rewrite Forall_forall in Hallnew. destruct (Hallnew _ He2) as [Hr' _].
      change (context (st w1)) with (nextCtx w) in Hr'. lia. }
  split; [done|].
  assert (ready w2) as Hr2.
  { split; [done|]. split; [done|]. split.
    - split; [cbn; lia|]. cbn. rewrite lookup_insert_eq. by eexists.
    - intros _. apply lookup_insert_eq. }
  assert (heap w2 !! context (st w2) = Some freshContext) as Hfresh2
    by apply lookup_insert_eq.
  destruct (listener_first_event options args w2 Hr2 eq_refl eq_refl Hfresh2)
    as [(g & c & Hg & Hh & Hn & Ha) Hplain].
  change (context (st w2)) with (nextCtx w) in Hg, Hplain.
  change (calls w2) with (calls w) in Hplain.
  split; [| exact Hplain].
  exists g, c. split; [lia|]. done.
Qed.

(** ** Splitting a chain from the control function *)

(** The control function calls [split(false)] on the context it is given
    while the split flag is not left set: the chain bounces without the
    event, and the listener calls itself with the event. *)
Lemma listener_split_false options f w c args k :
  ready w ->
  cancelled (st w) = false ->
  controlFunc options = Some f ->
  splitEventChain (st w) = false ->
  heap w !! context (st w) = Some c ->
  f (hookState w) (context (st w)) (counted args c)
    = HSplit (context (st w)) false k ->
  let w4 :=
    set_hookState (hook_rejected (k JTrue))
      (set_splitEventChain true
         (set_includeLastEventOnSplitting false
            (set_splitEventChain false
               (set_heap (<[context (st w) := counted args c]> (heap w))
                  (set_gotAnyEvent true w))))) in
  listener options args w
  = default w (listener_fuel options 1 args (bounced control c w4)).
Proof.
  intros Hr Hcan Hf Hs Hc Hp w4.
  unfold listener. rewrite listener_fuel_S, Hcan, Hf.
  rewrite (listener_count_eq args w c Hc).
  set (w1 := set_heap _ _).
  unfold listener_control.
  set (w0 := set_includeLastEventOnSplitting false (set_splitEventChain false w1)).
  assert (heap w0 !! context (st w0) = Some (counted args c)) as Hc0
    by apply lookup_insert_eq.
  rewrite (cur_lookup _ _ Hc0).
  change (hookState w0) with (hookState w).
  change (context (st w0)) with (context (st w)).
  rewrite Hp.
  assert (run_hook (HSplit (context (st w)) false k) w0 = w4) as ->
    by (by apply (run_hook_accepted false k w0)).
  replace (splitEventChain (st w4) && negb (splitEventChain (st w1)))
    with true by (change (splitEventChain (st w1)) with (splitEventChain (st w));
                  by rewrite Hs).
  cbv zeta.
  destruct Hr as (Hd & Hb & _).
  rewrite (listener_split_excluded args w4 c) by done.
  done.
Qed.

(** C4, as the code has it.  On an instance reached by any sequence of
    operations and not cancelled, whose current chain has two events
    ([callCount = 2], arguments [a2]) and whose split flag is not left set by
    the previous listener call: if the control function, run on the third
    event, calls [split(false)] on the context it is given, the callback is
    invoked once, for that context, with trigger [control], [callCount = 2]
    and the arguments [a2]; a new context becomes current and the third
    event is counted in it: [callCount = 1] with the arguments [a3].
    Whatever the control function does when it runs again on the
    re-injected event changes none of this. *)
Theorem split_false_on_third_event
    options (h0 : HS) t0 os f c (a2 a3 : list Val) k :
  let w := run options os (throttledDebounce h0 t0) in
  cancelled (st w) = false ->
  controlFunc options = Some f ->
  splitEventChain (st w) = false ->
  heap w !! context (st w) = Some c ->
  callCount c = 2 ->
  arguments c = Some a2 ->
  f (hookState w) (context (st w)) (counted a3 c)
    = HSplit (context (st w)) false k ->
  let w' := listener options a3 w in
  calls w' =
    calls w ++
    [mkCall (now w) (context (st w))
       {| callCount := 2; arguments := Some a2;
          trigger := Some control; splitProp := false |}] /\
  context (st w') = nextCtx w /\
  context (st w) <> nextCtx w /\
  heap w' !! nextCtx w =
    Some {| callCount := 1; arguments := Some a3;
            trigger := None; splitProp := true |}.
Proof.
  intros w Hcan Hf Hs Hc Hn Ha Hp w'.
  assert (ready w) as Hr by apply ready_run, ready_throttledDebounce.
  clearbody w.
  subst w'. rewrite (listener_split_false options f w c a3 k) by done.
  set (w4 := set_hookState _ _). set (w5 := bounced control c w4).
  destruct (listener_fuel_first_no_split options 0 a3 w5 freshContext)
    as (w6 & Hrun & Hcore); [done | done | apply lookup_insert_eq | by left |].
  rewrite Hrun. cbn [from_option id]. injection Hcore as Hc6 Hh6 Hn6 Hk6.
  rewrite Hk6, Hc6, Hh6.
  destruct Hr as (_ & _ & [Hlt _] & _).
  split; [| split; [done | split; [lia|]]].
  - cbn. do 3 f_equal. destruct c as [n a tr sp]. cbn in Hn, Ha.
    by rewrite Hn, Ha.
  - replace (context (st w5)) with (nextCtx w) by done.
    by rewrite lookup_insert_eq.
Qed.

(** C10.  On an instance reached by any sequence of operations, not
    cancelled and with the split flag not left set: the control function
    calls [split(false)] on the context it is given, so the chain bounces
    without the event and the listener calls itself with the event; run
    again, on the new context, the control function calls [split] once
    more.  That call is accepted and returns [true], but
    the listener goes straight on to the timers: the callback was invoked
    once only, for the first split, the new context stays current with the
    event counted in it once, and the split flag is left set. *)
Theorem split_in_reinjected_call_ignored
    options (h0 : HS) t0 os f c (args : list Val) k inc' k' :
  let w := run options os (throttledDebounce h0 t0) in
  cancelled (st w) = false ->
  controlFunc options = Some f ->
  splitEventChain (st w) = false ->
  heap w !! context (st w) = Some c ->
  f (hookState w) (context (st w)) (counted args c)
    = HSplit (context (st w)) false k ->
  f (hook_rejected (k JTrue)) (nextCtx w) (counted args freshContext)
    = HSplit (nextCtx w) inc' k' ->
  let w' := listener options args w in
  exists w0 w1,
    context (st w0) = nextCtx w /\
    split (nextCtx w) inc' w0 = (JTrue, w1) /\
    w' = listener_timing options (run_hook (k' JTrue) w1) /\
    hookState w' = hook_rejected (k' JTrue) /\
    splitEventChain (st w') = true /\
    calls w' =
      calls w ++ [mkCall (now w) (context (st w)) (committed control c)] /\
    context (st w') = nextCtx w /\
    heap w' !! nextCtx w = Some (counted args freshContext).
Proof.
  intros w Hcan Hf Hs Hc Hp Hp' w'.
  assert (ready w) as Hr by apply ready_run, ready_throttledDebounce.
  clearbody w.
  subst w'. rewrite (listener_split_false options f w c args k) by done.
  set (w4 := set_hookState _ _). set (w5 := bounced control c w4).
  rewrite listener_fuel_S.
  change (cancelled (st w5)) with (cancelled (st w)). rewrite Hcan, Hf.
  assert (heap w5 !! context (st w5) = Some freshContext) as Hc5
    by apply lookup_insert_eq.
  rewrite (listener_count_eq args w5 freshContext Hc5).
  set (w6 := set_heap _ _).
  unfold listener_control.
  set (w0 := set_includeLastEventOnSplitting false (set_splitEventChain false w6)).
  assert (heap w0 !! context (st w0) = Some (counted args freshContext)) as Hc0
    by apply lookup_insert_eq.
  rewrite (cur_lookup _ _ Hc0).
  change (hookState w0) with (hook_rejected (k JTrue)).
  change (context (st w0)) with (nextCtx w).
  rewrite Hp'.
  change (splitEventChain (st w6)) with true. rewrite andb_false_r.
  cbn [from_option id].
  assert (split (nextCtx w) inc' w0 =
          (JTrue, if inc'
                  then set_includeLastEventOnSplitting true (set_splitEventChain true w0)
                  else set_splitEventChain true w0)) as Hsplit.
  { unfold split.
    change (context (st w0)) with (nextCtx w).
    by rewrite bool_decide_eq_true_2. }
  exists w0, (if inc'
              then set_includeLastEventOnSplitting true (set_splitEventChain true w0)
              else set_splitEventChain true w0).
  split; [done|]. split; [exact Hsplit|].
  split. { cbn [run_hook]. by rewrite Hsplit. }
  set (w7 := set_hookState (hook_rejected (k' JTrue))
               (if inc'
                then set_includeLastEventOnSplitting true (set_splitEventChain true w0)
                else set_splitEventChain true w0)).
  assert (run_hook (HSplit (nextCtx w) inc' k') w0 = w7) as ->
    by (by apply (run_hook_accepted inc' k' w0)).
  assert (throttleHandle (st w7) = None) as Hth by (subst w7; by destruct inc').
  destruct (flags_listener_timing_first options w7 Hth) as [-> ->].
  pose proof (core_listener_timing_first options w7 Hth) as Hcore.
  injection Hcore as -> -> _ ->.
  split; [done|]. split; [subst w7; by destruct inc'|].
  split; [subst w7; by destruct inc'|].
  split; [subst w7; by destruct inc'|].
  destruct inc'; exact Hc0.
Qed.

(** ** The max-delay timer within a chain *)

Lemma steady_same w w' : maxDelay_core w' = maxDelay_core w -> steady w w'.
Proof. by intros H _ _. Qed.

Lemma steady_trans w1 w2 w3 :
  extends w1 w2 -> extends w2 w3 ->
  steady w1 w2 -> steady w2 w3 -> steady w1 w3.
Proof.
  intros E12 E23 S12 S23 Hwf Hc.
  destruct (E12 Hwf) as (Hwf2 & Hle12 & _).
  destruct (E23 Hwf2) as (_ & Hle23 & _).
  rewrite S23, S12; [done | done | lia | done | lia].
Qed.

Lemma steady_triggerBounce trig w : steady w (snd (triggerBounce trig w)).
Proof.
  unfold triggerBounce. destruct (negb _ && negb _); [| by apply steady_same].
  cbn [snd]. intros [Hlt _] Hc. rewrite reset_eq in Hc. cbn in Hc.
  replace (nextCtx _) with (nextCtx w) in Hc by (by destruct (arguments _)).
  lia.
Qed.

Lemma steady_contextBounce g trig w :
  steady w (snd (contextBounce g trig w)).
Proof.
  unfold contextBounce. case_bool_decide; [| by apply steady_same].
  apply steady_triggerBounce.
Qed.

Lemma maxDelay_core_createThrottleTimeout options ot w :
  maxDelay_core (createThrottleTimeout options ot w) = maxDelay_core w.
Proof.
  unfold maxDelay_core, createThrottleTimeout. cbn.
  rewrite filter_app, filter_cons_False, filter_nil, app_nil_r; done.
Qed.

Lemma steady_feedThrottle options w : steady w (feedThrottle options w).
Proof.
  unfold feedThrottle. destruct (throttleHandle (st w)).
  - destruct (0 <? _); [by apply steady_same | apply steady_contextBounce].
  - apply steady_same. by rewrite maxDelay_core_createThrottleTimeout.
Qed.

Lemma steady_listener_timing options w :
  maxDelayHandle (st w) <> None -> steady w (listener_timing options w).
Proof.
  intros Hmd Hwf Hc.
  assert (context (st (listener_timing options w))
          = context (st (feedThrottle options w))) as Hc'.
  { unfold listener_timing. by destruct (bool_decide _ && _). }
  rewrite Hc' in Hc.
  pose proof (steady_feedThrottle options w Hwf Hc) as Hm.
  unfold listener_timing.
  rewrite (bool_decide_eq_false_2 (maxDelayHandle _ = None)); [done|].
  injection Hm as -> _. done.
Qed.

Lemma maxDelay_core_split g inc w :
  maxDelay_core (snd (split g inc w)) = maxDelay_core w.
Proof.
  unfold split. destruct (bool_decide _ && _); [| done]. by destruct inc.
Qed.

Lemma maxDelay_core_run_hook p w : maxDelay_core (run_hook p w) = maxDelay_core w.
Proof. destruct (run_hook_shape p w) as (b1 & b2 & hs & ->). done. Qed.

Lemma steady_listener_split pa w : steady w (listener_split pa w).
Proof.
  unfold listener_split.
  destruct (negb _); [| apply steady_contextBounce].
  eapply steady_trans; [| apply extends_call_bounce | | apply steady_contextBounce].
  - eapply extends_trans; apply extends_upd_cur.
  - by apply steady_same.
Qed.

Lemma steady_listener_fuel options n args w w' :
  listener_fuel options n args w = Some w' ->
  maxDelayHandle (st w) <> None -> steady w w'.
Proof.
  revert w w'. induction n as [| n IH]; intros w w'; [done|].
  rewrite listener_fuel_S.
  destruct (cancelled (st w)); [intros [= <-] _; by apply steady_same|].
  intros Hrun Hmd.
  pose proof (extends_listener_count args w) as E1.
  assert (maxDelay_core (snd (listener_count args w)) = maxDelay_core w) as M1
    by done.
  destruct (listener_count args w) as [pa w1]. cbn [snd] in E1, M1.
  assert (maxDelayHandle (st w1) <> None) as Hmd1.
  { injection M1 as -> _. done. }
  destruct (controlFunc options) as [f|].
  2:{ injection Hrun as <-.
      eapply steady_trans; [exact E1 | apply extends_listener_timing
                           | by apply steady_same
                           | by apply steady_listener_timing]. }
  pose proof (extends_listener_control f w1) as E2.
  assert (maxDelay_core (snd (listener_control f w1)) = maxDelay_core w1) as M2.
  { unfold listener_control. cbn [snd]. by rewrite maxDelay_core_run_hook. }
  destruct (listener_control f w1) as [prev w2]. cbn [snd] in E2, M2.
  assert (maxDelayHandle (st w2) <> None) as Hmd2.
  { injection M2 as -> _. done. }
  assert (extends w w2) as E02 by eauto using extends_trans.
  assert (steady w w2) as S02.
  { apply steady_same. by rewrite M2. }
  destruct (splitEventChain (st w2) && negb prev).
  2:{ injection Hrun as <-.
      eapply steady_trans; [exact E02 | apply extends_listener_timing
                           | exact S02
                           | by apply steady_listener_timing]. }
  cbv zeta in Hrun.
  pose proof (extends_listener_split pa w2) as E3.
  pose proof (steady_listener_split pa w2) as S3.
  assert (extends w (listener_split pa w2)) as E03 by eauto using extends_trans.
  assert (steady w (listener_split pa w2)) as S03
    by eauto using steady_trans.
  destruct (negb _).
  2:{ by injection Hrun as <-. }
  pose proof (extends_listener_fuel _ _ _ _ _ Hrun) as E4.
  intros Hwf Hc.
  destruct (E03 Hwf) as (Hwf3 & Hle3 & _).
  destruct (E4 Hwf3) as (_ & Hle4 & _).
  assert (context (st (listener_split pa w2)) = context (st w)) as Hc3 by lia.
  pose proof (S03 Hwf Hc3) as M3.
  assert (maxDelayHandle (st (listener_split pa w2)) <> None) as Hmd3.
  { injection M3 as -> _. done. }
  rewrite (IH _ _ Hrun Hmd3 Hwf3), M3; [done | lia].
Qed.

(** Once the max-delay timer of a chain is armed, an event that leaves the
    chain's context current neither arms it again nor changes its handle. *)
Lemma maxDelay_armed_once options args w h :
  wf w ->
  maxDelayHandle (st w) = Some h ->
  context (st (listener options args w)) = context (st w) ->
  maxDelayHandle (st (listener options args w)) = Some h /\
  armings_of maxDelayTimeout (listener options args w)
    = armings_of maxDelayTimeout w.
Proof.
  intros Hwf Hmd Hc.
  assert (steady w (listener options args w)) as Hs.
  { eapply steady_listener_fuel; [apply (listener_fuel_enough options 0)|].
    by rewrite Hmd. }
  pose proof (Hs Hwf Hc) as Hm. injection Hm as H1 H2.
  by rewrite H1, Hmd.
Qed.

(** C8.  With [maxDelay = 3000], [throttleWait = 500] and an event every
    400 ms from 0 on, the events of 0 to 2800 ms are in one chain; the
    callback is invoked at 3000 ms with trigger [debounce] for that chain
    and not before, the throttle deadline being moved by every event; the
    max-delay timer was armed once for the chain, by the event of 0 ms; the
    next event, at 3200 ms, begins the next chain and arms the max-delay
    timer again.  In general, on an instance reached by any sequence of
    operations, an event that finds the max-delay timer armed and leaves
    the current context current does not arm it again. *)
Theorem periodic_events_commit_at_maxDelay (h0 : HS) (a : nat -> list Val) :
  (exists w w',
     play (plain_options (Some 3000) 500) 50
       (periodic_events 400 8 a ++ [quiet_until 3000])
       (throttledDebounce h0 0) = Some w /\
     calls w =
       [mkCall 3000 0%nat
          {| callCount := 8; arguments := Some (a 7%nat);
             trigger := Some debounce; splitProp := false |}] /\
     armings_of maxDelayTimeout w = [mkArming 1 maxDelayTimeout 0 3000] /\
     play (plain_options (Some 3000) 500) 50 [(3200, OListener (a 8%nat))] w
       = Some w' /\
     calls w' = calls w /\
     context (st w') = 1%nat /\
     armings_of maxDelayTimeout w' =
       [mkArming 1 maxDelayTimeout 0 3000;
        mkArming 10 maxDelayTimeout 3200 3000]) /\
  (forall options t0 os args h,
     let w := run options os (throttledDebounce h0 t0) in
     maxDelayHandle (st w) = Some h ->
     context (st (listener options args w)) = context (st w) ->
     maxDelayHandle (st (listener options args w)) = Some h /\
     armings_of maxDelayTimeout (listener options args w)
       = armings_of maxDelayTimeout w).
Proof.
  split.
  - do 2 eexists. split; [vm_compute; reflexivity|].
    split; [reflexivity|]. split; [reflexivity|].
    split; [vm_compute; reflexivity|]. repeat split.
  - intros options t0 os args h w Hmd Hc.
    assert (ready w) as Hr by apply ready_run, ready_throttledDebounce.
    clearbody w. apply maxDelay_armed_once; [apply Hr | done | done].
Qed.

(** * Further properties of the code *)

(** ** How a property goes through the listener and through a run *)

(** A property [P] of the world goes through the listener when it goes
    through the four stages of its body, [Q] being what holds between the
    counting of the event and the split or the timers. *)
Lemma listener_fuel_preserves options args
    (P : World -> Prop) (Q : option (list Val) -> World -> Prop) :
  (forall w, cancelled (st w) = false -> P w ->
     Q (fst (listener_count args w)) (snd (listener_count args w))) ->
  (forall f pa w, controlFunc options = Some f -> Q pa w ->
     Q pa (snd (listener_control f w))) ->
  (forall pa w, Q pa w -> P (listener_split pa w)) ->
  (forall pa w, Q pa w -> P (listener_timing options w)) ->
  forall n w w', listener_fuel options n args w = Some w' -> P w -> P w'.
Proof.
  intros Hcount Hcontrol Hsplit Htiming.
  induction n as [| n IH]; intros w w'; [done|].
  rewrite listener_fuel_S.
  destruct (cancelled (st w)) eqn:Hcan; [by intros [= <-]|].
  intros Hrun HP. specialize (Hcount w Hcan HP).
  destruct (listener_count args w) as [pa w1]. cbn [fst snd] in Hcount.
  destruct (controlFunc options) as [f|] eqn:Hf.
  2:{ injection Hrun as <-. by eapply Htiming. }
  specialize (Hcontrol f pa w1 eq_refl Hcount).
  destruct (listener_control f w1) as [prev w2]. cbn [snd] in Hcontrol.
  destruct (splitEventChain (st w2) && negb prev).
  2:{ injection Hrun as <-. by eapply Htiming. }
  cbv zeta in Hrun. specialize (Hsplit pa w2 Hcontrol).
  destruct (negb _).
  - by eapply IH.
  - by injection Hrun as <-.
Qed.

Lemma listener_preserves options args
    (P : World -> Prop) (Q : option (list Val) -> World -> Prop) :
  (forall w, cancelled (st w) = false -> P w ->
     Q (fst (listener_count args w)) (snd (listener_count args w))) ->
  (forall f pa w, controlFunc options = Some f -> Q pa w ->
     Q pa (snd (listener_control f w))) ->
  (forall pa w, Q pa w -> P (listener_split pa w)) ->
  (forall pa w, Q pa w -> P (listener_timing options w)) ->
  forall w, P w -> P (listener options args w).
Proof.
  intros H1 H2 H3 H4 w.
  eapply (listener_fuel_preserves options args P Q); eauto.
  apply (listener_fuel_enough options 0).
Qed.

(** A property goes through every operation when it goes through the
    listener, a timer firing, a change of the clock, a bounce, [reset]
    after the cancel flag is set, the clearing of that flag and a [split]
    call. *)
Lemma step_preserves options (P : World -> Prop) :
  (forall args w, P w -> P (listener options args w)) ->
  (forall h w, P w -> P (fire options h w)) ->
  (forall t w, P w -> P (set_now t w)) ->
  (forall trig w, P w -> P (snd (triggerBounce trig w))) ->
  (forall w, cancelled (st w) = false -> P w -> P (reset (set_cancelled true w))) ->
  (forall w, cancelled (st w) = true -> P w -> P (set_cancelled false w)) ->
  (forall g inc w, P w -> P (snd (split g inc w))) ->
  forall w o, P w -> P (step options w o).
Proof.
  intros Hl Hf Hn Hb Hc Hr Hs w o HP. destruct o; cbn [step]; auto.
  - unfold globalBounce. destruct (_ || _); auto.
  - unfold cancel. destruct (cancelled (st w)) eqn:E; cbn [negb snd]; auto.
  - unfold resume. destruct (cancelled (st w)) eqn:E; cbn [snd]; auto.
  - unfold contextBounce. case_bool_decide; auto.
Qed.

Lemma run_preserves options (P : World -> Prop) :
  (forall w o, P w -> P (step options w o)) ->
  forall os w, P w -> P (run options os w).
Proof.
  intros Hstep os. induction os as [| o os IH]; intros w HP; [done|].
  cbn. by apply IH, Hstep.
Qed.

(** ** The depth of the listener's calls to itself *)

(** As [listener_split_false], at any depth. *)
Lemma listener_fuel_split_false options n f w c args k :
  ready w ->
  cancelled (st w) = false ->
  controlFunc options = Some f ->
  splitEventChain (st w) = false ->
  heap w !! context (st w) = Some c ->
  f (hookState w) (context (st w)) (counted args c)
    = HSplit (context (st w)) false k ->
  let w4 :=
    set_hookState (hook_rejected (k JTrue))
      (set_splitEventChain true
         (set_includeLastEventOnSplitting false
            (set_splitEventChain false
               (set_heap (<[context (st w) := counted args c]> (heap w))
                  (set_gotAnyEvent true w))))) in
  listener_fuel options (S n) args w
  = listener_fuel options n args (bounced control c w4).
Proof.
  intros Hr Hcan Hf Hs Hc Hp w4.
  rewrite listener_fuel_S, Hcan, Hf.
  rewrite (listener_count_eq args w c Hc).
  set (w1 := set_heap _ _).
  unfold listener_control.
  set (w0 := set_includeLastEventOnSplitting false (set_splitEventChain false w1)).
  assert (heap w0 !! context (st w0) = Some (counted args c)) as Hc0
    by apply lookup_insert_eq.
  rewrite (cur_lookup _ _ Hc0).
  change (hookState w0) with (hookState w).
  change (context (st w0)) with (context (st w)).
  rewrite Hp.
  assert (run_hook (HSplit (context (st w)) false k) w0 = w4) as ->
    by (by apply (run_hook_accepted false k w0)).
  replace (splitEventChain (st w4) && negb (splitEventChain (st w1)))
    with true by (change (splitEventChain (st w1)) with (splitEventChain (st w));
                  by rewrite Hs).
  cbv zeta.
  destruct Hr as (Hd & Hb & _).
  rewrite (listener_split_excluded args w4 c) by done.
  done.
Qed.

(** ** One operation, at most one invocation of the callback *)

Lemma triggerBounce_cases trig w :
  triggerBounce trig w = (JUndefined, w) \/
  exists x e,
    triggerBounce trig w = (JTrue, reset x) /\
    calls x = calls w ++ [e] /\
    cancelled (st x) = cancelled (st w) /\
    splitEventChain (st x) = splitEventChain (st w).
Proof.
  unfold triggerBounce. destruct (negb _ && negb _); [| by left].
  right. cbv zeta.
  destruct (arguments (cur (upd_cur (with_trigger trig) (set_didBounce true w))));
    eexists _, _; (split; [reflexivity|]); done.
Qed.

Lemma call_bounce_cases trig w :
  snd (call_bounce trig w) = w \/
  exists x e,
    snd (call_bounce trig w) = reset x /\
    calls x = calls w ++ [e] /\
    cancelled (st x) = cancelled (st w) /\
    splitEventChain (st x) = splitEventChain (st w).
Proof.
  unfold call_bounce, contextBounce. case_bool_decide; [| by left].
  destruct (triggerBounce_cases trig w) as [-> | (x & e & -> & Hx)];
    [by left | right; by exists x, e].
Qed.

Lemma calls_reset w : calls (reset w) = calls w.
Proof. by rewrite reset_eq. Qed.

Lemma one_call_call_bounce trig w :
  calls (snd (call_bounce trig w)) = calls w \/
  exists e, calls (snd (call_bounce trig w)) = calls w ++ [e].
Proof.
  destruct (call_bounce_cases trig w) as [-> | (x & e & -> & Hx & _)];
    [by left | right]. exists e. by rewrite calls_reset.
Qed.

Lemma one_call_feedThrottle options w :
  calls (feedThrottle options w) = calls w \/
  exists e, calls (feedThrottle options w) = calls w ++ [e].
Proof.
  unfold feedThrottle. destruct (throttleHandle (st w)); [| by left].
  destruct (0 <? _); [by left | apply one_call_call_bounce].
Qed.

Lemma calls_listener_timing options w :
  calls (listener_timing options w) = calls (feedThrottle options w).
Proof. unfold listener_timing. by destruct (bool_decide _ && _). Qed.

(** An event that finds the split flag set: one level of calls is enough,
    at most one invocation is added, and none in a chain without a throttle
    timer. *)
Lemma one_call_listener_flagged options n args w :
  splitEventChain (st w) = true ->
  exists w',
    listener_fuel options (S n) args w = Some w' /\
    (calls w' = calls w \/ exists e, calls w' = calls w ++ [e]) /\
    (throttleHandle (st w) = None -> calls w' = calls w).
Proof.
  intros Hs. rewrite listener_fuel_S.
  destruct (cancelled (st w)); [exists w; by eauto|].
  assert (calls (snd (listener_count args w)) = calls w /\
          throttleHandle (st (snd (listener_count args w)))
            = throttleHandle (st w) /\
          splitEventChain (st (snd (listener_count args w))) = true)
    as (Hk1 & Hh1 & Hs1) by done.
  destruct (listener_count args w) as [pa w1]. cbn [snd] in Hk1, Hh1, Hs1.
  assert (forall w2, calls w2 = calls w ->
            throttleHandle (st w2) = throttleHandle (st w) ->
            (calls (listener_timing options w2) = calls w \/
             exists e, calls (listener_timing options w2) = calls w ++ [e]) /\
            (throttleHandle (st w) = None ->
             calls (listener_timing options w2) = calls w)) as Htiming.
  { intros w2 Hk2 Hh2. rewrite calls_listener_timing, <- Hk2. split.
    - apply one_call_feedThrottle.
    - intros Hnone. unfold feedThrottle. by rewrite Hh2, Hnone. }
  destruct (controlFunc options) as [f|].
  2:{ eexists. split; [done|]. by apply Htiming. }
  unfold listener_control.
  destruct (run_hook_shape
    (f (hookState (set_includeLastEventOnSplitting false (set_splitEventChain false w1)))
       (context (st (set_includeLastEventOnSplitting false (set_splitEventChain false w1))))
       (cur (set_includeLastEventOnSplitting false (set_splitEventChain false w1))))
    (set_includeLastEventOnSplitting false (set_splitEventChain false w1)))
    as (b1 & b2 & hs & ->).
  rewrite Hs1, andb_false_r. eexists. split; [done|]. by apply Htiming.
Qed.

Lemma one_call_listener options args w :
  calls (listener options args w) = calls w \/
  exists e, calls (listener options args w) = calls w ++ [e].
Proof.
  unfold listener. rewrite listener_fuel_S.
  destruct (cancelled (st w)); [by left|].
  assert (calls (snd (listener_count args w)) = calls w) as Hk1 by done.
  destruct (listener_count args w) as [pa w1]. cbn [snd] in Hk1.
  destruct (controlFunc options) as [f|].
  2:{ cbn. rewrite calls_listener_timing, <- Hk1. apply one_call_feedThrottle. }
  pose proof (core_listener_control f w1) as Hcore.
  destruct (listener_control f w1) as [prev w2]. cbn [snd] in Hcore.
  assert (calls w2 = calls w) as Hk2.
  { injection Hcore as _ _ _ ->. done. }
  destruct (splitEventChain (st w2) && negb prev) eqn:Hcond.
  2:{ cbn. rewrite calls_listener_timing, <- Hk2. apply one_call_feedThrottle. }
  apply andb_prop in Hcond as [Hs2 _]. cbv zeta.
  unfold listener_split.
  set (wx := if negb (includeLastEventOnSplitting (st w2)) then _ else w2).
  assert (calls wx = calls w /\ splitEventChain (st wx) = true) as [Hkx Hsx].
  { subst wx. by destruct (negb _). }
  clearbody wx.
  destruct (call_bounce_cases control wx)
    as [-> | (x & e & -> & Hx & _ & Hsplit)].
  - (* the bounce was refused *)
    destruct (negb _).
    + destruct (one_call_listener_flagged options 0 args wx Hsx)
        as (w' & -> & Hone & _).
      cbn [from_option id]. rewrite Hkx in Hone. exact Hone.
    + cbn [from_option id]. by left.
  - (* the chain bounced *)
    destruct (negb _).
    + destruct (one_call_listener_flagged options 0 args (reset x))
        as (w' & -> & _ & Hnone).
      { by rewrite splitEventChain_reset, Hsplit. }
      cbn [from_option id]. right. exists e.
      rewrite Hnone, calls_reset, Hx, Hkx; [done | by rewrite reset_eq].
    + cbn [from_option id]. right. exists e. by rewrite calls_reset, Hx, Hkx.
Qed.

Lemma one_call_fire options h w :
  calls (fire options h w) = calls w \/
  exists e, calls (fire options h w) = calls w ++ [e].
Proof.
  unfold fire. destruct (list_find _ _) as [[i t]|]; [| by left].
  destruct (timerFunc t).
  - unfold feedThrottleTimeoutFunc.
    assert (calls (set_throttleHandle None (clearTimeoutFunc h w)) = calls w)
      as Hk by done.
    destruct (throttleTime _).
    + destruct (0 <? _); [by left|]. rewrite <- Hk. apply one_call_call_bounce.
    + rewrite <- Hk. apply one_call_call_bounce.
  - unfold maxDelayTimeoutFunc.
    assert (calls (set_maxDelayHandle None (clearTimeoutFunc h w)) = calls w)
      as Hk by done.
    rewrite <- Hk. apply one_call_call_bounce.
Qed.

(** One operation invokes the callback at most once. *)
Lemma one_call_step options w o :
  calls (step options w o) = calls w \/
  exists e, calls (step options w o) = calls w ++ [e].
Proof.
  destruct o; cbn [step].
  - apply one_call_listener.
  - apply one_call_fire.
  - by left.
  - unfold globalBounce. destruct (_ || _); [| by left].
    destruct (triggerBounce_cases global w) as [-> | (x & e & -> & Hx & _)];
      [by left | right]. exists e. cbn [snd]. by rewrite calls_reset.
  - left. unfold cancel. destruct (negb _); [| done]. cbn [snd].
    by rewrite calls_reset.
  - left. unfold resume. by destruct (cancelled _).
  - left. pose proof (core_split g includeCurrent w) as H.
    injection H as _ _ _ ->. done.
  - unfold contextBounce. case_bool_decide; [| by left].
    destruct (triggerBounce_cases trig w) as [-> | (x & e & -> & Hx & _)];
      [by left | right]. exists e. cbn [snd]. by rewrite calls_reset.
Qed.

(** ** A split that includes the current event *)

Lemma timers_bounced trig c w : tracked w -> timers (bounced trig c w) = [].
Proof.
  intros Htr. pose proof (timers_reset w Htr) as H.
  rewrite reset_eq in H. exact H.
Qed.


(** ** An event that finds the split flag set *)


(** ** An event that lands in the chain *)


(** ** A cancelled instance *)

Lemma cancelled_call_bounce trig w :
  cancelled (st (snd (call_bounce trig w))) = cancelled (st w).
Proof.
  destruct (call_bounce_cases trig w) as [-> | (x & e & -> & _ & Hx & _)];
    [done|]. by rewrite reset_eq.
Qed.

Lemma cancelled_feedThrottle options w :
  cancelled (st (feedThrottle options w)) = cancelled (st w).
Proof.
  unfold feedThrottle. destruct (throttleHandle (st w)); [| done].
  destruct (0 <? _); [done | apply cancelled_call_bounce].
Qed.

Lemma cancelled_listener_timing options w :
  cancelled (st (listener_timing options w)) = cancelled (st w).
Proof.
  rewrite <- (cancelled_feedThrottle options w). unfold listener_timing.
  by destruct (bool_decide _ && _).
Qed.

Lemma cancelled_listener options args w :
  cancelled (st (listener options args w)) = cancelled (st w).
Proof.
  apply (listener_preserves options args
           (fun w' => cancelled (st w') = cancelled (st w))
           (fun _ w' => cancelled (st w') = cancelled (st w))); [| | | | done].
  - by intros w1 _ H.
  - intros f pa w1 _ H. unfold listener_control. cbn [snd].
    destruct (run_hook_shape
      (f (hookState (set_includeLastEventOnSplitting false (set_splitEventChain false w1)))
         (context (st (set_includeLastEventOnSplitting false (set_splitEventChain false w1))))
         (cur (set_includeLastEventOnSplitting false (set_splitEventChain false w1))))
      (set_includeLastEventOnSplitting false (set_splitEventChain false w1)))
      as (b1 & b2 & hs & ->). exact H.
  - intros pa w1 H. unfold listener_split. rewrite cancelled_call_bounce.
    by destruct (negb _).
  - intros pa w1 H. by rewrite cancelled_listener_timing.
Qed.

Lemma cancelled_fire options h w :
  cancelled (st (fire options h w)) = cancelled (st w).
Proof.
  unfold fire. destruct (list_find _ _) as [[i t]|]; [| done].
  destruct (timerFunc t).
  - unfold feedThrottleTimeoutFunc. destruct (throttleTime _).
    + destruct (0 <? _); [done | by rewrite cancelled_call_bounce].
    + by rewrite cancelled_call_bounce.
  - unfold maxDelayTimeoutFunc. by rewrite cancelled_call_bounce.
Qed.

Lemma listener_cancelled options args w :
  cancelled (st w) = true -> listener options args w = w.
Proof. intros H. unfold listener. rewrite listener_fuel_S, H. done. Qed.

Lemma fire_no_timers options h w : timers w = [] -> fire options h w = w.
Proof. intros H. unfold fire. by rewrite H. Qed.

Lemma triggerBounce_cancelled trig w :
  cancelled (st w) = true -> triggerBounce trig w = (JUndefined, w).
Proof. intros H. unfold triggerBounce. by rewrite H, andb_false_r. Qed.

(** While the instance is cancelled no timer is pending. *)
Lemma cancelled_no_timers_step options w o :
  tracked w /\ (cancelled (st w) = true -> timers w = []) ->
  tracked (step options w o) /\
  (cancelled (st (step options w o)) = true -> timers (step options w o) = []).
Proof.
  revert w o.
  apply (step_preserves options
           (fun w => tracked w /\ (cancelled (st w) = true -> timers w = []))).
  - intros args w [Htr Hc]. split; [by apply tracked_listener|].
    rewrite cancelled_listener. intros H.
    rewrite listener_cancelled by done. auto.
  - intros h w [Htr Hc]. split; [by apply tracked_fire|].
    rewrite cancelled_fire. intros H. rewrite fire_no_timers; auto.
  - intros t w [Htr Hc]. split; [| done]. revert Htr. by apply tracked_same.
  - intros trig w [Htr Hc]. split; [by apply tracked_triggerBounce|].
    destruct (cancelled (st w)) eqn:E.
    + rewrite triggerBounce_cancelled by done. auto.
    + destruct (triggerBounce_cases trig w) as [-> | (x & e & -> & _ & Hx & _)];
        [cbn; congruence|].
      cbn [snd]. rewrite reset_eq. cbn. congruence.
  - intros w _ [Htr Hc].
    assert (tracked (set_cancelled true w)) as Htr'
      by (revert Htr; by apply tracked_same).
    split; [by apply tracked_reset|]. intros _. by apply timers_reset.
  - intros w _ [Htr Hc]. split; [| done]. revert Htr. by apply tracked_same.
  - intros g inc w [Htr Hc].
    pose proof (timer_core_split g inc w) as Hcore.
    split; [revert Htr; by apply tracked_same|].
    injection Hcore as -> _ _.
    unfold split. destruct (bool_decide _ && _); [| done]. by destruct inc.
Qed.

Lemma cancelled_no_timers options (h0 : HS) t0 os :
  let w := run options os (throttledDebounce h0 t0) in
  cancelled (st w) = true -> timers w = [].
Proof.
  apply (run_preserves options
           (fun w => tracked w /\ (cancelled (st w) = true -> timers w = []))).
  - apply cancelled_no_timers_step.
  - split; [apply tracked_throttledDebounce | done].
Qed.

(** A cancelled instance stays as it is until [resume] is called. *)
Lemma cancelled_inert options (h0 : HS) t0 os more :
  let w := run options os (throttledDebounce h0 t0) in
  cancelled (st w) = true ->
  Forall (fun o => o <> OResume) more ->
  let w' := run options more w in
  cancelled (st w') = true /\
  calls w' = calls w /\
  timers w' = [] /\
  armings w' = armings w /\
  context (st w') = context (st w) /\
  heap w' = heap w.
Proof.
  intros w Hcan Hmore.
  assert (timers w = []) as Ht by (by apply cancelled_no_timers).
  clearbody w. revert w Hcan Ht.
  induction Hmore as [| o more Ho _ IH]; intros w Hcan Ht; [done|].
  change (run options (o :: more) w) with (run options more (step options w o)).
  assert (cancelled (st (step options w o)) = true /\
          timers (step options w o) = [] /\
          calls (step options w o) = calls w /\
          armings (step options w o) = armings w /\
          context (st (step options w o)) = context (st w) /\
          heap (step options w o) = heap w) as (H1 & H2 & H3 & H4 & H5 & H6).
  { destruct o; cbn [step].
    - by rewrite listener_cancelled.
    - by rewrite fire_no_timers.
    - done.
    - unfold globalBounce. destruct (_ || _); [| done].
      by rewrite triggerBounce_cancelled.
    - unfold cancel. by rewrite Hcan.
    - done.
    - unfold split. destruct (bool_decide _ && _); [| done].
      by destruct includeCurrent.
    - unfold contextBounce. case_bool_decide; [| done].
      by rewrite triggerBounce_cancelled. }
  destruct (IH _ H1 H2) as (G1 & G2 & G3 & G4 & G5 & G6). cbv zeta.
  rewrite G2, G4, G5, G6. done.
Qed.

(** ** One pending timer for each function *)

Lemma triggerBounce_frame trig w :
  snd (triggerBounce trig w) = w \/
  exists x,
    snd (triggerBounce trig w) = reset x /\
    timer_core x = timer_core w /\
    nextHandle x = nextHandle w /\
    armings x = armings w /\
    now x = now w.
Proof.
  unfold triggerBounce. destruct (negb _ && negb _); [| by left].
  right. cbv zeta. eexists. split; [reflexivity|].
  cbn. by destruct (arguments _).
Qed.

Lemma call_bounce_frame trig w :
  snd (call_bounce trig w) = w \/
  exists x,
    snd (call_bounce trig w) = reset x /\
    timer_core x = timer_core w /\
    nextHandle x = nextHandle w /\
    armings x = armings w /\
    now x = now w.
Proof.
  unfold call_bounce, contextBounce. case_bool_decide; [| by left].
  apply triggerBounce_frame.
Qed.

Lemma fresh_same w w' :
  timers w' = timers w -> nextHandle w' = nextHandle w ->
  handles_fresh w -> handles_fresh w'.
Proof. unfold handles_fresh. by intros -> ->. Qed.

Lemma fresh_filter (P : Timer -> Prop) `{!forall t, Decision (P t)} w :
  handles_fresh w -> handles_fresh (set_timers (filter P (timers w)) w).
Proof.
  intros [Hnd Hlt]. split.
  - cbn. eapply sublist_NoDup; [exact Hnd|].
    apply fmap_sublist, sublist_filter.
  - intros t Ht. cbn in Ht. apply list_elem_of_filter in Ht as [_ Ht].
    by apply Hlt.
Qed.

Lemma fresh_clearTimeoutFunc h w :
  handles_fresh w -> handles_fresh (clearTimeoutFunc h w).
Proof. apply fresh_filter. Qed.

Lemma fresh_setTimeoutFunc f d w :
  handles_fresh w -> handles_fresh (snd (setTimeoutFunc f d w)).
Proof.
  intros [Hnd Hlt]. split; cbn.
  - rewrite fmap_app. apply NoDup_app. split; [done|]. split.
    + intros h Hh Hh'. apply list_elem_of_singleton in Hh'. subst h.
      apply list_elem_of_fmap in Hh as (t & Ht & Hin).
      specialize (Hlt t Hin). cbn in Ht. lia.
    + apply NoDup_singleton.
  - intros t [Ht | Ht%list_elem_of_singleton]%elem_of_app.
    + specialize (Hlt t Ht). lia.
    + subst t. cbn. lia.
Qed.

Lemma fresh_reset w : handles_fresh w -> handles_fresh (reset w).
Proof.
  intros H. rewrite reset_eq.
  assert (forall o w0, handles_fresh w0 ->
            handles_fresh (set_timers (clear_handle o (timers w0)) w0)) as Hclear.
  { intros [h|] w0 H0; [by apply fresh_filter|]. revert H0. by apply fresh_same. }
  pose proof (Hclear (maxDelayHandle (st w)) _
                (Hclear (throttleHandle (st w)) w H)) as H2.
  revert H2. by apply fresh_same.
Qed.

Lemma fresh_call_bounce trig w :
  handles_fresh w -> handles_fresh (snd (call_bounce trig w)).
Proof.
  intros H.
  destruct (call_bounce_frame trig w) as [-> | (x & -> & Hc & Hn & _)]; [done|].
  apply fresh_reset. injection Hc as Ht _ _. by apply (fresh_same w x).
Qed.

Lemma fresh_triggerBounce trig w :
  handles_fresh w -> handles_fresh (snd (triggerBounce trig w)).
Proof.
  intros H.
  destruct (triggerBounce_frame trig w) as [-> | (x & -> & Hc & Hn & _)]; [done|].
  apply fresh_reset. injection Hc as Ht _ _. by apply (fresh_same w x).
Qed.

Lemma fresh_createThrottleTimeout options ot w :
  handles_fresh w -> handles_fresh (createThrottleTimeout options ot w).
Proof.
  intros H. unfold createThrottleTimeout.
  match goal with |- context [setTimeoutFunc ?f ?d w] =>
    pose proof (fresh_setTimeoutFunc f d w H) as H' end.
  revert H'. by apply fresh_same.
Qed.

Lemma fresh_setMaxDelay options w :
  handles_fresh w -> handles_fresh (setMaxDelay options w).
Proof.
  intros H. unfold setMaxDelay.
  match goal with |- context [setTimeoutFunc ?f ?d w] =>
    pose proof (fresh_setTimeoutFunc f d w H) as H' end.
  revert H'. by apply fresh_same.
Qed.

Lemma fresh_feedThrottle options w :
  handles_fresh w -> handles_fresh (feedThrottle options w).
Proof.
  intros H. unfold feedThrottle. destruct (throttleHandle (st w)).
  - destruct (0 <? _); [| by apply fresh_call_bounce].
    revert H. by apply fresh_same.
  - apply fresh_createThrottleTimeout. revert H. by apply fresh_same.
Qed.

Lemma fresh_listener_timing options w :
  handles_fresh w -> handles_fresh (listener_timing options w).
Proof.
  intros H%(fresh_feedThrottle options). unfold listener_timing.
  destruct (bool_decide _ && _); [| done]. by apply fresh_setMaxDelay.
Qed.

Lemma fresh_listener options args w :
  handles_fresh w -> handles_fresh (listener options args w).
Proof.
  apply (listener_preserves options args handles_fresh (fun _ => handles_fresh)).
  - intros w1 _ H. revert H. by apply fresh_same.
  - intros f pa w1 _ H. revert H.
    pose proof (timer_core_run_hook
      (f (hookState (set_includeLastEventOnSplitting false (set_splitEventChain false w1)))
         (context (st (set_includeLastEventOnSplitting false (set_splitEventChain false w1))))
         (cur (set_includeLastEventOnSplitting false (set_splitEventChain false w1))))
      (set_includeLastEventOnSplitting false (set_splitEventChain false w1)))
      as Hc.
    unfold listener_control. cbn [snd].
    destruct (run_hook_shape
      (f (hookState (set_includeLastEventOnSplitting false (set_splitEventChain false w1)))
         (context (st (set_includeLastEventOnSplitting false (set_splitEventChain false w1))))
         (cur (set_includeLastEventOnSplitting false (set_splitEventChain false w1))))
      (set_includeLastEventOnSplitting false (set_splitEventChain false w1)))
      as (b1 & b2 & hs & ->).
    by apply fresh_same.
  - intros pa w1 H. unfold listener_split. apply fresh_call_bounce.
    destruct (negb _); [| done]. revert H. by apply fresh_same.
  - intros pa w1 H. by apply fresh_listener_timing.
Qed.

Lemma fresh_fire options h w :
  handles_fresh w -> handles_fresh (fire options h w).
Proof.
  intros H. unfold fire. destruct (list_find _ _) as [[i t]|]; [| done].
  pose proof (fresh_clearTimeoutFunc h w H) as H1.
  destruct (timerFunc t).
  - unfold feedThrottleTimeoutFunc.
    assert (handles_fresh (set_throttleHandle None (clearTimeoutFunc h w)))
      as H2 by (revert H1; by apply fresh_same).
    destruct (throttleTime _).
    + destruct (0 <? _); [| by apply fresh_call_bounce].
      by apply fresh_createThrottleTimeout.
    + by apply fresh_call_bounce.
  - unfold maxDelayTimeoutFunc. apply fresh_call_bounce.
    revert H1. by apply fresh_same.
Qed.

Lemma fresh_run options (h0 : HS) t0 os :
  handles_fresh (run options os (throttledDebounce h0 t0)).
Proof.
  apply (run_preserves options handles_fresh).
  - apply (step_preserves options handles_fresh).
    + apply fresh_listener.
    + apply fresh_fire.
    + intros t w. by apply fresh_same.
    + apply fresh_triggerBounce.
    + intros w _ H. apply fresh_reset. revert H. by apply fresh_same.
    + intros w _. by apply fresh_same.
    + intros g inc w. pose proof (timer_core_split g inc w) as Hc.
      injection Hc as Ht _ _. apply fresh_same; [done|].
      unfold split. destruct (bool_decide _ && _); [| done]. by destruct inc.
  - split; [constructor|]. intros t Ht. by apply not_elem_of_nil in Ht.
Qed.

(** Two pending timers with the same handle are the same timer. *)
Lemma fresh_same_handle w t1 t2 :
  handles_fresh w -> t1 ∈ timers w -> t2 ∈ timers w ->
  timerHandle t1 = timerHandle t2 -> t1 = t2.
Proof.
  intros [Hnd _] H1 H2 Hh.
  apply list_elem_of_lookup in H1 as [i1 Hi1].
  apply list_elem_of_lookup in H2 as [i2 Hi2].
  assert (i1 = i2) as ->.
  { eapply NoDup_lookup; [exact Hnd | |].
    - by rewrite list_lookup_fmap, Hi1.
    - by rewrite list_lookup_fmap, Hi2, Hh. }
  congruence.
Qed.

(** X7.  On an instance reached by any sequence of operations, for each of the
    two timer functions either no timer is pending, or exactly one is, and
    it is the one the handle variable of that function refers to. *)
Theorem one_pending_timer_per_function options (h0 : HS) t0 os f :
  let w := run options os (throttledDebounce h0 t0) in
  pending f w = [] \/
  exists t, pending f w = [t] /\ handle_var f w = Some (timerHandle t).
Proof.
  intros w.
  assert (handles_fresh w) as Hfr by apply fresh_run.
  assert (tracked w) as Htr by apply tracked_run, tracked_throttledDebounce.
  clearbody w.
  assert (forall t, t ∈ pending f w ->
            t ∈ timers w /\ handle_var f w = Some (timerHandle t)) as Hin.
  { intros t [Hf Ht]%list_elem_of_filter. split; [done|].
    destruct (Htr t Ht) as [[Hk Hh]|[Hk Hh]]; rewrite <- Hf, Hk; done. }
  destruct (pending f w) as [| t1 [| t2 l]] eqn:Hp; [by left | right | exfalso].
  - exists t1. split; [done|]. apply Hin. by left.
  - destruct (Hin t1) as [H1 E1]; [by left|].
    destruct (Hin t2) as [H2 E2]; [right; by left|].
    assert (t1 = t2) as <-.
    { apply (fresh_same_handle w); [done..|]. congruence. }
    assert (NoDup (pending f w)) as Hnd.
    { unfold pending. apply NoDup_filter.
      eapply NoDup_fmap_1. apply Hfr. }
    rewrite Hp in Hnd. apply NoDup_cons in Hnd as [Hnotin _].
    apply Hnotin. by left.
Qed.

(** ** The throttle timer and the throttle deadline *)

Lemma deadline_same w w' :
  timers w' = timers w -> throttleTime (st w') = throttleTime (st w) ->
  deadline_ok w -> deadline_ok w'.
Proof. unfold deadline_ok. by intros -> ->. Qed.

Lemma deadline_no_timers w : timers w = [] -> deadline_ok w.
Proof. intros H t Ht. rewrite H in Ht. by apply not_elem_of_nil in Ht. Qed.

Lemma sound_call_bounce trig w :
  tracked w /\ deadline_ok w ->
  tracked (snd (call_bounce trig w)) /\ deadline_ok (snd (call_bounce trig w)).
Proof.
  intros [Htr Hd].
  destruct (call_bounce_frame trig w) as [-> | (x & -> & Hc & _)]; [done|].
  assert (tracked x) as Hx by by apply (tracked_same w x).
  split; [by apply tracked_reset|]. by apply deadline_no_timers, timers_reset.
Qed.

Lemma sound_triggerBounce trig w :
  tracked w /\ deadline_ok w ->
  tracked (snd (triggerBounce trig w)) /\
  deadline_ok (snd (triggerBounce trig w)).
Proof.
  intros [Htr Hd].
  destruct (triggerBounce_frame trig w) as [-> | (x & -> & Hc & _)]; [done|].
  assert (tracked x) as Hx by by apply (tracked_same w x).
  split; [by apply tracked_reset|]. by apply deadline_no_timers, timers_reset.
Qed.

(** What [overrideTime || throttleWait] comes to for a positive time left. *)
Lemma rearm_delay wait left :
  0 < left ->
  (if Z.min wait left =? 0 then wait else Z.min wait left) = Z.min wait left.
Proof. intros H. destruct (Z.eqb_spec (Z.min wait left) 0); lia. Qed.

Lemma sound_feedThrottle options w :
  tracked w /\ deadline_ok w ->
  tracked (feedThrottle options w) /\ deadline_ok (feedThrottle options w).
Proof.
  intros [Htr Hd]. split; [by apply tracked_feedThrottle|].
  unfold feedThrottle. destruct (throttleHandle (st w)) as [h|] eqn:Hh.
  - destruct (0 <? passedTime options w) eqn:Hp;
      [| by apply sound_call_bounce].
    apply Z.ltb_lt in Hp. intros t Ht Hf.
    destruct (Hd t Ht Hf) as (d & Hd1 & Hd2).
    exists (d + passedTime options w). cbn. rewrite Hd1. split; [done | lia].
  - intros t Ht Hf. exists (now w + throttleWait options). split; [done|].
    unfold createThrottleTimeout in Ht. cbn in Ht.
    apply elem_of_app in Ht as [Ht | Ht%list_elem_of_singleton].
    + destruct (Htr t Ht) as [[_ ?]|[? _]]; congruence.
    + subst t. cbn. lia.
Qed.

Lemma sound_listener_timing options w :
  tracked w /\ deadline_ok w ->
  tracked (listener_timing options w) /\
  deadline_ok (listener_timing options w).
Proof.
  intros H. split; [apply tracked_listener_timing, H|].
  apply (sound_feedThrottle options) in H as [_ Hd].
  unfold listener_timing. destruct (bool_decide _ && _); [| done].
  intros t Ht Hf. unfold setMaxDelay in Ht. cbn in Ht.
  apply elem_of_app in Ht as [Ht | Ht%list_elem_of_singleton].
  - by apply Hd.
  - by subst t.
Qed.

Lemma sound_listener options args w :
  tracked w /\ deadline_ok w ->
  tracked (listener options args w) /\ deadline_ok (listener options args w).
Proof.
  apply (listener_preserves options args
           (fun w => tracked w /\ deadline_ok w)
           (fun _ w => tracked w /\ deadline_ok w)).
  - intros w1 _ [Htr Hd]. split.
    + revert Htr. by apply tracked_same.
    + revert Hd. by apply deadline_same.
  - intros f pa w1 _ [Htr Hd]. unfold listener_control. cbn [snd].
    destruct (run_hook_shape
      (f (hookState (set_includeLastEventOnSplitting false (set_splitEventChain false w1)))
         (context (st (set_includeLastEventOnSplitting false (set_splitEventChain false w1))))
         (cur (set_includeLastEventOnSplitting false (set_splitEventChain false w1))))
      (set_includeLastEventOnSplitting false (set_splitEventChain false w1)))
      as (b1 & b2 & hs & ->).
    split.
    + revert Htr. by apply tracked_same.
    + revert Hd. by apply deadline_same.
  - intros pa w1 [Htr Hd]. unfold listener_split. apply sound_call_bounce.
    destruct (negb _); [| done]. split.
    + revert Htr. by apply tracked_same.
    + revert Hd. by apply deadline_same.
  - intros pa w1. apply sound_listener_timing.
Qed.

(** The timer that has fired is no longer pending, and its handle variable is
    emptied: the timers left are those of the other function. *)
Lemma cleared_throttle w t :
  tracked w -> t ∈ timers w -> timerFunc t = feedThrottleTimeout ->
  let w1 := set_throttleHandle None (clearTimeoutFunc (timerHandle t) w) in
  tracked w1 /\
  forall t', t' ∈ timers w1 -> timerFunc t' = maxDelayTimeout.
Proof.
  intros Htr Ht Hf w1.
  assert (throttleHandle (st w) = Some (timerHandle t)) as Hth.
  { destruct (Htr t Ht) as [[_ ?]|[? _]]; congruence. }
  assert (forall t', t' ∈ timers w1 ->
            timerFunc t' = maxDelayTimeout /\
            maxDelayHandle (st w) = Some (timerHandle t')) as Hrest.
  { intros t' Ht'. cbn in Ht'. apply list_elem_of_filter in Ht' as [Hne Hin].
    destruct (Htr t' Hin) as [[_ ?]|[? ?]]; [congruence | done]. }
  split.
  - intros t' Ht'. right. by apply Hrest.
  - intros t' Ht'. by apply Hrest.
Qed.

Lemma cleared_maxDelay w t :
  tracked w -> t ∈ timers w -> timerFunc t = maxDelayTimeout ->
  tracked (set_maxDelayHandle None (clearTimeoutFunc (timerHandle t) w)).
Proof.
  intros Htr Ht Hf.
  assert (maxDelayHandle (st w) = Some (timerHandle t)) as Hmd.
  { destruct (Htr t Ht) as [[? _]|[_ ?]]; congruence. }
  intros t' Ht'. cbn in Ht'. apply list_elem_of_filter in Ht' as [Hne Hin].
  destruct (Htr t' Hin) as [[? ?]|[_ ?]]; [by left | congruence].
Qed.

Lemma fire_found options h w i t :
  list_find (fun t' => timerHandle t' = h) (timers w) = Some (i, t) ->
  t ∈ timers w /\ timerHandle t = h /\
  fire options h w =
    match timerFunc t with
    | feedThrottleTimeout =>
        feedThrottleTimeoutFunc options (clearTimeoutFunc h w)
    | maxDelayTimeout => maxDelayTimeoutFunc (clearTimeoutFunc h w)
    end.
Proof.
  intros Hfind. unfold fire. rewrite Hfind.
  apply list_find_Some in Hfind as (Hi & Hh & _).
  split; [by eapply list_elem_of_lookup_2|]. done.
Qed.

Lemma sound_fire options h w :
  tracked w /\ deadline_ok w ->
  tracked (fire options h w) /\ deadline_ok (fire options h w).
Proof.
  intros [Htr Hd]. split; [by apply tracked_fire|].
  destruct (list_find (fun t' => timerHandle t' = h) (timers w))
    as [[i t]|] eqn:Hfind; [| by unfold fire; rewrite Hfind].
  destruct (fire_found options h w i t Hfind) as (Hin & <- & ->).
  destruct (timerFunc t) eqn:Hf.
  - destruct (cleared_throttle w t Htr Hin Hf) as [Htr1 Hrest].
    unfold feedThrottleTimeoutFunc.
    set (w1 := set_throttleHandle None (clearTimeoutFunc (timerHandle t) w)) in *.
    assert (deadline_ok w1) as Hd1.
    { intros t' Ht' Hf'. rewrite (Hrest t' Ht') in Hf'. done. }
    destruct (throttleTime (st w1)) as [d|] eqn:Hd2;
      [| by apply sound_call_bounce].
    destruct (0 <? d - now w1) eqn:Hleft; [| by apply sound_call_bounce].
    apply Z.ltb_lt in Hleft.
    intros t' Ht' Hf'. exists d. split; [done|].
    unfold createThrottleTimeout in Ht'. cbn in Ht'.
    apply elem_of_app in Ht' as [Ht' | Ht'%list_elem_of_singleton].
    + rewrite (Hrest t') in Hf'; done.
    + subst t'. cbn. rewrite rearm_delay by done.
      change (now (clearTimeoutFunc (timerHandle t) w)) with (now w1). lia.
  - apply sound_call_bounce. split; [by apply cleared_maxDelay|].
    intros t' Ht' Hf'. cbn in Ht'.
    apply list_elem_of_filter in Ht' as [_ Ht']. by apply Hd.
Qed.

Lemma sound_run options (h0 : HS) t0 os :
  tracked (run options os (throttledDebounce h0 t0)) /\
  deadline_ok (run options os (throttledDebounce h0 t0)).
Proof.
  apply (run_preserves options (fun w => tracked w /\ deadline_ok w)).
  - apply (step_preserves options (fun w => tracked w /\ deadline_ok w)).
    + apply sound_listener.
    + apply sound_fire.
    + intros t w [Htr Hd]. split.
      * revert Htr. by apply tracked_same.
      * revert Hd. by apply deadline_same.
    + apply sound_triggerBounce.
    + intros w _ [Htr Hd].
      assert (tracked (set_cancelled true w)) as Htr'
        by (revert Htr; by apply tracked_same).
      split; [by apply tracked_reset|].
      by apply deadline_no_timers, timers_reset.
    + intros w _ [Htr Hd]. split.
      * revert Htr. by apply tracked_same.
      * revert Hd. by apply deadline_same.
    + intros g inc w [Htr Hd].
      assert (snd (split g inc w) = w \/
              exists b1 b2, snd (split g inc w) =
                set_includeLastEventOnSplitting b2 (set_splitEventChain b1 w))
        as [-> | (b1 & b2 & ->)]; [| done |].
      { unfold split. destruct (bool_decide _ && _); [| by left].
        right. destruct inc; [by exists true, true|].
        exists true, (includeLastEventOnSplitting (st w)). by open_world w. }
      split.
      * revert Htr. by apply tracked_same.
      * revert Hd. by apply deadline_same.
  - split; [apply tracked_throttledDebounce | by apply deadline_no_timers].
Qed.

(** X8.  On an instance reached by any sequence of operations, a pending
    throttle timer is never due after the throttle deadline: the deadline is
    set, and the time at which the timer is due is at most the deadline. *)
Theorem throttle_timer_due_by_deadline options (h0 : HS) t0 os t :
  let w := run options os (throttledDebounce h0 t0) in
  t ∈ timers w ->
  timerFunc t = feedThrottleTimeout ->
  exists d, throttleTime (st w) = Some d /\ timerDue t <= d.
Proof. intros w. apply sound_run. Qed.

(** ** What a timer does when it fires *)

Lemma fire_pending options w t :
  handles_fresh w -> t ∈ timers w ->
  fire options (timerHandle t) w =
    match timerFunc t with
    | feedThrottleTimeout =>
        feedThrottleTimeoutFunc options (clearTimeoutFunc (timerHandle t) w)
    | maxDelayTimeout =>
        maxDelayTimeoutFunc (clearTimeoutFunc (timerHandle t) w)
    end.
Proof.
  intros Hfr Ht.
  destruct (list_find_elem_of (fun t' => timerHandle t' = timerHandle t)
              (timers w) t Ht eq_refl) as [[i t'] Hfind].
  destruct (fire_found options _ w i t' Hfind) as (Hin & Hh & ->).
  by rewrite (fresh_same_handle w t' t Hfr Hin Ht Hh).
Qed.

Lemma filter_none {A} (P : A -> Prop) `{!forall x, Decision (P x)} (l : list A) :
  (forall x, x ∈ l -> ~ P x) -> filter P l = [].
Proof.
  intros Hall. apply elem_of_nil_inv. intros x [HP Hx]%list_elem_of_filter.
  by apply (Hall x).
Qed.

(** X9.  On an instance reached by any sequence of operations and not cancelled,
    when the pending throttle timer fires: before the throttle deadline [d]
    nothing is committed and nothing changes but the timer, which is armed
    again to be due at [min (now + throttleWait) d]; at the deadline or
    after it the chain is committed with trigger [throttle] and no timer is
    left pending. *)
Theorem throttle_timer_fires options (h0 : HS) t0 os t :
  let w := run options os (throttledDebounce h0 t0) in
  cancelled (st w) = false ->
  t ∈ timers w ->
  timerFunc t = feedThrottleTimeout ->
  exists d,
    throttleTime (st w) = Some d /\
    (now w < d ->
       calls (fire options (timerHandle t) w) = calls w /\
       context (st (fire options (timerHandle t) w)) = context (st w) /\
       heap (fire options (timerHandle t) w) = heap w /\
       throttleTime (st (fire options (timerHandle t) w)) = Some d /\
       pending feedThrottleTimeout (fire options (timerHandle t) w) =
         [mkTimer (nextHandle w) feedThrottleTimeout
            (Z.min (now w + throttleWait options) d)]) /\
    (d <= now w ->
       calls (fire options (timerHandle t) w) =
         calls w ++
         [mkCall (now w) (context (st w)) (committed throttle (cur w))] /\
       context (st (fire options (timerHandle t) w)) = nextCtx w /\
       timers (fire options (timerHandle t) w) = []).
Proof.
  intros w Hcan Ht Hf.
  assert (ready w) as Hr by apply ready_run, ready_throttledDebounce.
  assert (handles_fresh w) as Hfr by apply fresh_run.
  destruct (sound_run options h0 t0 os) as [Htr Hdl]. fold w in Htr, Hdl.
  clearbody w.
  destruct (Hdl t Ht Hf) as (d & Hd & _). exists d. split; [done|].
  rewrite (fire_pending options w t Hfr Ht), Hf.
  destruct (cleared_throttle w t Htr Ht Hf) as [Htr1 Hrest].
  unfold feedThrottleTimeoutFunc.
  set (w1 := set_throttleHandle None (clearTimeoutFunc (timerHandle t) w)) in *.
  change (throttleTime (st w1)) with (throttleTime (st w)). rewrite Hd.
  change (now w1) with (now w).
  split.
  - intros Hlt. rewrite (proj2 (Z.ltb_lt 0 (d - now w))) by lia.
    split; [done|]. split; [done|]. split; [done|]. split; [done|].
    unfold pending, createThrottleTimeout. cbn.
    rewrite filter_app, (filter_none _ (timers w1)).
    + rewrite filter_cons_True by done. rewrite filter_nil. cbn.
      rewrite rearm_delay by lia. do 2 f_equal. lia.
    + intros t' Ht' Hf'. rewrite (Hrest t' Ht') in Hf'. done.
  - intros Hle. rewrite (proj2 (Z.ltb_ge 0 (d - now w))) by lia.
    assert (ready w1) as Hr1 by (revert Hr; by apply ready_same).
    rewrite (call_bounce_ready throttle w1 Hr1 Hcan). cbn [snd].
    split; [done|]. split; [done|]. by apply timers_bounced.
Qed.

(** X10.  On an instance reached by any sequence of operations and not cancelled,
    when the pending max-delay timer fires the chain is committed with
    trigger [debounce], whatever the throttle deadline, and no timer is left
    pending. *)
Theorem maxDelay_timer_fires options (h0 : HS) t0 os t :
  let w := run options os (throttledDebounce h0 t0) in
  cancelled (st w) = false ->
  t ∈ timers w ->
  timerFunc t = maxDelayTimeout ->
  calls (fire options (timerHandle t) w) =
    calls w ++
    [mkCall (now w) (context (st w)) (committed debounce (cur w))] /\
  context (st (fire options (timerHandle t) w)) = nextCtx w /\
  heap (fire options (timerHandle t) w) !! nextCtx w = Some freshContext /\
  timers (fire options (timerHandle t) w) = [].
Proof.
  intros w Hcan Ht Hf.
  assert (ready w) as Hr by apply ready_run, ready_throttledDebounce.
  assert (handles_fresh w) as Hfr by apply fresh_run.
  assert (tracked w) as Htr by apply tracked_run, tracked_throttledDebounce.
  clearbody w.
  rewrite (fire_pending options w t Hfr Ht), Hf.
  pose proof (cleared_maxDelay w t Htr Ht Hf) as Htr1.
  unfold maxDelayTimeoutFunc.
  set (w1 := set_maxDelayHandle None (clearTimeoutFunc (timerHandle t) w)) in *.
  assert (ready w1) as Hr1 by (revert Hr; by apply ready_same).
  rewrite (call_bounce_ready debounce w1 Hr1 Hcan). cbn [snd].
  split; [done|]. split; [done|]. split; [apply lookup_insert_eq|].
  by apply timers_bounced.
Qed.

(** ** The delays the timers are armed with *)

Lemma armings_call_bounce trig w :
  armings (snd (call_bounce trig w)) = armings w.
Proof.
  destruct (call_bounce_frame trig w) as [-> | (x & -> & _ & _ & Hx & _)];
    [done|]. by rewrite reset_eq.
Qed.

Lemma armings_triggerBounce trig w :
  armings (snd (triggerBounce trig w)) = armings w.
Proof.
  destruct (triggerBounce_frame trig w) as [-> | (x & -> & _ & _ & Hx & _)];
    [done|]. by rewrite reset_eq.
Qed.

Lemma armed_createThrottleTimeout options ot w :
  (forall left, ot = Some left -> 0 < left) ->
  Forall (arming_ok options) (armings w) ->
  Forall (arming_ok options) (armings (createThrottleTimeout options ot w)).
Proof.
  intros Hot H. unfold createThrottleTimeout. cbn.
  apply Forall_app. split; [done|]. apply Forall_singleton.
  unfold arming_ok. cbn. destruct ot as [left|]; cbn; [| lia].
  rewrite rearm_delay by auto. specialize (Hot left eq_refl). lia.
Qed.

Lemma armed_feedThrottle options w :
  Forall (arming_ok options) (armings w) ->
  Forall (arming_ok options) (armings (feedThrottle options w)).
Proof.
  intros H. unfold feedThrottle. destruct (throttleHandle (st w)).
  - destruct (0 <? _); [done | by rewrite armings_call_bounce].
  - by apply armed_createThrottleTimeout.
Qed.

Lemma armed_listener_timing options w :
  Forall (arming_ok options) (armings w) ->
  Forall (arming_ok options) (armings (listener_timing options w)).
Proof.
  intros H%(armed_feedThrottle options). unfold listener_timing.
  destruct (bool_decide (maxDelayHandle _ = None)); cbn [andb]; [| done].
  case_bool_decide as Hmax; [| done].
  unfold setMaxDelay. cbn. apply Forall_app. split; [done|].
  apply Forall_singleton. unfold arming_ok. cbn.
  by destruct (maxDelay options).
Qed.

Lemma armed_listener options args w :
  Forall (arming_ok options) (armings w) ->
  Forall (arming_ok options) (armings (listener options args w)).
Proof.
  apply (listener_preserves options args
           (fun w => Forall (arming_ok options) (armings w))
           (fun _ w => Forall (arming_ok options) (armings w))).
  - by intros w1 _ H.
  - intros f pa w1 _ H. unfold listener_control. cbn [snd].
    destruct (run_hook_shape
      (f (hookState (set_includeLastEventOnSplitting false (set_splitEventChain false w1)))
         (context (st (set_includeLastEventOnSplitting false (set_splitEventChain false w1))))
         (cur (set_includeLastEventOnSplitting false (set_splitEventChain false w1))))
      (set_includeLastEventOnSplitting false (set_splitEventChain false w1)))
      as (b1 & b2 & hs & ->). exact H.
  - intros pa w1 H. unfold listener_split. rewrite armings_call_bounce.
    by destruct (negb _).
  - intros pa w1. apply armed_listener_timing.
Qed.

Lemma armed_fire options h w :
  Forall (arming_ok options) (armings w) ->
  Forall (arming_ok options) (armings (fire options h w)).
Proof.
  intros H. unfold fire. destruct (list_find _ _) as [[i t]|]; [| done].
  destruct (timerFunc t).
  - unfold feedThrottleTimeoutFunc. destruct (throttleTime _) as [d|].
    + destruct (0 <? _) eqn:Hleft; [| by rewrite armings_call_bounce].
      apply Z.ltb_lt in Hleft. apply armed_createThrottleTimeout; [| done].
      by intros left [= <-].
    + by rewrite armings_call_bounce.
  - unfold maxDelayTimeoutFunc. by rewrite armings_call_bounce.
Qed.

(** X11.  On an instance reached by any sequence of operations, every throttle
    timer was armed for at most [throttleWait], and for a positive time
    when [throttleWait] is positive; and a max-delay timer was armed only
    with [maxDelay] given, and for exactly that delay. *)
Theorem timers_armed_within_bounds options (h0 : HS) t0 os :
  Forall (arming_ok options)
    (armings (run options os (throttledDebounce h0 t0))).
Proof.
  apply (run_preserves options
           (fun w => Forall (arming_ok options) (armings w))); [| constructor].
  apply (step_preserves options
           (fun w => Forall (arming_ok options) (armings w))).
  - apply armed_listener.
  - apply armed_fire.
  - by intros t w.
  - intros trig w H. by rewrite armings_triggerBounce.
  - intros w _ H. by rewrite reset_eq.
  - by intros w _.
  - intros g inc w H. unfold split. destruct (bool_decide _ && _); [| done].
    by destruct inc.
Qed.

(** ** The content of the contexts *)














(** ** A bounce without force *)












(** ** No event is lost or counted twice *)

Lemma seen_core w w' : core w' = core w -> events_seen w' = events_seen w.
Proof.
  unfold core, events_seen, delivered, cur. intros [= -> -> _ ->]. done.
Qed.

Lemma seen_bounced trig c w :
  events_seen (bounced trig c w) = delivered w + callCount c.
Proof.
  unfold events_seen.
  assert (heap (bounced trig c w) !! context (st (bounced trig c w))
          = Some freshContext) as Hf by apply lookup_insert_eq.
  rewrite (cur_lookup _ _ Hf). unfold delivered. cbn.
  rewrite foldr_app. cbn.
  generalize (calls w). intros l. induction l as [| e l IH]; cbn; lia.
Qed.

Lemma seen_call_bounce trig w :
  ready w -> events_seen (snd (call_bounce trig w)) = events_seen w.
Proof.
  intros Hr. destruct (cancelled (st w)) eqn:Hcan.
  - unfold call_bounce, contextBounce. case_bool_decide; [| done].
    by rewrite triggerBounce_cancelled.
  - rewrite (call_bounce_ready trig w Hr Hcan). cbn [snd].
    by rewrite seen_bounced.
Qed.

Lemma seen_triggerBounce trig w :
  ready w -> events_seen (snd (triggerBounce trig w)) = events_seen w.
Proof.
  intros Hr. destruct (cancelled (st w)) eqn:Hcan.
  - by rewrite triggerBounce_cancelled.
  - rewrite (triggerBounce_ready trig w Hr Hcan). cbn [snd].
    by rewrite seen_bounced.
Qed.

Lemma seen_feedThrottle options w :
  ready w -> events_seen (feedThrottle options w) = events_seen w.
Proof.
  intros Hr. unfold feedThrottle. destruct (throttleHandle (st w)).
  - destruct (0 <? _); [by apply seen_core | by apply seen_call_bounce].
  - by apply seen_core.
Qed.

Lemma seen_listener_timing options w :
  ready w -> events_seen (listener_timing options w) = events_seen w.
Proof.
  intros Hr. rewrite <- (seen_feedThrottle options w Hr).
  unfold listener_timing. destruct (bool_decide _ && _); [| done].
  by apply seen_core.
Qed.

Lemma includeLast_listener_split pa w :
  includeLastEventOnSplitting (st (listener_split pa w))
  = includeLastEventOnSplitting (st w).
Proof.
  unfold listener_split.
  set (wx := if negb _ then _ else w).
  assert (includeLastEventOnSplitting (st wx)
          = includeLastEventOnSplitting (st w)) as <-
    by (subst wx; by destruct (negb _)).
  clearbody wx. unfold call_bounce, contextBounce.
  case_bool_decide; [| done]. unfold triggerBounce.
  destruct (negb _ && negb _); [| done]. cbn [snd]. rewrite reset_eq. cbn.
  by destruct (arguments _).
Qed.

(** An event that reaches an instance that is not cancelled is accounted for
    once, whatever the control function and the timers do with it. *)
Lemma seen_listener_fuel options n args w w' :
  listener_fuel options n args w = Some w' ->
  ready w -> cancelled (st w) = false ->
  events_seen w' = events_seen w + 1.
Proof.
  revert w w'. induction n as [| n IH]; intros w w'; [done|].
  rewrite listener_fuel_S. intros Hrun Hr Hcan. rewrite Hcan in Hrun.
  destruct (Hr) as (_ & _ & [_ [c Hc]] & _).
  destruct (ready_listener_count args w Hr) as [Hr1 Hg1].
  rewrite (listener_count_eq args w c Hc) in Hrun, Hr1, Hg1.
  cbn [snd] in Hr1, Hg1.
  set (w1 := set_heap _ _) in *.
  assert (heap w1 !! context (st w1) = Some (counted args c)) as Hc1
    by apply lookup_insert_eq.
  assert (events_seen w1 = events_seen w + 1) as Hs1.
  { unfold events_seen. rewrite (cur_lookup _ _ Hc1), (cur_lookup _ _ Hc).
    change (delivered w1) with (delivered w). cbn. lia. }
  destruct (controlFunc options) as [f|].
  2:{ injection Hrun as <-. by rewrite seen_listener_timing. }
  pose proof (core_listener_control f w1) as Hcore.
  assert (ready_core (snd (listener_control f w1)) = ready_core w1) as Hrc.
  { unfold listener_control. cbn [snd]. by rewrite ready_core_run_hook. }
  assert (cancelled (st (snd (listener_control f w1))) = false) as Hcan2.
  { unfold listener_control. cbn [snd].
    destruct (run_hook_shape
      (f (hookState (set_includeLastEventOnSplitting false (set_splitEventChain false w1)))
         (context (st (set_includeLastEventOnSplitting false (set_splitEventChain false w1))))
         (cur (set_includeLastEventOnSplitting false (set_splitEventChain false w1))))
      (set_includeLastEventOnSplitting false (set_splitEventChain false w1)))
      as (b1 & b2 & hs & ->). exact Hcan. }
  destruct (listener_control f w1) as [prev w2]. cbn [snd] in Hcore, Hrc, Hcan2.
  assert (ready w2) as Hr2 by by apply (ready_same w1 w2).
  assert (events_seen w2 = events_seen w + 1) as Hs2
    by (by rewrite (seen_core w1 w2)).
  assert (gotAnyEvent (st w2) = true) as Hg2.
  { unfold ready_core in Hrc. injection Hrc as _ _ _ _ _ ->. done. }
  assert (heap w2 !! context (st w2) = Some (counted args c)) as Hc2.
  { unfold core in Hcore. injection Hcore as -> -> _ _. done. }
  destruct (splitEventChain (st w2) && negb prev).
  2:{ injection Hrun as <-. by rewrite seen_listener_timing. }
  cbv zeta in Hrun. rewrite includeLast_listener_split in Hrun.
  pose proof (ready_listener_split (arguments c) w2 Hg2 Hr2) as Hr3.
  assert (cancelled (st (listener_split (arguments c) w2)) = false) as Hcan3.
  { unfold listener_split. rewrite cancelled_call_bounce. by destruct (negb _). }
  destruct (includeLastEventOnSplitting (st w2)) eqn:Hincl; cbn [negb] in Hrun.
  - injection Hrun as <-. unfold listener_split. rewrite Hincl. cbn [negb].
    by rewrite seen_call_bounce.
  - rewrite (IH _ _ Hrun Hr3 Hcan3). f_equal.
    unfold listener_split. rewrite Hincl. cbn [negb].
    rewrite (upd_cur_present _ w2 _ Hc2).
    set (w3 := set_heap _ w2).
    assert (heap w3 !! context (st w3)
            = Some (with_arguments (arguments c) (counted args c))) as Hc3
      by apply lookup_insert_eq.
    rewrite (upd_cur_present _ w3 _ Hc3).
    set (w4 := set_heap _ w3).
    assert (ready w4) as Hr4.
    { destruct Hr2 as (Hd & Hb & [Hlt _] & _).
      split; [done|]. split; [done|]. split.
      - split; [done|]. cbn. rewrite lookup_insert_eq. by eexists.
      - intros Hg. cbn in Hg. congruence. }
    rewrite (seen_call_bounce control w4 Hr4).
    unfold events_seen.
    assert (heap w4 !! context (st w4)
            = Some (with_callCount (callCount (counted args c) - 1)
                      (with_arguments (arguments c) (counted args c)))) as Hc4
      by apply lookup_insert_eq.
    rewrite (cur_lookup _ _ Hc4), (cur_lookup _ _ Hc).
    change (delivered w4) with (delivered w2).
    change (delivered w2) with (foldr (fun e acc => callCount (callArg e) + acc) 0 (calls w2)).
    unfold core in Hcore. injection Hcore as _ _ _ ->.
    change (foldr (fun e acc => callCount (callArg e) + acc) 0 (calls w1))
      with (delivered w).
    unfold delivered, with_callCount, with_arguments, counted.
    cbn [callCount]. lia.
Qed.

Lemma seen_fire options h w :
  ready w -> events_seen (fire options h w) = events_seen w.
Proof.
  intros Hr. unfold fire. destruct (list_find _ _) as [[i t]|]; [| done].
  destruct (timerFunc t).
  - unfold feedThrottleTimeoutFunc.
    set (w1 := set_throttleHandle None (clearTimeoutFunc h w)).
    assert (ready w1) as Hr1 by (revert Hr; by apply ready_same).
    assert (events_seen w1 = events_seen w) as <- by by apply seen_core.
    destruct (throttleTime _).
    + destruct (0 <? _); [by apply seen_core | by apply seen_call_bounce].
    + by apply seen_call_bounce.
  - unfold maxDelayTimeoutFunc.
    set (w1 := set_maxDelayHandle None (clearTimeoutFunc h w)).
    assert (ready w1) as Hr1 by (revert Hr; by apply ready_same).
    assert (events_seen w1 = events_seen w) as <- by by apply seen_core.
    by apply seen_call_bounce.
Qed.

(** Every event is accounted for once. *)
Lemma seen_run options (h0 : HS) t0 os :
  Forall (fun o => o <> OCancel) os ->
  let w := run options os (throttledDebounce h0 t0) in
  delivered w + callCount (cur w) = listener_calls os.
Proof.
  intros Hos.
  assert (forall w, ready w -> cancelled (st w) = false ->
            events_seen (run options os w) = events_seen w + listener_calls os)
    as Hgen.
  { induction Hos as [| o os Ho _ IH]; intros w Hr Hcan; [cbn; lia|].
    change (run options (o :: os) w) with (run options os (step options w o)).
    assert (cancelled (st (step options w o)) = false /\
            events_seen (step options w o)
              = events_seen w + listener_calls [o]) as [Hcan' Hs].
    { destruct o; cbn [step listener_calls].
      - split; [by rewrite cancelled_listener|].
        eapply seen_listener_fuel; [apply (listener_fuel_enough options 0) | done..].
      - split; [by rewrite cancelled_fire|]. rewrite seen_fire by done. lia.
      - split; [done|]. rewrite (seen_core w) by done. lia.
      - unfold globalBounce. destruct (_ || _); [| split; [done | cbn [snd]; lia]].
        split.
        + destruct (triggerBounce_cases global w)
            as [-> | (x & e & -> & _ & Hx & _)]; [done|].
          cbn [snd]. rewrite reset_eq. cbn. congruence.
        + rewrite seen_triggerBounce by done. lia.
      - done.
      - unfold resume. rewrite Hcan. split; [done | cbn [snd]; lia].
      - split.
        + unfold split. destruct (bool_decide _ && _); [| done].
          by destruct includeCurrent.
        + rewrite (seen_core w); [lia | apply core_split].
      - unfold contextBounce. case_bool_decide; [| split; [done | cbn [snd]; lia]].
        split.
        + destruct (triggerBounce_cases trig w)
            as [-> | (x & e & -> & _ & Hx & _)]; [done|].
          cbn [snd]. rewrite reset_eq. cbn. congruence.
        + rewrite seen_triggerBounce by done. lia. }
    rewrite IH; [| by apply ready_step | done]. rewrite Hs.
    destruct o; cbn [listener_calls]; lia. }
  intros w. subst w. fold (events_seen (run options os (throttledDebounce h0 t0))).
  rewrite Hgen; [| apply ready_throttledDebounce | done].
  assert (events_seen (throttledDebounce (Val:=Val) h0 t0) = 0) as ->; [| lia].
  destruct (ready_throttledDebounce h0 t0) as (_ & _ & _ & Hfresh).
  unfold events_seen. by rewrite (cur_lookup _ _ (Hfresh eq_refl)).
Qed.

(** ** The depth of the listener's calls to itself, exactly *)

(** What a run of the control function leaves in the two flags, from both
    cleared: they tell the first [split] call made through the current
    context. *)
Lemma run_hook_first_split p w :
  splitEventChain (st w) = false ->
  includeLastEventOnSplitting (st w) = false ->
  match first_split (context (st w)) p with
  | Some inc =>
      splitEventChain (st (run_hook p w)) = true /\
      includeLastEventOnSplitting (st (run_hook p w)) = inc
  | None => splitEventChain (st (run_hook p w)) = false
  end.
Proof.
  intros Hs Hi. induction p as [h | g inc k IH]; [done|].
  cbn [first_split]. case_bool_decide as Hg.
  - subst g. rewrite (run_hook_accepted inc k w Hs).
    destruct inc; [done|]. by split.
  - cbn [run_hook]. unfold split.
    rewrite bool_decide_eq_false_2 by done. apply IH.
Qed.

(** X1.  For a control function that does nothing but call [split]: the
    listener calls itself (line 154) at most once inside a call, so with room
    for two levels of calls or more it returns, always with the same result;
    and one level is not enough exactly when the instance is not cancelled,
    the split flag was clear when the call began, and the first [split] call
    that the control function makes through the context it was given is
    [split(false)]. *)
Theorem listener_call_depth options args w :
  (forall n, (2 <= n)%nat ->
     listener_fuel options n args w = Some (listener options args w)) /\
  (listener_fuel options 1 args w = None <->
   cancelled (st w) = false /\
   splitEventChain (st w) = false /\
   exists f,
     controlFunc options = Some f /\
     first_split (context (st w))
       (f (hookState w) (context (st w))
          (cur (snd (listener_count args w)))) = Some false).
Proof.
  split.
  { intros [|[|n]] Hn; [lia | lia |]. apply listener_fuel_enough. }
  rewrite listener_fuel_S.
  destruct (cancelled (st w)) eqn:Hcan.
  { split; [done | by intros [? _]]. }
  assert (context (st (snd (listener_count args w))) = context (st w)
          /\ hookState (snd (listener_count args w)) = hookState w
          /\ splitEventChain (st (snd (listener_count args w)))
             = splitEventChain (st w)) as (Hctx & Hhs & Hsp) by done.
  destruct (listener_count args w) as [pa w1]. cbn [snd] in *.
  destruct (controlFunc options) as [f|] eqn:Hf.
  2: { split; [done | by intros (_ & _ & f & ? & _)]. }
  unfold listener_control.
  set (w0 := set_includeLastEventOnSplitting false
               (set_splitEventChain false w1)).
  change (hookState w0) with (hookState w1).
  change (context (st w0)) with (context (st w1)).
  change (cur w0) with (cur w1).
  rewrite Hctx, Hhs, Hsp.
  set (p := f (hookState w) (context (st w)) (cur w1)).
  pose proof (run_hook_first_split p w0 eq_refl eq_refl) as Hrun.
  change (context (st w0)) with (context (st w1)) in Hrun.
  rewrite Hctx in Hrun. fold p in Hrun.
  cbv zeta.
  destruct (first_split (context (st w)) p) as [inc|] eqn:Hfirst.
  - destruct Hrun as [H1 H2]. rewrite H1. cbn [andb].
    destruct (splitEventChain (st w)).
    + cbn [negb]. split; [done | by intros (_ & ? & _)].
    + cbn [negb]. rewrite includeLast_listener_split, H2.
      destruct inc; cbn [negb listener_fuel].
      * split; [done|]. intros (_ & _ & f' & [= <-] & Hfs).
        fold p in Hfs. congruence.
      * split; [| done]. intros _. split; [done|]. split; [done|].
        by exists f.
  - rewrite Hrun. cbn [andb].
    split; [done|]. intros (_ & _ & f' & [= <-] & Hfs).
    fold p in Hfs. congruence.
Qed.

(** ** User functions that leave the instance alone

    With a callback that observes and a control function that calls [split]
    only, the functions for user code that acts on the instance are the
    functions studied above. *)

Section Observing.

Variable options : Options.
Variable callback : nat -> ChainContext -> World -> World.
Variable hook : option (nat -> ChainContext -> World -> World).
Hypothesis Hcallback : observer callback.
Hypothesis Hhook : split_only options hook.

Lemma triggerBounce_calling_eq trig w :
  triggerBounce_calling callback trig w = triggerBounce trig w.
Proof.
  unfold triggerBounce_calling, triggerBounce.
  destruct (negb _ && negb _); [| done]. cbv zeta. by rewrite Hcallback.
Qed.

Lemma contextBounce_calling_eq g trig w :
  contextBounce_calling callback g trig w = contextBounce g trig w.
Proof.
  unfold contextBounce_calling, contextBounce.
  by rewrite triggerBounce_calling_eq.
Qed.

Lemma call_bounce_calling_eq trig w :
  call_bounce_calling callback trig w = call_bounce trig w.
Proof. apply contextBounce_calling_eq. Qed.

Lemma globalBounce_calling_eq force w :
  globalBounce_calling callback force w = globalBounce force w.
Proof.
  unfold globalBounce_calling, globalBounce.
  by rewrite triggerBounce_calling_eq.
Qed.

Lemma maxDelayTimeoutFunc_calling_eq w :
  maxDelayTimeoutFunc_calling callback w = maxDelayTimeoutFunc w.
Proof.
  unfold maxDelayTimeoutFunc_calling, maxDelayTimeoutFunc.
  by rewrite call_bounce_calling_eq.
Qed.

Lemma feedThrottle_calling_eq w :
  feedThrottle_calling options callback w = feedThrottle options w.
Proof.
  unfold feedThrottle_calling, feedThrottle.
  by rewrite call_bounce_calling_eq.
Qed.

Lemma feedThrottleTimeoutFunc_calling_eq w :
  feedThrottleTimeoutFunc_calling options callback w
  = feedThrottleTimeoutFunc options w.
Proof.
  unfold feedThrottleTimeoutFunc_calling, feedThrottleTimeoutFunc.
  cbv zeta. by rewrite !call_bounce_calling_eq.
Qed.

Lemma listener_timing_calling_eq w :
  listener_timing_calling options callback w = listener_timing options w.
Proof.
  unfold listener_timing_calling, listener_timing.
  by rewrite feedThrottle_calling_eq.
Qed.

Lemma listener_split_calling_eq pa w :
  listener_split_calling callback pa w = listener_split pa w.
Proof.
  unfold listener_split_calling, listener_split.
  by rewrite call_bounce_calling_eq.
Qed.

Lemma listener_fuel_calling_eq n args w :
  listener_fuel_calling options callback hook n args w
  = listener_fuel options n args w.
Proof.
  revert w. induction n as [|n IH]; intros w; [done|].
  rewrite listener_fuel_S. cbn [listener_fuel_calling].
  destruct (cancelled (st w)); [done|].
  destruct (listener_count args w) as [pa w1].
  unfold split_only in Hhook.
  destruct hook as [h|], (controlFunc options) as [f|]; try done.
  - unfold listener_control_calling, listener_control. rewrite Hhook.
    unfold hook_of. cbv zeta.
    set (w2 := run_hook _ _).
    change (hookState (set_includeLastEventOnSplitting false
                         (set_splitEventChain false w1)))
      with (hookState w1) in w2.
    fold w2. rewrite listener_split_calling_eq, IH.
    by rewrite listener_timing_calling_eq.
  - by rewrite listener_timing_calling_eq.
Qed.

Lemma fire_calling_eq h w :
  fire_calling options callback h w = fire options h w.
Proof.
  unfold fire_calling, fire.
  destruct (list_find _ _) as [[i t]|]; [| done].
  destruct (timerFunc t);
    [apply feedThrottleTimeoutFunc_calling_eq
    | apply maxDelayTimeoutFunc_calling_eq].
Qed.

Lemma step_calling_eq n w o :
  (2 <= n)%nat ->
  step_calling options callback hook n w o = Some (step options w o).
Proof.
  intros Hn. destruct o; cbn [step_calling step].
  - rewrite listener_fuel_calling_eq.
    destruct n as [|[|n]]; [lia | lia |]. apply listener_fuel_enough.
  - by rewrite fire_calling_eq.
  - done.
  - by rewrite globalBounce_calling_eq.
  - done.
  - done.
  - done.
  - by rewrite contextBounce_calling_eq.
Qed.

Lemma run_calling_eq n os w :
  (2 <= n)%nat ->
  run_calling options callback hook n os w = Some (run options os w).
Proof.
  intros Hn. revert w. induction os as [|o os IH]; intros w; [done|].
  cbn [run_calling]. rewrite step_calling_eq by done. apply IH.
Qed.

End Observing.

(** X2.  On an instance whose control function does nothing but call [split]
    and whose callback calls none of the returned functions: whatever the
    state of the instance, one operation (a listener call with the [split]
    calls the control function makes in it, a timer firing, a call of
    [bounce], [cancel], [resume] or through a kept reference) invokes the
    callback at most once. *)
Theorem one_callback_per_operation options callback hook n w o :
  observer callback ->
  split_only options hook ->
  (2 <= n)%nat ->
  exists w',
    step_calling options callback hook n w o = Some w' /\
    (calls w' = calls w \/ exists e, calls w' = calls w ++ [e]).
Proof.
  intros Hcb Hh Hn. exists (step options w o).
  split; [by apply step_calling_eq | apply one_call_step].
Qed.

(** X6.  On an instance whose control function does nothing but call [split]
    and whose callback calls none of the returned functions, so that [cancel]
    is called between operations only: a cancelled instance, reached by any
    sequence of operations, is inert.  As long as [resume] is not called,
    whatever else is (listener calls, timer firings, [bounce] with or without
    force, [cancel], calls through kept references), the callback is not
    invoked, no timer is pending or armed, and the context objects are left
    as they are. *)
Theorem cancelled_instance_inert options callback hook n (h0 : HS) t0 os more :
  observer callback ->
  split_only options hook ->
  (2 <= n)%nat ->
  Forall (fun o => o <> OResume) more ->
  exists w,
    run_calling options callback hook n os (throttledDebounce h0 t0) = Some w /\
    (cancelled (st w) = true ->
     exists w',
       run_calling options callback hook n more w = Some w' /\
       cancelled (st w') = true /\
       calls w' = calls w /\
       timers w' = [] /\
       armings w' = armings w /\
       context (st w') = context (st w) /\
       heap w' = heap w).
Proof.
  intros Hcb Hh Hn Hmore. eexists. split; [by apply run_calling_eq|].
  intros Hcan. eexists. split; [by apply run_calling_eq|].
  by apply cancelled_inert.
Qed.

(** X14.  On an instance whose callback calls none of the returned functions
    while it runs and whose control function does nothing but call [split]:
    from a new instance, through any sequence of operations in which [cancel]
    is not called, every event is accounted for exactly once: the call counts
    handed to the callback so far and the call count of the current context
    add up to the number of listener calls. *)
Theorem events_conserved options callback hook n (h0 : HS) t0 os :
  observer callback ->
  split_only options hook ->
  (2 <= n)%nat ->
  Forall (fun o => o <> OCancel) os ->
  exists w,
    run_calling options callback hook n os (throttledDebounce h0 t0) = Some w /\
    delivered w + callCount (cur w) = listener_calls os.
Proof.
  intros Hcb Hh Hn Hos. eexists. split; [by apply run_calling_eq|].
  by apply seen_run.
Qed.

(** X15.  On an instance whose callback calls none of the returned functions
    while it runs and whose control function does nothing but call [split]:
    whatever the options and the sequence of listener calls, timer firings,
    clock readings, [bounce], [cancel] and [resume] calls and calls through
    kept [split] and [contextBounce] references, the callback is never
    invoked twice for the same chain context; and a context the callback has
    been invoked for keeps, through every further sequence of operations,
    the content the callback saw, is not the current context any more, and
    the [split] and [contextBounce] closures that belong to it return nothing
    and change nothing. *)
Theorem commit_once_then_frozen options callback hook n (h0 : HS) (t0 : Z)
    (os more : list op) :
  observer callback ->
  split_only options hook ->
  (2 <= n)%nat ->
  exists w w',
    run_calling options callback hook n os (throttledDebounce h0 t0) = Some w /\
    run_calling options callback hook n more w = Some w' /\
    NoDup (callCtx <$> calls w') /\
    forall e : Call, e ∈ calls w ->
      e ∈ calls w' /\
      heap w' !! callCtx e = Some (callArg e) /\
      callCtx e <> context (st w') /\
      (forall inc, split (callCtx e) inc w' = (JUndefined, w')) /\
      (forall trig,
         contextBounce_calling callback (callCtx e) trig w' = (JUndefined, w')).
Proof.
  intros Hcb Hh Hn. eexists. eexists.
  split; [by apply run_calling_eq|]. split; [by apply run_calling_eq|].
  destruct (frozen_after_commit options h0 t0 os more) as [Hnd Hall].
  split; [done|]. intros e He.
  destruct (Hall e He) as (H1 & H2 & H3 & H4 & H5).
  repeat split; try done.
  intros trig. by rewrite contextBounce_calling_eq.
Qed.

End Proofs.

(** * Concrete instances of the theorems *)

Lemma feedThrottle_extends_deadline_witness :
  feedThrottle demo_options demo_counted_at_30
    = set_throttleTime (Some 130) demo_counted_at_30 /\
  calls (feedThrottle demo_options demo_counted_at_30)
    = calls demo_counted_at_30.
Proof.
  apply (feedThrottle_extends_deadline demo_options demo_counted_at_30
           0%nat 100);
    [reflexivity | reflexivity | lia | vm_compute; reflexivity].
Defined.

(** The claim C3 fails: a second event, 30 ms after the first, finds the
    throttle timer outstanding and [elapsed] is 30, positive; the listener
    counts the event and calls [feedThrottle], which moves the deadline from
    100 to 130, and neither [feedThrottle] nor the listener call as a whole
    invokes the callback. *)
Lemma feedThrottle_no_commit_when_elapsed :
  throttleHandle (st demo_counted_at_30) = Some 0%nat /\
  throttleTime (st demo_counted_at_30) = Some 100 /\
  0 < throttleWait demo_options - (100 - now demo_counted_at_30) /\
  cur demo_counted_at_30 = mkContext 2 (Some [2%nat]) None true /\
  calls (feedThrottle demo_options demo_counted_at_30) = [] /\
  listener demo_options [2%nat] demo_at_30
    = feedThrottle demo_options demo_counted_at_30 /\
  calls (listener demo_options [2%nat] demo_at_30) = [] /\
  throttleTime (st (listener demo_options [2%nat] demo_at_30)) = Some 130.
Proof.
  split; [reflexivity|]. split; [reflexivity|].
  split; [vm_compute; reflexivity|]. split; [vm_compute; reflexivity|].
  split; [reflexivity|]. split; [vm_compute; reflexivity|].
  split; reflexivity.
Qed.

Lemma invalid_calls_rejected_witness :
  rejected (cancel demo_cancelled) demo_cancelled /\
  rejected (resume demo_fresh) demo_fresh /\
  rejected (globalBounce false demo_fresh) demo_fresh /\
  rejected (split 7 true demo_at_30) demo_at_30 /\
  rejected (split 0 true (set_splitEventChain true demo_fresh))
    (set_splitEventChain true demo_fresh).
Proof.
  split; [| split; [| split; [| split]]].
  - apply (invalid_calls_rejected demo_cancelled). reflexivity.
  - apply (invalid_calls_rejected demo_fresh). reflexivity.
  - apply (invalid_calls_rejected demo_fresh). reflexivity.
  - apply (invalid_calls_rejected demo_at_30). vm_compute. lia.
  - apply (proj1 (proj2 (proj2 (proj2 (proj2
             (invalid_calls_rejected demo_fresh))))) 0%nat false).
    reflexivity.
Defined.

Lemma forced_bounce_of_empty_chain_witness :
  (exists w',
     globalBounce true demo_fresh = (JTrue, w') /\
     calls w' =
       [mkCall 0 0%nat
          {| callCount := 0; arguments := None;
             trigger := Some global; splitProp := false |}]) /\
  rejected (globalBounce false demo_fresh) demo_fresh.
Proof.
  apply (forced_bounce_of_empty_chain demo_options tt 0 []); reflexivity.
Defined.

Lemma cancel_discards_chain_witness :
  exists w1 w2,
    cancel demo_at_0 = (JTrue, w1) /\
    timers w1 = [] /\
    (forall more,
       context (st demo_at_0) ∉ callCtx <$> calls (run demo_options more w1)) /\
    resume w1 = (JTrue, w2) /\
    heap (listener demo_options [2%nat] w2) !! 1%nat
      = Some (mkContext 1 (Some [2%nat]) None true).
Proof.
  destruct (cancel_discards_chain demo_options tt 0 [OListener [1%nat]] [2%nat])
    as (w1 & w2 & H1 & _ & _ & H2 & _ & H3 & H4 & _ & H5); [reflexivity|].
  exists w1, w2. destruct (H5 eq_refl) as (_ & _ & H6).
  split; [exact H1|]. split; [exact H2|]. split; [exact H3|].
  split; [exact H4|]. exact H6.
Defined.

Lemma split_false_on_third_event_witness :
  let w := run (hooked_options (Z.eqb 3) false) two_events
             (throttledDebounce [] 0) in
  let w' := listener (hooked_options (Z.eqb 3) false) [3%nat] w in
  calls w' =
    [mkCall 20 0%nat (mkContext 2 (Some [2%nat]) (Some control) false)] /\
  context (st w') = 1%nat /\
  heap w' !! 1%nat = Some (mkContext 1 (Some [3%nat]) None true).
Proof.
  destruct (split_false_on_third_event (hooked_options (Z.eqb 3) false)
              [] 0 two_events (split_when (Z.eqb 3) false)
              (mkContext 2 (Some [2%nat]) None true) [2%nat] [3%nat]
              (fun r => HReturn [(3, r)]))
    as (H1 & H2 & _ & H3); try reflexivity.
  split; [exact H1|]. split; [exact H2|]. exact H3.
Defined.

(** The claim C4 fails when the split flag is left set: a control function
    that calls [split(false)] on every event gets [true] from each call, yet
    only the call of the very first event splits (an empty chain is
    committed); the chain begun then takes the second and the third event
    without being committed. *)
Lemma split_false_on_third_event_refuted :
  let w := run (hooked_options (fun _ => true) false) three_events
             (throttledDebounce [] 0) in
  hookState w = [(1, JTrue); (1, JTrue); (2, JTrue); (3, JTrue)] /\
  calls w = [mkCall 0 0%nat (mkContext 0 None (Some control) false)] /\
  context (st w) = 1%nat /\
  heap w !! 1%nat = Some (mkContext 3 (Some [3%nat]) None true).
Proof. vm_compute. repeat split. Qed.

Lemma split_in_reinjected_call_ignored_witness :
  let w' := listener (hooked_options (Z.eqb 1) false) [1%nat]
              (throttledDebounce [] 0) in
  hookState w' = [(1, JTrue); (1, JTrue)] /\
  splitEventChain (st w') = true /\
  calls w' = [mkCall 0 0%nat (mkContext 0 None (Some control) false)] /\
  context (st w') = 1%nat /\
  heap w' !! 1%nat = Some (mkContext 1 (Some [1%nat]) None true).
Proof.
  destruct (split_in_reinjected_call_ignored (hooked_options (Z.eqb 1) false)
              [] 0 [] (split_when (Z.eqb 1) false) freshContext [1%nat]
              (fun r => HReturn [(1, r)]) false
              (fun r => HReturn [(1, JTrue); (1, r)]))
    as (w0 & w1 & _ & _ & _ & H1 & H2 & H3 & H4 & H5); try reflexivity.
  split; [exact H1|]. split; [exact H2|]. split; [exact H3|].
  split; [exact H4|]. exact H5.
Defined.

(** The claim C2 fails: in the run of the four events followed by quiet, the
    callback is not invoked at 100 ms; its only invocation is at 190 ms. *)
Lemma four_events_no_commit_at_100 :
  exists w : @World nat unit,
    play demo_options 50
      (four_events [0%nat] [30%nat] [60%nat] [90%nat] ++ [quiet_until 1000])
      (throttledDebounce tt 0) = Some w /\
    ~ (exists e, e ∈ calls w /\ callTime e = 100) /\
    callTime <$> calls w = [190].
Proof.
  eexists. split; [vm_compute; reflexivity|]. split; [| reflexivity].
  intros (e & He & Ht). cbn in He.
  apply list_elem_of_singleton in He. subst e. discriminate.
Qed.

Lemma periodic_events_commit_at_maxDelay_witness :
  let w := run (plain_options (Some 3000) 500) [OListener [0%nat]; OClock 400]
             (throttledDebounce (Val:=nat) tt 0) in
  maxDelayHandle (st (listener (plain_options (Some 3000) 500) [1%nat] w))
    = Some 1%nat /\
  armings_of maxDelayTimeout (listener (plain_options (Some 3000) 500) [1%nat] w)
    = armings_of maxDelayTimeout w.
Proof.
  intros w.
  apply (proj2 (periodic_events_commit_at_maxDelay tt (fun k => [k]))
           (plain_options (Some 3000) 500) 0 [OListener [0%nat]; OClock 400]
           [1%nat] 1%nat); vm_compute; reflexivity.
Defined.

Lemma listener_call_depth_witness :
  listener_fuel (hooked_options (Z.eqb 1) false) 5 [1%nat]
    (throttledDebounce [] 0)
  = Some (listener (hooked_options (Z.eqb 1) false) [1%nat]
            (throttledDebounce [] 0)) /\
  listener_fuel (hooked_options (Z.eqb 1) false) 1 [1%nat]
    (throttledDebounce [] 0) = None /\
  cancelled (st (throttledDebounce (HS := list (Z * jsret)) (Val := nat) [] 0))
    = false.
Proof.
  destruct (listener_call_depth (hooked_options (Z.eqb 1) false) [1%nat]
              (throttledDebounce [] 0)) as [H1 H2].
  split; [apply H1; lia|]. split.
  - apply (proj2 H2). split; [reflexivity|]. split; [reflexivity|].
    exists (split_when (Z.eqb 1) false). split; reflexivity.
  - apply (proj1 H2). reflexivity.
Defined.




Lemma cancelled_instance_inert_witness :
  exists w,
    run_calling demo_options callback_returns None 2
      [OListener [1%nat]; OCancel] (throttledDebounce tt 0) = Some w /\
    (cancelled (st w) = true ->
     exists w',
       run_calling demo_options callback_returns None 2
         [OListener [2%nat]; OBounce true; OClock 500; OTimer 0; OCancel] w
       = Some w' /\
       cancelled (st w') = true /\
       calls w' = calls w /\
       timers w' = [] /\
       armings w' = armings w /\
       context (st w') = context (st w) /\
       heap w' = heap w).
Proof.
  apply (cancelled_instance_inert demo_options callback_returns None 2 tt 0
           [OListener [1%nat]; OCancel]
           [OListener [2%nat]; OBounce true; OClock 500; OTimer 0; OCancel]).
  - intros g c w. reflexivity.
  - exact I.
  - lia.
  - repeat constructor; discriminate.
Defined.

Lemma throttle_timer_due_by_deadline_witness :
  exists d, throttleTime (st demo_at_30) = Some d /\ 100 <= d.
Proof.
  apply (throttle_timer_due_by_deadline demo_options tt 0
           [OListener [1%nat]; OClock 30] (mkTimer 0 feedThrottleTimeout 100)).
  - vm_compute. left.
  - reflexivity.
Defined.

Lemma throttle_timer_fires_witness :
  calls (fire demo_options 0 demo_at_30) = [] /\
  pending feedThrottleTimeout (fire demo_options 0 demo_at_30) =
    [mkTimer 1 feedThrottleTimeout 100].
Proof.
  destruct (throttle_timer_fires demo_options tt 0
              [OListener [1%nat]; OClock 30] (mkTimer 0 feedThrottleTimeout 100))
    as (d & Hd & Hbefore & _).
  - reflexivity.
  - vm_compute. left.
  - reflexivity.
  - vm_compute in Hd. injection Hd as <-.
    destruct Hbefore as (H1 & _ & _ & _ & H2); [vm_compute; reflexivity|].
    split; [exact H1 | exact H2].
Defined.

Lemma maxDelay_timer_fires_witness :
  let w := run (plain_options (Some 3000) 500) [OListener [0%nat]; OClock 400]
             (throttledDebounce (Val:=nat) tt 0) in
  calls (fire (plain_options (Some 3000) 500) 1 w) =
    [mkCall 400 0%nat (mkContext 1 (Some [0%nat]) (Some debounce) false)] /\
  timers (fire (plain_options (Some 3000) 500) 1 w) = [].
Proof.
  destruct (maxDelay_timer_fires (plain_options (Some 3000) 500) tt 0
              [OListener [0%nat]; OClock 400] (mkTimer 1 maxDelayTimeout 3000))
    as (H1 & _ & _ & H2).
  - reflexivity.
  - vm_compute. right. left.
  - reflexivity.
  - split; [exact H1 | exact H2].
Defined.


Lemma events_conserved_witness :
  exists w,
    run_calling (hooked_options (Z.eqb 3) false) callback_returns
      (Some (hook_of (split_when (Z.eqb 3) false))) 2 three_events
      (throttledDebounce [] 0) = Some w /\
    delivered w + callCount (cur w) = 3.
Proof.
  apply (events_conserved (hooked_options (Z.eqb 3) false) callback_returns
           (Some (hook_of (split_when (Z.eqb 3) false))) 2 [] 0 three_events).
  - intros g c w. reflexivity.
  - intros g c w. reflexivity.
  - lia.
  - repeat constructor; discriminate.
Defined.

(** A control function that calls the returned functions is another matter.
    One that calls [split(true)] and then [listener.bounce(true)] has the
    callback invoked twice by one listener call, the second time for a
    context no event has landed in; one that calls [listener.cancel()] leaves
    a cancelled instance with the throttle and max-delay timers pending. *)
Lemma control_function_calling_the_handle :
  (exists w,
     step_calling demo_options callback_returns
       (Some hook_splits_then_bounces) 2 demo_fresh (OListener [1%nat])
     = Some w /\
     calls w =
       [mkCall 0 0%nat (mkContext 1 (Some [1%nat]) (Some global) false);
        mkCall 0 1%nat (mkContext 0 None (Some control) false)]) /\
  (exists w,
     step_calling (plain_options (Some 3000) 100) callback_returns
       (Some hook_cancels) 2 demo_fresh (OListener [1%nat])
     = Some w /\
     cancelled (st w) = true /\
     timers w = [mkTimer 0 feedThrottleTimeout 100;
                 mkTimer 1 maxDelayTimeout 3000]).
Proof.
  split; eexists; (split; [vm_compute; reflexivity|]); [reflexivity|].
  split; reflexivity.
Qed.

Lemma one_callback_per_operation_witness :
  let options := hooked_options (Z.eqb 3) true in
  let w := run options two_events (throttledDebounce [] 0) in
  exists w',
    step_calling options callback_returns
      (Some (hook_of (split_when (Z.eqb 3) true))) 2 w (OListener [3%nat])
    = Some w' /\
    (calls w' = calls w \/ exists e, calls w' = calls w ++ [e]).
Proof.
  intros options w.
  apply (one_callback_per_operation options callback_returns
           (Some (hook_of (split_when (Z.eqb 3) true))) 2 w
           (OListener [3%nat])).
  - intros g c w0. reflexivity.
  - intros g c w0. reflexivity.
  - lia.
Defined.

Lemma commit_once_then_frozen_witness :
  let options := hooked_options (Z.eqb 3) false in
  let hook := Some (hook_of (split_when (Z.eqb 3) false)) in
  exists w w',
    run_calling options callback_returns hook 2 three_events
      (throttledDebounce [] 0) = Some w /\
    run_calling options callback_returns hook 2
      [OSplitRef 0 true; OBounceRef 0 global; OListener [4%nat]] w
    = Some w' /\
    NoDup (callCtx <$> calls w') /\
    forall e, e ∈ calls w ->
      e ∈ calls w' /\
      heap w' !! callCtx e = Some (callArg e) /\
      callCtx e <> context (st w') /\
      (forall inc, split (callCtx e) inc w' = (JUndefined, w')) /\
      (forall trig,
         contextBounce_calling callback_returns (callCtx e) trig w'
         = (JUndefined, w')).
Proof.
  intros options hook.
  apply (commit_once_then_frozen options callback_returns hook 2 [] 0
           three_events
           [OSplitRef 0 true; OBounceRef 0 global; OListener [4%nat]]).
  - intros g c w. reflexivity.
  - intros g c w. reflexivity.
  - lia.
Defined.
